(** * SoFIFA reader: page parsing, record extraction and normalisation

    A shallow embedding of [soccerdata/sofifa.py].  Python text is a
    sequence of Unicode code points, exceptions are values of an error
    monad, the lxml documents are records answering the XPath queries the
    reader issues, and the cached fetcher is threaded as explicit state. *)

From Stdlib Require Import ZArith List String Ascii Bool Lia Permutation Sorted.
From Stdlib Require Import SpecFloat.
Import ListNotations.
Open Scope Z_scope.

(** ** Python text as code points *)

Definition pystr := list Z.

(** ASCII literals of the source, written as Rocq strings. *)
Definition py (s : string) : pystr :=
  map (fun a => Z.of_N (N_of_ascii a)) (list_ascii_of_string s).

(** [U+20AC], the euro sign of the currency fields. *)
Definition euro : Z := 0x20AC.

Fixpoint pystr_eqb (a b : pystr) : bool :=
  match a, b with
  | [], [] => true
  | x :: a', y :: b' => (x =? y) && pystr_eqb a' b'
  | _, _ => false
  end.

(** The [in] operator on a character and a string. *)
Definition contains_char (c : Z) (s : pystr) : bool := existsb (Z.eqb c) s.

(** Character database of the interpreter (Unicode 14.0, as shipped with
    CPython 3.11): the code points with the decimal-digit property, the
    alphanumeric ones and the white space ones. *)
Module Unicode.

Definition in_ranges (c : Z) (rs : list (Z * Z)) : bool :=
  existsb (fun r => (fst r <=? c) && (c <=? snd r)) rs.

(** General category Nd.  Every range starts at a digit zero and holds
    the digits in increasing order, ten at a time. *)
Definition decimal_ranges : list (Z * Z) := [
  (0x30, 0x39); (0x660, 0x669); (0x6F0, 0x6F9); (0x7C0, 0x7C9); (0x966, 0x96F); (0x9E6, 0x9EF);
  (0xA66, 0xA6F); (0xAE6, 0xAEF); (0xB66, 0xB6F); (0xBE6, 0xBEF); (0xC66, 0xC6F); (0xCE6, 0xCEF);
  (0xD66, 0xD6F); (0xDE6, 0xDEF); (0xE50, 0xE59); (0xED0, 0xED9); (0xF20, 0xF29); (0x1040, 0x1049);
  (0x1090, 0x1099); (0x17E0, 0x17E9); (0x1810, 0x1819); (0x1946, 0x194F); (0x19D0, 0x19D9); (0x1A80, 0x1A89);
  (0x1A90, 0x1A99); (0x1B50, 0x1B59); (0x1BB0, 0x1BB9); (0x1C40, 0x1C49); (0x1C50, 0x1C59); (0xA620, 0xA629);
  (0xA8D0, 0xA8D9); (0xA900, 0xA909); (0xA9D0, 0xA9D9); (0xA9F0, 0xA9F9); (0xAA50, 0xAA59); (0xABF0, 0xABF9);
  (0xFF10, 0xFF19); (0x104A0, 0x104A9); (0x10D30, 0x10D39); (0x11066, 0x1106F); (0x110F0, 0x110F9); (0x11136, 0x1113F);
  (0x111D0, 0x111D9); (0x112F0, 0x112F9); (0x11450, 0x11459); (0x114D0, 0x114D9); (0x11650, 0x11659); (0x116C0, 0x116C9);
  (0x11730, 0x11739); (0x118E0, 0x118E9); (0x11950, 0x11959); (0x11C50, 0x11C59); (0x11D50, 0x11D59); (0x11DA0, 0x11DA9);
  (0x16A60, 0x16A69); (0x16AC0, 0x16AC9); (0x16B50, 0x16B59); (0x1D7CE, 0x1D7FF); (0x1E140, 0x1E149); (0x1E2F0, 0x1E2F9);
  (0x1E950, 0x1E959); (0x1FBF0, 0x1FBF9) ].

(** [str.isalnum]: letters, decimal digits, digits and numeric characters. *)
Definition alnum_ranges : list (Z * Z) := [
  (0x30, 0x39); (0x41, 0x5A); (0x61, 0x7A); (0xAA, 0xAA); (0xB2, 0xB3); (0xB5, 0xB5);
  (0xB9, 0xBA); (0xBC, 0xBE); (0xC0, 0xD6); (0xD8, 0xF6); (0xF8, 0x2C1); (0x2C6, 0x2D1);
  (0x2E0, 0x2E4); (0x2EC, 0x2EC); (0x2EE, 0x2EE); (0x370, 0x374); (0x376, 0x377); (0x37A, 0x37D);
  (0x37F, 0x37F); (0x386, 0x386); (0x388, 0x38A); (0x38C, 0x38C); (0x38E, 0x3A1); (0x3A3, 0x3F5);
  (0x3F7, 0x481); (0x48A, 0x52F); (0x531, 0x556); (0x559, 0x559); (0x560, 0x588); (0x5D0, 0x5EA);
  (0x5EF, 0x5F2); (0x620, 0x64A); (0x660, 0x669); (0x66E, 0x66F); (0x671, 0x6D3); (0x6D5, 0x6D5);
  (0x6E5, 0x6E6); (0x6EE, 0x6FC); (0x6FF, 0x6FF); (0x710, 0x710); (0x712, 0x72F); (0x74D, 0x7A5);
  (0x7B1, 0x7B1); (0x7C0, 0x7EA); (0x7F4, 0x7F5); (0x7FA, 0x7FA); (0x800, 0x815); (0x81A, 0x81A);
  (0x824, 0x824); (0x828, 0x828); (0x840, 0x858); (0x860, 0x86A); (0x870, 0x887); (0x889, 0x88E);
  (0x8A0, 0x8C9); (0x904, 0x939); (0x93D, 0x93D); (0x950, 0x950); (0x958, 0x961); (0x966, 0x96F);
  (0x971, 0x980); (0x985, 0x98C); (0x98F, 0x990); (0x993, 0x9A8); (0x9AA, 0x9B0); (0x9B2, 0x9B2);
  (0x9B6, 0x9B9); (0x9BD, 0x9BD); (0x9CE, 0x9CE); (0x9DC, 0x9DD); (0x9DF, 0x9E1); (0x9E6, 0x9F1);
  (0x9F4, 0x9F9); (0x9FC, 0x9FC); (0xA05, 0xA0A); (0xA0F, 0xA10); (0xA13, 0xA28); (0xA2A, 0xA30);
  (0xA32, 0xA33); (0xA35, 0xA36); (0xA38, 0xA39); (0xA59, 0xA5C); (0xA5E, 0xA5E); (0xA66, 0xA6F);
  (0xA72, 0xA74); (0xA85, 0xA8D); (0xA8F, 0xA91); (0xA93, 0xAA8); (0xAAA, 0xAB0); (0xAB2, 0xAB3);
  (0xAB5, 0xAB9); (0xABD, 0xABD); (0xAD0, 0xAD0); (0xAE0, 0xAE1); (0xAE6, 0xAEF); (0xAF9, 0xAF9);
  (0xB05, 0xB0C); (0xB0F, 0xB10); (0xB13, 0xB28); (0xB2A, 0xB30); (0xB32, 0xB33); (0xB35, 0xB39);
  (0xB3D, 0xB3D); (0xB5C, 0xB5D); (0xB5F, 0xB61); (0xB66, 0xB6F); (0xB71, 0xB77); (0xB83, 0xB83);
  (0xB85, 0xB8A); (0xB8E, 0xB90); (0xB92, 0xB95); (0xB99, 0xB9A); (0xB9C, 0xB9C); (0xB9E, 0xB9F);
  (0xBA3, 0xBA4); (0xBA8, 0xBAA); (0xBAE, 0xBB9); (0xBD0, 0xBD0); (0xBE6, 0xBF2); (0xC05, 0xC0C);
  (0xC0E, 0xC10); (0xC12, 0xC28); (0xC2A, 0xC39); (0xC3D, 0xC3D); (0xC58, 0xC5A); (0xC5D, 0xC5D);
  (0xC60, 0xC61); (0xC66, 0xC6F); (0xC78, 0xC7E); (0xC80, 0xC80); (0xC85, 0xC8C); (0xC8E, 0xC90);
  (0xC92, 0xCA8); (0xCAA, 0xCB3); (0xCB5, 0xCB9); (0xCBD, 0xCBD); (0xCDD, 0xCDE); (0xCE0, 0xCE1);
  (0xCE6, 0xCEF); (0xCF1, 0xCF2); (0xD04, 0xD0C); (0xD0E, 0xD10); (0xD12, 0xD3A); (0xD3D, 0xD3D);
  (0xD4E, 0xD4E); (0xD54, 0xD56); (0xD58, 0xD61); (0xD66, 0xD78); (0xD7A, 0xD7F); (0xD85, 0xD96);
  (0xD9A, 0xDB1); (0xDB3, 0xDBB); (0xDBD, 0xDBD); (0xDC0, 0xDC6); (0xDE6, 0xDEF); (0xE01, 0xE30);
  (0xE32, 0xE33); (0xE40, 0xE46); (0xE50, 0xE59); (0xE81, 0xE82); (0xE84, 0xE84); (0xE86, 0xE8A);
  (0xE8C, 0xEA3); (0xEA5, 0xEA5); (0xEA7, 0xEB0); (0xEB2, 0xEB3); (0xEBD, 0xEBD); (0xEC0, 0xEC4);
  (0xEC6, 0xEC6); (0xED0, 0xED9); (0xEDC, 0xEDF); (0xF00, 0xF00); (0xF20, 0xF33); (0xF40, 0xF47);
  (0xF49, 0xF6C); (0xF88, 0xF8C); (0x1000, 0x102A); (0x103F, 0x1049); (0x1050, 0x1055); (0x105A, 0x105D);
  (0x1061, 0x1061); (0x1065, 0x1066); (0x106E, 0x1070); (0x1075, 0x1081); (0x108E, 0x108E); (0x1090, 0x1099);
  (0x10A0, 0x10C5); (0x10C7, 0x10C7); (0x10CD, 0x10CD); (0x10D0, 0x10FA); (0x10FC, 0x1248); (0x124A, 0x124D);
  (0x1250, 0x1256); (0x1258, 0x1258); (0x125A, 0x125D); (0x1260, 0x1288); (0x128A, 0x128D); (0x1290, 0x12B0);
  (0x12B2, 0x12B5); (0x12B8, 0x12BE); (0x12C0, 0x12C0); (0x12C2, 0x12C5); (0x12C8, 0x12D6); (0x12D8, 0x1310);
  (0x1312, 0x1315); (0x1318, 0x135A); (0x1369, 0x137C); (0x1380, 0x138F); (0x13A0, 0x13F5); (0x13F8, 0x13FD);
  (0x1401, 0x166C); (0x166F, 0x167F); (0x1681, 0x169A); (0x16A0, 0x16EA); (0x16EE, 0x16F8); (0x1700, 0x1711);
  (0x171F, 0x1731); (0x1740, 0x1751); (0x1760, 0x176C); (0x176E, 0x1770); (0x1780, 0x17B3); (0x17D7, 0x17D7);
  (0x17DC, 0x17DC); (0x17E0, 0x17E9); (0x17F0, 0x17F9); (0x1810, 0x1819); (0x1820, 0x1878); (0x1880, 0x1884);
  (0x1887, 0x18A8); (0x18AA, 0x18AA); (0x18B0, 0x18F5); (0x1900, 0x191E); (0x1946, 0x196D); (0x1970, 0x1974);
  (0x1980, 0x19AB); (0x19B0, 0x19C9); (0x19D0, 0x19DA); (0x1A00, 0x1A16); (0x1A20, 0x1A54); (0x1A80, 0x1A89);
  (0x1A90, 0x1A99); (0x1AA7, 0x1AA7); (0x1B05, 0x1B33); (0x1B45, 0x1B4C); (0x1B50, 0x1B59); (0x1B83, 0x1BA0);
  (0x1BAE, 0x1BE5); (0x1C00, 0x1C23); (0x1C40, 0x1C49); (0x1C4D, 0x1C7D); (0x1C80, 0x1C88); (0x1C90, 0x1CBA);
  (0x1CBD, 0x1CBF); (0x1CE9, 0x1CEC); (0x1CEE, 0x1CF3); (0x1CF5, 0x1CF6); (0x1CFA, 0x1CFA); (0x1D00, 0x1DBF);
  (0x1E00, 0x1F15); (0x1F18, 0x1F1D); (0x1F20, 0x1F45); (0x1F48, 0x1F4D); (0x1F50, 0x1F57); (0x1F59, 0x1F59);
  (0x1F5B, 0x1F5B); (0x1F5D, 0x1F5D); (0x1F5F, 0x1F7D); (0x1F80, 0x1FB4); (0x1FB6, 0x1FBC); (0x1FBE, 0x1FBE);
  (0x1FC2, 0x1FC4); (0x1FC6, 0x1FCC); (0x1FD0, 0x1FD3); (0x1FD6, 0x1FDB); (0x1FE0, 0x1FEC); (0x1FF2, 0x1FF4);
  (0x1FF6, 0x1FFC); (0x2070, 0x2071); (0x2074, 0x2079); (0x207F, 0x2089); (0x2090, 0x209C); (0x2102, 0x2102);
  (0x2107, 0x2107); (0x210A, 0x2113); (0x2115, 0x2115); (0x2119, 0x211D); (0x2124, 0x2124); (0x2126, 0x2126);
  (0x2128, 0x2128); (0x212A, 0x212D); (0x212F, 0x2139); (0x213C, 0x213F); (0x2145, 0x2149); (0x214E, 0x214E);
  (0x2150, 0x2189); (0x2460, 0x249B); (0x24EA, 0x24FF); (0x2776, 0x2793); (0x2C00, 0x2CE4); (0x2CEB, 0x2CEE);
  (0x2CF2, 0x2CF3); (0x2CFD, 0x2CFD); (0x2D00, 0x2D25); (0x2D27, 0x2D27); (0x2D2D, 0x2D2D); (0x2D30, 0x2D67);
  (0x2D6F, 0x2D6F); (0x2D80, 0x2D96); (0x2DA0, 0x2DA6); (0x2DA8, 0x2DAE); (0x2DB0, 0x2DB6); (0x2DB8, 0x2DBE);
  (0x2DC0, 0x2DC6); (0x2DC8, 0x2DCE); (0x2DD0, 0x2DD6); (0x2DD8, 0x2DDE); (0x2E2F, 0x2E2F); (0x3005, 0x3007);
  (0x3021, 0x3029); (0x3031, 0x3035); (0x3038, 0x303C); (0x3041, 0x3096); (0x309D, 0x309F); (0x30A1, 0x30FA);
  (0x30FC, 0x30FF); (0x3105, 0x312F); (0x3131, 0x318E); (0x3192, 0x3195); (0x31A0, 0x31BF); (0x31F0, 0x31FF);
  (0x3220, 0x3229); (0x3248, 0x324F); (0x3251, 0x325F); (0x3280, 0x3289); (0x32B1, 0x32BF); (0x3400, 0x4DBF);
  (0x4E00, 0xA48C); (0xA4D0, 0xA4FD); (0xA500, 0xA60C); (0xA610, 0xA62B); (0xA640, 0xA66E); (0xA67F, 0xA69D);
  (0xA6A0, 0xA6EF); (0xA717, 0xA71F); (0xA722, 0xA788); (0xA78B, 0xA7CA); (0xA7D0, 0xA7D1); (0xA7D3, 0xA7D3);
  (0xA7D5, 0xA7D9); (0xA7F2, 0xA801); (0xA803, 0xA805); (0xA807, 0xA80A); (0xA80C, 0xA822); (0xA830, 0xA835);
  (0xA840, 0xA873); (0xA882, 0xA8B3); (0xA8D0, 0xA8D9); (0xA8F2, 0xA8F7); (0xA8FB, 0xA8FB); (0xA8FD, 0xA8FE);
  (0xA900, 0xA925); (0xA930, 0xA946); (0xA960, 0xA97C); (0xA984, 0xA9B2); (0xA9CF, 0xA9D9); (0xA9E0, 0xA9E4);
  (0xA9E6, 0xA9FE); (0xAA00, 0xAA28); (0xAA40, 0xAA42); (0xAA44, 0xAA4B); (0xAA50, 0xAA59); (0xAA60, 0xAA76);
  (0xAA7A, 0xAA7A); (0xAA7E, 0xAAAF); (0xAAB1, 0xAAB1); (0xAAB5, 0xAAB6); (0xAAB9, 0xAABD); (0xAAC0, 0xAAC0);
  (0xAAC2, 0xAAC2); (0xAADB, 0xAADD); (0xAAE0, 0xAAEA); (0xAAF2, 0xAAF4); (0xAB01, 0xAB06); (0xAB09, 0xAB0E);
  (0xAB11, 0xAB16); (0xAB20, 0xAB26); (0xAB28, 0xAB2E); (0xAB30, 0xAB5A); (0xAB5C, 0xAB69); (0xAB70, 0xABE2);
  (0xABF0, 0xABF9); (0xAC00, 0xD7A3); (0xD7B0, 0xD7C6); (0xD7CB, 0xD7FB); (0xF900, 0xFA6D); (0xFA70, 0xFAD9);
  (0xFB00, 0xFB06); (0xFB13, 0xFB17); (0xFB1D, 0xFB1D); (0xFB1F, 0xFB28); (0xFB2A, 0xFB36); (0xFB38, 0xFB3C);
  (0xFB3E, 0xFB3E); (0xFB40, 0xFB41); (0xFB43, 0xFB44); (0xFB46, 0xFBB1); (0xFBD3, 0xFD3D); (0xFD50, 0xFD8F);
  (0xFD92, 0xFDC7); (0xFDF0, 0xFDFB); (0xFE70, 0xFE74); (0xFE76, 0xFEFC); (0xFF10, 0xFF19); (0xFF21, 0xFF3A);
  (0xFF41, 0xFF5A); (0xFF66, 0xFFBE); (0xFFC2, 0xFFC7); (0xFFCA, 0xFFCF); (0xFFD2, 0xFFD7); (0xFFDA, 0xFFDC);
  (0x10000, 0x1000B); (0x1000D, 0x10026); (0x10028, 0x1003A); (0x1003C, 0x1003D); (0x1003F, 0x1004D); (0x10050, 0x1005D);
  (0x10080, 0x100FA); (0x10107, 0x10133); (0x10140, 0x10178); (0x1018A, 0x1018B); (0x10280, 0x1029C); (0x102A0, 0x102D0);
  (0x102E1, 0x102FB); (0x10300, 0x10323); (0x1032D, 0x1034A); (0x10350, 0x10375); (0x10380, 0x1039D); (0x103A0, 0x103C3);
  (0x103C8, 0x103CF); (0x103D1, 0x103D5); (0x10400, 0x1049D); (0x104A0, 0x104A9); (0x104B0, 0x104D3); (0x104D8, 0x104FB);
  (0x10500, 0x10527); (0x10530, 0x10563); (0x10570, 0x1057A); (0x1057C, 0x1058A); (0x1058C, 0x10592); (0x10594, 0x10595);
  (0x10597, 0x105A1); (0x105A3, 0x105B1); (0x105B3, 0x105B9); (0x105BB, 0x105BC); (0x10600, 0x10736); (0x10740, 0x10755);
  (0x10760, 0x10767); (0x10780, 0x10785); (0x10787, 0x107B0); (0x107B2, 0x107BA); (0x10800, 0x10805); (0x10808, 0x10808);
  (0x1080A, 0x10835); (0x10837, 0x10838); (0x1083C, 0x1083C); (0x1083F, 0x10855); (0x10858, 0x10876); (0x10879, 0x1089E);
  (0x108A7, 0x108AF); (0x108E0, 0x108F2); (0x108F4, 0x108F5); (0x108FB, 0x1091B); (0x10920, 0x10939); (0x10980, 0x109B7);
  (0x109BC, 0x109CF); (0x109D2, 0x10A00); (0x10A10, 0x10A13); (0x10A15, 0x10A17); (0x10A19, 0x10A35); (0x10A40, 0x10A48);
  (0x10A60, 0x10A7E); (0x10A80, 0x10A9F); (0x10AC0, 0x10AC7); (0x10AC9, 0x10AE4); (0x10AEB, 0x10AEF); (0x10B00, 0x10B35);
  (0x10B40, 0x10B55); (0x10B58, 0x10B72); (0x10B78, 0x10B91); (0x10BA9, 0x10BAF); (0x10C00, 0x10C48); (0x10C80, 0x10CB2);
  (0x10CC0, 0x10CF2); (0x10CFA, 0x10D23); (0x10D30, 0x10D39); (0x10E60, 0x10E7E); (0x10E80, 0x10EA9); (0x10EB0, 0x10EB1);
  (0x10F00, 0x10F27); (0x10F30, 0x10F45); (0x10F51, 0x10F54); (0x10F70, 0x10F81); (0x10FB0, 0x10FCB); (0x10FE0, 0x10FF6);
  (0x11003, 0x11037); (0x11052, 0x1106F); (0x11071, 0x11072); (0x11075, 0x11075); (0x11083, 0x110AF); (0x110D0, 0x110E8);
  (0x110F0, 0x110F9); (0x11103, 0x11126); (0x11136, 0x1113F); (0x11144, 0x11144); (0x11147, 0x11147); (0x11150, 0x11172);
  (0x11176, 0x11176); (0x11183, 0x111B2); (0x111C1, 0x111C4); (0x111D0, 0x111DA); (0x111DC, 0x111DC); (0x111E1, 0x111F4);
  (0x11200, 0x11211); (0x11213, 0x1122B); (0x11280, 0x11286); (0x11288, 0x11288); (0x1128A, 0x1128D); (0x1128F, 0x1129D);
  (0x1129F, 0x112A8); (0x112B0, 0x112DE); (0x112F0, 0x112F9); (0x11305, 0x1130C); (0x1130F, 0x11310); (0x11313, 0x11328);
  (0x1132A, 0x11330); (0x11332, 0x11333); (0x11335, 0x11339); (0x1133D, 0x1133D); (0x11350, 0x11350); (0x1135D, 0x11361);
  (0x11400, 0x11434); (0x11447, 0x1144A); (0x11450, 0x11459); (0x1145F, 0x11461); (0x11480, 0x114AF); (0x114C4, 0x114C5);
  (0x114C7, 0x114C7); (0x114D0, 0x114D9); (0x11580, 0x115AE); (0x115D8, 0x115DB); (0x11600, 0x1162F); (0x11644, 0x11644);
  (0x11650, 0x11659); (0x11680, 0x116AA); (0x116B8, 0x116B8); (0x116C0, 0x116C9); (0x11700, 0x1171A); (0x11730, 0x1173B);
  (0x11740, 0x11746); (0x11800, 0x1182B); (0x118A0, 0x118F2); (0x118FF, 0x11906); (0x11909, 0x11909); (0x1190C, 0x11913);
  (0x11915, 0x11916); (0x11918, 0x1192F); (0x1193F, 0x1193F); (0x11941, 0x11941); (0x11950, 0x11959); (0x119A0, 0x119A7);
  (0x119AA, 0x119D0); (0x119E1, 0x119E1); (0x119E3, 0x119E3); (0x11A00, 0x11A00); (0x11A0B, 0x11A32); (0x11A3A, 0x11A3A);
  (0x11A50, 0x11A50); (0x11A5C, 0x11A89); (0x11A9D, 0x11A9D); (0x11AB0, 0x11AF8); (0x11C00, 0x11C08); (0x11C0A, 0x11C2E);
  (0x11C40, 0x11C40); (0x11C50, 0x11C6C); (0x11C72, 0x11C8F); (0x11D00, 0x11D06); (0x11D08, 0x11D09); (0x11D0B, 0x11D30);
  (0x11D46, 0x11D46); (0x11D50, 0x11D59); (0x11D60, 0x11D65); (0x11D67, 0x11D68); (0x11D6A, 0x11D89); (0x11D98, 0x11D98);
  (0x11DA0, 0x11DA9); (0x11EE0, 0x11EF2); (0x11FB0, 0x11FB0); (0x11FC0, 0x11FD4); (0x12000, 0x12399); (0x12400, 0x1246E);
  (0x12480, 0x12543); (0x12F90, 0x12FF0); (0x13000, 0x1342E); (0x14400, 0x14646); (0x16800, 0x16A38); (0x16A40, 0x16A5E);
  (0x16A60, 0x16A69); (0x16A70, 0x16ABE); (0x16AC0, 0x16AC9); (0x16AD0, 0x16AED); (0x16B00, 0x16B2F); (0x16B40, 0x16B43);
  (0x16B50, 0x16B59); (0x16B5B, 0x16B61); (0x16B63, 0x16B77); (0x16B7D, 0x16B8F); (0x16E40, 0x16E96); (0x16F00, 0x16F4A);
  (0x16F50, 0x16F50); (0x16F93, 0x16F9F); (0x16FE0, 0x16FE1); (0x16FE3, 0x16FE3); (0x17000, 0x187F7); (0x18800, 0x18CD5);
  (0x18D00, 0x18D08); (0x1AFF0, 0x1AFF3); (0x1AFF5, 0x1AFFB); (0x1AFFD, 0x1AFFE); (0x1B000, 0x1B122); (0x1B150, 0x1B152);
  (0x1B164, 0x1B167); (0x1B170, 0x1B2FB); (0x1BC00, 0x1BC6A); (0x1BC70, 0x1BC7C); (0x1BC80, 0x1BC88); (0x1BC90, 0x1BC99);
  (0x1D2E0, 0x1D2F3); (0x1D360, 0x1D378); (0x1D400, 0x1D454); (0x1D456, 0x1D49C); (0x1D49E, 0x1D49F); (0x1D4A2, 0x1D4A2);
  (0x1D4A5, 0x1D4A6); (0x1D4A9, 0x1D4AC); (0x1D4AE, 0x1D4B9); (0x1D4BB, 0x1D4BB); (0x1D4BD, 0x1D4C3); (0x1D4C5, 0x1D505);
  (0x1D507, 0x1D50A); (0x1D50D, 0x1D514); (0x1D516, 0x1D51C); (0x1D51E, 0x1D539); (0x1D53B, 0x1D53E); (0x1D540, 0x1D544);
  (0x1D546, 0x1D546); (0x1D54A, 0x1D550); (0x1D552, 0x1D6A5); (0x1D6A8, 0x1D6C0); (0x1D6C2, 0x1D6DA); (0x1D6DC, 0x1D6FA);
  (0x1D6FC, 0x1D714); (0x1D716, 0x1D734); (0x1D736, 0x1D74E); (0x1D750, 0x1D76E); (0x1D770, 0x1D788); (0x1D78A, 0x1D7A8);
  (0x1D7AA, 0x1D7C2); (0x1D7C4, 0x1D7CB); (0x1D7CE, 0x1D7FF); (0x1DF00, 0x1DF1E); (0x1E100, 0x1E12C); (0x1E137, 0x1E13D);
  (0x1E140, 0x1E149); (0x1E14E, 0x1E14E); (0x1E290, 0x1E2AD); (0x1E2C0, 0x1E2EB); (0x1E2F0, 0x1E2F9); (0x1E7E0, 0x1E7E6);
  (0x1E7E8, 0x1E7EB); (0x1E7ED, 0x1E7EE); (0x1E7F0, 0x1E7FE); (0x1E800, 0x1E8C4); (0x1E8C7, 0x1E8CF); (0x1E900, 0x1E943);
  (0x1E94B, 0x1E94B); (0x1E950, 0x1E959); (0x1EC71, 0x1ECAB); (0x1ECAD, 0x1ECAF); (0x1ECB1, 0x1ECB4); (0x1ED01, 0x1ED2D);
  (0x1ED2F, 0x1ED3D); (0x1EE00, 0x1EE03); (0x1EE05, 0x1EE1F); (0x1EE21, 0x1EE22); (0x1EE24, 0x1EE24); (0x1EE27, 0x1EE27);
  (0x1EE29, 0x1EE32); (0x1EE34, 0x1EE37); (0x1EE39, 0x1EE39); (0x1EE3B, 0x1EE3B); (0x1EE42, 0x1EE42); (0x1EE47, 0x1EE47);
  (0x1EE49, 0x1EE49); (0x1EE4B, 0x1EE4B); (0x1EE4D, 0x1EE4F); (0x1EE51, 0x1EE52); (0x1EE54, 0x1EE54); (0x1EE57, 0x1EE57);
  (0x1EE59, 0x1EE59); (0x1EE5B, 0x1EE5B); (0x1EE5D, 0x1EE5D); (0x1EE5F, 0x1EE5F); (0x1EE61, 0x1EE62); (0x1EE64, 0x1EE64);
  (0x1EE67, 0x1EE6A); (0x1EE6C, 0x1EE72); (0x1EE74, 0x1EE77); (0x1EE79, 0x1EE7C); (0x1EE7E, 0x1EE7E); (0x1EE80, 0x1EE89);
  (0x1EE8B, 0x1EE9B); (0x1EEA1, 0x1EEA3); (0x1EEA5, 0x1EEA9); (0x1EEAB, 0x1EEBB); (0x1F100, 0x1F10C); (0x1FBF0, 0x1FBF9);
  (0x20000, 0x2A6DF); (0x2A700, 0x2B738); (0x2B740, 0x2B81D); (0x2B820, 0x2CEA1); (0x2CEB0, 0x2EBE0); (0x2F800, 0x2FA1D);
  (0x30000, 0x3134A) ].

(** [str.isspace], which is also the class [\s] of [re]. *)
Definition space_ranges : list (Z * Z) := [
  (0x9, 0xD); (0x1C, 0x20); (0x85, 0x85); (0xA0, 0xA0); (0x1680, 0x1680);
  (0x2000, 0x200A); (0x2028, 0x2029); (0x202F, 0x202F); (0x205F, 0x205F);
  (0x3000, 0x3000) ].

Definition isdecimal (c : Z) : bool := in_ranges c decimal_ranges.
Definition isalnum (c : Z) : bool := in_ranges c alnum_ranges.
Definition isspace (c : Z) : bool := in_ranges c space_ranges.

(** Value of a decimal digit: its offset in its range, modulo ten. *)
Definition decimal_value (c : Z) : Z :=
  match find (fun r => (fst r <=? c) && (c <=? snd r)) decimal_ranges with
  | Some r => (c - fst r) mod 10
  | None => 0
  end.

End Unicode.

(** ** Exceptions and the error monad *)

(** An exception is either raised by a [raise] statement of the source,
    with the message the source builds, or by the interpreter or a library
    call, whose message text is not modelled. *)
Inductive exn : Type :=
| Raised (cls : string) (msg : pystr)
| Builtin (cls : string).

Definition exn_class (e : exn) : string :=
  match e with Raised c _ => c | Builtin c => c end.

Definition exn_message (e : exn) : option pystr :=
  match e with Raised _ m => Some m | Builtin _ => None end.

Inductive result (A : Type) : Type :=
| Ok (a : A)
| Err (e : exn).
Arguments Ok {A} a.
Arguments Err {A} e.

Definition bind {A B} (r : result A) (f : A -> result B) : result B :=
  match r with Ok a => f a | Err e => Err e end.

Declare Scope result_scope.
Delimit Scope result_scope with result.
Notation "x <- r ;; k" := (bind r (fun x => k))
  (at level 61, r at next level, right associativity) : result_scope.

Definition is_ok {A} (r : result A) : bool :=
  match r with Ok _ => true | Err _ => false end.

(** Subscript [l[0]] of a list: [IndexError] on the empty list. *)
Definition first {A} (l : list A) : result A :=
  match l with x :: _ => Ok x | [] => Err (Builtin "IndexError") end.

(** ** The fragment of [re] the reader uses *)
Module Re.

Inductive atom : Type :=
| Chr (c : Z)      (* a literal character *)
| Digit            (* \d *)
| Word             (* \w *)
| Space.           (* \s *)

Inductive cset : Type :=
| One (a : atom)
| Dot                        (* any character but a newline *)
| AnyOf (l : list atom)      (* [...] *)
| NoneOf (l : list atom).    (* [^...] *)

(** A pattern is a sequence of items; repetition applies to a character
    set, as in every pattern of the source. *)
Inductive item : Type :=
| Lit (s : cset)
| Rep (s : cset) (lo : nat) (hi : option nat) (greedy : bool)
| Open (g : nat)
| Close (g : nat)
| Bol                        (* ^ *)
| Eol.                       (* $ *)

Definition pattern := list item.

Definition atom_mem (a : atom) (c : Z) : bool :=
  match a with
  | Chr d => c =? d
  | Digit => Unicode.isdecimal c
  | Word => Unicode.isalnum c || (c =? 95)
  | Space => Unicode.isspace c
  end.

Definition cset_mem (s : cset) (c : Z) : bool :=
  match s with
  | One a => atom_mem a c
  | Dot => negb (c =? 10)
  | AnyOf l => existsb (fun a => atom_mem a c) l
  | NoneOf l => negb (existsb (fun a => atom_mem a c) l)
  end.

(** Captures: the start of the groups still open, and the span
    (start, end) of the closed ones. *)
Record captures : Type := {
  opened : list (nat * nat);
  closed : list (nat * (nat * nat))
}.

Definition no_captures : captures := {| opened := []; closed := [] |}.

Definition lookup {V} (g : nat) (l : list (nat * V)) : option V :=
  option_map snd (find (fun e => Nat.eqb (fst e) g) l).

Definition open_group (g pos : nat) (cs : captures) : captures :=
  {| opened := (g, pos) :: opened cs; closed := closed cs |}.

Definition close_group (g pos : nat) (cs : captures) : captures :=
  match lookup g (opened cs) with
  | Some start => {| opened := opened cs; closed := (g, (start, pos)) :: closed cs |}
  | None => cs
  end.

Definition may_repeat (hi : option nat) : bool :=
  match hi with Some O => false | _ => true end.

(** Backtracking over a repetition: a greedy one tries one more character
    before stopping, a lazy one stops before trying one more. *)
Fixpoint rep {A} (s : cset) (greedy : bool) (k : nat -> pystr -> option A)
    (lo : nat) (hi : option nat) (pos : nat) (rest : pystr) {struct rest} : option A :=
  match rest with
  | c :: r =>
      if cset_mem s c && may_repeat hi then
        if greedy then
          match rep s greedy k (pred lo) (option_map pred hi) (S pos) r with
          | Some x => Some x
          | None => match lo with O => k pos rest | S _ => None end
          end
        else
          match (match lo with O => k pos rest | S _ => None end) with
          | Some x => Some x
          | None => rep s greedy k (pred lo) (option_map pred hi) (S pos) r
          end
      else match lo with O => k pos rest | S _ => None end
  | [] => match lo with O => k pos rest | S _ => None end
  end.

(** Match a pattern at position [pos], [rest] being the text from there. *)
Fixpoint exec (p : pattern) (pos : nat) (rest : pystr) (cs : captures)
    : option captures :=
  match p with
  | [] => Some cs
  | Lit s :: p' =>
      match rest with
      | c :: r => if cset_mem s c then exec p' (S pos) r cs else None
      | [] => None
      end
  | Rep s lo hi greedy :: p' =>
      rep s greedy (fun pos' rest' => exec p' pos' rest' cs) lo hi pos rest
  | Open g :: p' => exec p' pos rest (open_group g pos cs)
  | Close g :: p' => exec p' pos rest (close_group g pos cs)
  | Bol :: p' => if Nat.eqb pos 0 then exec p' pos rest cs else None
  | Eol :: p' =>
      match rest with
      | [] => exec p' pos rest cs
      | [10] => exec p' pos rest cs
      | _ => None
      end
  end.

(** A match object: the subject and the spans of its groups. *)
Record match_object : Type := { subject : pystr; spans : captures }.

Fixpoint search_from (p : pattern) (pos : nat) (rest : pystr) : option captures :=
  match exec p pos rest no_captures with
  | Some cs => Some cs
  | None =>
      match rest with
      | [] => None
      | _ :: r => search_from p (S pos) r
      end
  end.

(** [re.search(p, s)] and [re.match(p, s)]; [None] when nothing matches. *)
Definition search (p : pattern) (s : pystr) : option match_object :=
  option_map (fun cs => {| subject := s; spans := cs |}) (search_from p 0 s).

Definition match_ (p : pattern) (s : pystr) : option match_object :=
  option_map (fun cs => {| subject := s; spans := cs |}) (exec p 0 s no_captures).

(** [m.group(g)] for a group that took part in the match. *)
Definition group (m : match_object) (g : nat) : pystr :=
  match lookup g (closed (spans m)) with
  | Some (a, b) => firstn (b - a) (skipn a (subject m))
  | None => []
  end.

(** [re.sub(p, repl, s)] for a pattern that is one character set. *)
Definition sub (s : cset) (repl : pystr) (subj : pystr) : pystr :=
  flat_map (fun c => if cset_mem s c then repl else [c]) subj.

(** The literal characters of an ASCII string, as pattern items. *)
Definition lits (s : string) : pattern :=
  map (fun c => Lit (One (Chr c))) (py s).

Definition plus (s : cset) : item := Rep s 1 None true.

End Re.

(** [re.search(p, s).group(1)]: the attribute access on [None] raises. *)
Definition search_group1 (p : Re.pattern) (s : pystr) : result pystr :=
  match Re.search p s with
  | Some m => Ok (Re.group m 1)
  | None => Err (Builtin "AttributeError")
  end.

(** ** Builtins: values, [int], [str], [str.strip] *)

(** The dynamically typed values a record of the reader holds. *)
Inductive pyval : Type :=
| VNone
| VStr (s : pystr)
| VInt (n : Z).

Definition of_option (o : option pystr) : pyval :=
  match o with Some s => VStr s | None => VNone end.

(** Value of a string of decimal digits. *)
Definition digits_value (s : pystr) : Z :=
  fold_left (fun a c => 10 * a + Unicode.decimal_value c) s 0.

(** The most digits [int] converts: [sys.get_int_max_str_digits()]. *)
Definition int_max_str_digits : Z := 4300.

(** [int(s)], for the digit strings the source passes to it; a string of
    more than [int_max_str_digits] digits is refused. *)
Definition int_of_str (s : pystr) : result Z :=
  match s with
  | [] => Err (Builtin "ValueError")
  | _ => if forallb Unicode.isdecimal s then
           if int_max_str_digits <? Z.of_nat (List.length s)
           then Err (Builtin "ValueError")
           else Ok (digits_value s)
         else Err (Builtin "ValueError")
  end.

Fixpoint digits_of (fuel : nat) (n : Z) (acc : pystr) : pystr :=
  match fuel with
  | O => acc
  | S f =>
      let acc' := (48 + n mod 10) :: acc in
      if n / 10 =? 0 then acc' else digits_of f (n / 10) acc'
  end.

(** [str(n)] of an integer. *)
Definition str_of_int (n : Z) : pystr :=
  if n <? 0 then 45 :: digits_of (S (Z.to_nat (Z.log2 (- n)))) (- n) []
  else digits_of (S (Z.to_nat (Z.log2 n))) n [].

Fixpoint lstrip (s : pystr) : pystr :=
  match s with
  | c :: r => if Unicode.isspace c then lstrip r else s
  | [] => []
  end.

Definition rstrip (s : pystr) : pystr := rev (lstrip (rev s)).

(** [s.strip()] *)
Definition strip (s : pystr) : pystr := rstrip (lstrip s).

(** ** Binary64 arithmetic of [float]

    Only non-negative values occur: the sign is stripped before parsing.
    [Finite m e] is the number [m * 2^e]. *)
Module Float.

Inductive float : Type :=
| Finite (m e : Z)
| Infinity.

(** [p / (q * 2^e)] as a fraction of integers. *)
Definition scaled (p q e : Z) : Z * Z :=
  if 0 <=? e then (p, q * 2 ^ e) else (p * 2 ^ (- e), q).

Definition quotient (p q e : Z) : Z := fst (scaled p q e) / snd (scaled p q e).

(** The exponent that leaves a 53-bit quotient, not below the one of the
    subnormal numbers. *)
Definition exponent (p q : Z) : Z :=
  let e0 := Z.log2 p - Z.log2 q - 52 in
  let e1 := if quotient p q e0 <? 2 ^ 52 then e0 - 1 else e0 in
  Z.max e1 (- 1074).

(** The binary64 number nearest to [p / q], ties to even, for [0 <= p]
    and [0 < q]: a significand that rounds up to [2^53] is carried into
    the exponent, and the result is infinity from [2^1024] on. *)
Definition round (p q : Z) : float :=
  if p =? 0 then Finite 0 0 else
  let e := exponent p q in
  let (num, den) := scaled p q e in
  let m := num / den in
  let r := num mod den in
  let m' := if 2 * r <? den then m
            else if den <? 2 * r then m + 1
            else if Z.even m then m else m + 1 in
  let (m'', e') := if m' =? 2 ^ 53 then (2 ^ 52, e + 1) else (m', e) in
  if 971 <? e' then Infinity else Finite m'' e'.

(** [x * k] for an integer [k] that binary64 holds exactly. *)
Definition mul (x : float) (k : Z) : float :=
  match x with
  | Infinity => Infinity
  | Finite m e => let (num, den) := scaled (m * k) 1 (- e) in round num den
  end.

(** [int(x)]: truncation; overflow on infinity. *)
Definition to_int (x : float) : result Z :=
  match x with
  | Infinity => Err (Builtin "OverflowError")
  | Finite m e => Ok (quotient m 1 (- e))
  end.

End Float.

(** [float(n)] of an integer overflows: the nearest binary64 number is
    beyond the largest one. *)
Definition float_overflows (n : Z) : bool :=
  match Float.round n 1 with
  | Float.Infinity => true
  | Float.Finite _ _ => false
  end.

(** [pd.DataFrame] on a column of integers not below zero: to find the
    type of the column it converts the integers to floating point one
    after the other, which raises [OverflowError] on one that is too large,
    and stops at the first one beyond 64 bits, where it settles for a
    column of Python objects. *)
Fixpoint int_column_overflows (col : list Z) : bool :=
  match col with
  | [] => false
  | n :: col' =>
      if float_overflows n then true
      else if 2 ^ 64 - 1 <? n then false
      else int_column_overflows col'
  end.

Fixpoint split_point (s : pystr) : pystr * option pystr :=
  match s with
  | [] => ([], None)
  | c :: r =>
      if c =? 46 then ([], Some r)
      else let (a, b) := split_point r in (c :: a, b)
  end.

(** [float(s)] for a string of digits and points, as [re.sub] leaves it:
    digits with at most one point and at least one digit, correctly
    rounded; [ValueError] otherwise. *)
Definition float_of_str (s : pystr) : result Float.float :=
  let (ip, tl) := split_point s in
  let fp := match tl with Some f => f | None => [] end in
  match ip ++ fp with
  | [] => Err (Builtin "ValueError")
  | ds =>
      if forallb Unicode.isdecimal ds
      then Ok (Float.round (digits_value ds) (10 ^ Z.of_nat (List.length fp)))
      else Err (Builtin "ValueError")
  end.

(** ** [remove_currency] *)

Definition remove_currency (v : pyval) : result pystr :=
  match v with
  | VStr s =>
      let digital_part := Re.sub (Re.NoneOf [Re.Digit; Re.Chr 46]) [] s in
      (val <- float_of_str digital_part ;;
       if contains_char 77 s then
         (n <- Float.to_int (Float.mul val 1000000) ;; Ok (str_of_int n))
       else if contains_char 75 s then
         (n <- Float.to_int (Float.mul val 1000) ;; Ok (str_of_int n))
       else
         (n <- Float.to_int val ;; Ok (str_of_int n)))%result
  | _ => Err (Builtin "TypeError")
  end.

(** ** [datetime.strptime(s, "%b %d, %Y").strftime("%m-%d")]

    The format directives are matched as the library matches them: the
    abbreviated English month names without regard to case, runs of white
    space where the format has a blank, a day from 1 to 31 of one or two
    digits, a year of four digits, and nothing after it.  The date has to
    exist.  Every failure is a [ValueError]. *)
Module Datetime.

Definition ascii_lower (c : Z) : Z :=
  if (65 <=? c) && (c <=? 90) then c + 32 else c.

Definition b_month : list string :=
  ["jan"; "feb"; "mar"; "apr"; "may"; "jun";
   "jul"; "aug"; "sep"; "oct"; "nov"; "dec"]%string.

Fixpoint index_of (w : pystr) (l : list string) (i : Z) : option Z :=
  match l with
  | [] => None
  | m :: l' => if pystr_eqb w (py m) then Some i else index_of w l' (i + 1)
  end.

Definition is_leap (y : Z) : bool :=
  (y mod 4 =? 0) && (negb (y mod 100 =? 0) || (y mod 400 =? 0)).

Definition days_in_month (y m : Z) : Z :=
  if m =? 2 then (if is_leap y then 29 else 28)
  else if (m =? 4) || (m =? 6) || (m =? 9) || (m =? 11) then 30
  else 31.

Definition in_range (lo hi c : Z) : bool := (lo <=? c) && (c <=? hi).

(** The directive [%d]: [3[0-1]|[1-2]\d|0[1-9]|[1-9]]. *)
Definition parse_day (s : pystr) : option (Z * pystr) :=
  match s with
  | c1 :: c2 :: r =>
      if (c1 =? 51) && in_range 48 49 c2 then Some (30 + (c2 - 48), r)
      else if in_range 49 50 c1 && Unicode.isdecimal c2
           then Some (10 * (c1 - 48) + Unicode.decimal_value c2, r)
      else if (c1 =? 48) && in_range 49 57 c2 then Some (c2 - 48, r)
      else if in_range 49 57 c1 then Some (c1 - 48, c2 :: r)
      else None
  | [c1] => if in_range 49 57 c1 then Some (c1 - 48, []) else None
  | [] => None
  end.

(** At least one white space character, then the rest. *)
Definition skip_spaces (s : pystr) : option pystr :=
  match s with
  | c :: r => if Unicode.isspace c then Some (lstrip r) else None
  | [] => None
  end.

Record date : Type := { year : Z; month : Z; day : Z }.

Definition strptime_b_d_Y (s : pystr) : result date :=
  let bad := Err (Builtin "ValueError") in
  match index_of (map ascii_lower (firstn 3 s)) b_month 1 with
  | None => bad
  | Some mo =>
      match skip_spaces (skipn 3 s) with
      | None => bad
      | Some s1 =>
          match parse_day s1 with
          | None => bad
          | Some (d, s2) =>
              match s2 with
              | 44 :: s3 =>
                  match skip_spaces s3 with
                  | Some [y1; y2; y3; y4] =>
                      let ys := [y1; y2; y3; y4] in
                      if forallb Unicode.isdecimal ys then
                        let y := digits_value ys in
                        if (1 <=? y) && (d <=? days_in_month y mo)
                        then Ok {| year := y; month := mo; day := d |}
                        else bad
                      else bad
                  | _ => bad
                  end
              | _ => bad
              end
          end
      end
  end.

Definition two_digits (n : Z) : pystr := [48 + n / 10; 48 + n mod 10].

Definition strftime_m_d (d : date) : pystr :=
  two_digits (month d) ++ [45] ++ two_digits (day d).

End Datetime.

(** ** lxml elements

    A parsed element is modelled by what it answers: its text, its
    attributes and the results of XPath queries.  The kind of an XPath
    result is fixed by the expression: a list of elements, a list of
    strings for expressions ending in [text()] or [@attr], one string for
    [string(...)]. *)
Module Html.

#[warnings="-register-all"] Inductive Element : Type := mkElement {
  text : option pystr;
  get : pystr -> option pystr;
  xpath : pystr -> list Element;
  xpath_text : pystr -> list pystr;
  xpath_string : pystr -> pystr
}.

End Html.

(** ** Documents, cache and fetcher *)

(** One league of the directory served by [/api/league]. *)
Record LeagueChild : Type := { id : Z; nationName : pystr; value : pystr }.

(** A fetched document: what [json.load] makes of it (the [childs] of each
    node of [data], or nothing when it is no such JSON) and what
    [html.parse] makes of it. *)
Record Document : Type := {
  json : option (list (list LeagueChild));
  html : Html.Element
}.

(** [data_dir / name] *)
Record Path : Type := { dir : pystr; name : pystr }.

Definition path_eqb (a b : Path) : bool :=
  pystr_eqb (dir a) (dir b) && pystr_eqb (name a) (name b).

(** A call of [self.get]; [req_max_age] is [None] when the argument is
    left out, [Some None] when it is passed as [None]. *)
Record Request : Type := {
  req_url : pystr;
  req_path : Path;
  req_max_age : option (option Z)
}.

Record CacheEntry : Type := { content : Document; age : Z }.

(** The world the reader runs in: the site, the local cache, and what
    has happened so far (calls of the fetcher, downloads, warnings). *)
Record Session : Type := {
  web : pystr -> Document;
  cache : list (Path * CacheEntry);
  requests : list Request;
  downloads : list pystr;
  warnings : list pystr
}.

Definition IO (A : Type) : Type := Session -> result A * Session.

Definition ret {A} (a : A) : IO A := fun s => (Ok a, s).

Definition lift {A} (r : result A) : IO A := fun s => (r, s).

Definition bindIO {A B} (m : IO A) (f : A -> IO B) : IO B :=
  fun s =>
    match m s with
    | (Ok a, s') => f a s'
    | (Err e, s') => (Err e, s')
    end.

Declare Scope io_scope.
Delimit Scope io_scope with io.
Notation "x <- m ;; k" := (bindIO m (fun x => k))
  (at level 61, m at next level, right associativity) : io_scope.

(** A [for] loop that appends records to a list. *)
Fixpoint for_each {A B} (body : A -> IO (list B)) (l : list A) : IO (list B) :=
  match l with
  | [] => ret []
  | x :: l' =>
      (ys <- body x ;; zs <- for_each body l' ;; ret (ys ++ zs))%io
  end.

(** The same loop without effects. *)
Fixpoint map_result {A B} (f : A -> result B) (l : list A) : result (list B) :=
  match l with
  | [] => Ok []
  | x :: l' => (y <- f x ;; ys <- map_result f l' ;; Ok (y :: ys))%result
  end.

Fixpoint enumerate_from {A} (i : nat) (l : list A) : list (nat * A) :=
  match l with
  | [] => []
  | x :: l' => (i, x) :: enumerate_from (S i) l'
  end.

Definition enumerate {A} (l : list A) : list (nat * A) := enumerate_from 0 l.

Definition cache_lookup (p : Path) (c : list (Path * CacheEntry)) : option CacheEntry :=
  option_map snd (find (fun e => path_eqb (fst e) p) c).

Definition fresh (max_age : option (option Z)) (a : Z) : bool :=
  match max_age with
  | Some (Some limit) => a <? limit
  | _ => true
  end.

(** Modelled from the spec: the fetcher [get(url, cache_path, max_age)] of
    the base reader, which is not part of this file.  It answers from the
    cache when the document is there and fresh, and a [max_age] of [None]
    trusts the cache for ever; otherwise it downloads and stores. *)
Definition get (url : pystr) (filepath : Path) (max_age : option (option Z))
    : IO Document :=
  fun s =>
    let rq := {| req_url := url; req_path := filepath; req_max_age := max_age |} in
    let hit :=
      match cache_lookup filepath (cache s) with
      | Some e => if fresh max_age (age e) then Some (content e) else None
      | None => None
      end in
    match hit with
    | Some d =>
        (Ok d, {| web := web s; cache := cache s;
                  requests := requests s ++ [rq];
                  downloads := downloads s; warnings := warnings s |})
    | None =>
        let d := web s url in
        (Ok d, {| web := web s;
                  cache := (filepath, {| content := d; age := 0 |}) :: cache s;
                  requests := requests s ++ [rq];
                  downloads := downloads s ++ [url];
                  warnings := warnings s |})
    end.

(** [logger.warning(msg)] *)
Definition warning (msg : pystr) : IO unit :=
  fun s =>
    (Ok tt, {| web := web s; cache := cache s; requests := requests s;
               downloads := downloads s; warnings := warnings s ++ [msg] |}).

(** Modelled from the spec: [safe_xpath_text(node, xpath, warn=...)] of the
    common helpers, not part of this file: the text the query finds, or
    null with a logged warning when it finds none. *)
Definition safe_xpath_text (node : Html.Element) (q : pystr) (warn : pystr)
    : IO (option pystr) :=
  match Html.xpath_text node q with
  | t :: _ => ret (Some t)
  | [] => (_ <- warning warn ;; ret None)%io
  end.

Definition json_load (d : Document) : result (list (list LeagueChild)) :=
  match json d with
  | Some data => Ok data
  | None => Err (Builtin "JSONDecodeError")
  end.

(** ** Tables *)

Record version_row : Type := {
  version_id : Z;
  fifa_edition : option pystr;
  update : option pystr
}.

Record league_row : Type := { league_id : Z; league : pystr }.

Record team_row : Type := {
  team_id : Z;
  team : option pystr;
  team_league : pystr;
  team_fifa_edition : option pystr;
  team_update : option pystr
}.

Record player_row : Type := {
  player_id : Z;
  player : option pystr;
  player_team : option pystr;
  player_league : pystr;
  player_fifa_edition : option pystr;
  player_update : option pystr
}.

Record team_rating_row : Type := {
  rating_league : pystr;
  rating_team : option pystr;
  rating_values : list (pystr * option pystr);
  rating_fifa_edition : option pystr;
  rating_update : option pystr
}.

(** A record of [read_player_ratings]: a dict in insertion order. *)
Definition scores_dict := list (pystr * pyval).

Fixpoint dict_set (k : pystr) (v : pyval) (d : scores_dict) : scores_dict :=
  match d with
  | [] => [(k, v)]
  | (k', v') :: d' =>
      if pystr_eqb k' k then (k, v) :: d' else (k', v') :: dict_set k v d'
  end.

Definition dict_get (k : pystr) (d : scores_dict) : option pyval :=
  option_map snd (find (fun e => pystr_eqb (fst e) k) d).

(** [d[k]]: [KeyError] when the key is missing. *)
Definition dict_item (k : pystr) (d : scores_dict) : result pyval :=
  match dict_get k d with
  | Some v => Ok v
  | None => Err (Builtin "KeyError")
  end.

(** Order of strings: code point by code point. *)
Fixpoint pystr_leb (a b : pystr) : bool :=
  match a, b with
  | [], _ => true
  | _ :: _, [] => false
  | x :: a', y :: b' => (x <? y) || ((x =? y) && pystr_leb a' b')
  end.

(** Missing values sort last. *)
Definition option_leb (a b : option pystr) : bool :=
  match a, b with
  | _, None => true
  | None, Some _ => false
  | Some x, Some y => pystr_leb x y
  end.

(** [sort_index]: rows in increasing order of their key.  Rows with equal
    keys keep their order here; pandas leaves that order open. *)
Section Sorting.
Context {A : Type} (leb : A -> A -> bool).

Fixpoint insert (x : A) (l : list A) : list A :=
  match l with
  | [] => [x]
  | y :: l' => if leb x y then x :: l else y :: insert x l'
  end.

Definition sort_index (l : list A) : list A := fold_right insert [] l.
End Sorting.

(** [frame.loc[keys]]: for each key the rows that carry it; [KeyError] when
    a key has none. *)
Definition loc {A K} (eqb : K -> K -> bool) (key : A -> K) (keys : list K)
    (frame : list A) : result (list A) :=
  (rows <- map_result
     (fun k => match filter (fun r => eqb (key r) k) frame with
               | [] => Err (Builtin "KeyError")
               | rs => Ok rs
               end) keys ;;
   Ok (List.concat rows))%result.

(** [frame.tail(n=1)] *)
Definition tail1 {A} (frame : list A) : list A :=
  match rev frame with
  | [] => []
  | x :: _ => [x]
  end.

(** [str.format] and f-strings print a missing value as [None]. *)
Definition format_option (o : option pystr) : pystr :=
  match o with Some s => s | None => py "None" end.

Fixpoint map_io {A B} (f : A -> IO B) (l : list A) : IO (list B) :=
  match l with
  | [] => ret []
  | x :: l' => (y <- f x ;; ys <- map_io f l' ;; ret (y :: ys))%io
  end.

(** ** The reader *)

Inductive versions_arg : Type :=
| VersionsStr (s : pystr)
| VersionsInt (n : Z)
| VersionsList (l : list Z).

Inductive team_arg : Type :=
| TeamStr (s : pystr)
| TeamList (l : list pystr).

Inductive player_arg : Type :=
| PlayerInt (n : Z)
| PlayerList (l : list Z).

(** What the module imports from [_config] and [_common] and inherits from
    the base reader, none of which is part of this file. *)
Record Env : Type := {
  MAXAGE : option Z;
  TEAMNAME_REPLACEMENTS : list (pystr * pystr);
  add_standardized_team_name : team_arg -> list pystr;
  _translate_league : list league_row -> result (list league_row);
  standardize_colname : pystr -> pystr
}.

(** The reader object. *)
Record SoFIFA : Type := {
  data_dir : pystr;
  _selected_leagues : list pystr;
  versions : list version_row
}.

Definition SO_FIFA_API : pystr := py "https://sofifa.com".

Definition joinpath (d n : pystr) : Path := {| dir := d; name := n |}.

(** [re.search(p, s).group(1)] where [s] may be [None], which [re.search]
    refuses with a [TypeError]. *)
Definition search_group1_opt (p : Re.pattern) (s : option pystr) : result pystr :=
  match s with
  | Some h => search_group1 p h
  | None => Err (Builtin "TypeError")
  end.

(** [r=(\d+)] *)
Definition pat_version : Re.pattern :=
  Re.lits "r=" ++ [Re.Open 1; Re.plus (Re.One Re.Digit); Re.Close 1].

(** [\/team\/(\d+)\/[\w-]+\/] *)
Definition pat_team : Re.pattern :=
  Re.lits "/team/" ++ [Re.Open 1; Re.plus (Re.One Re.Digit); Re.Close 1]
  ++ Re.lits "/" ++ [Re.plus (Re.AnyOf [Re.Word; Re.Chr 45])] ++ Re.lits "/".

(** [\/player\/(\d+)\/[\w-]+\/] *)
Definition pat_player : Re.pattern :=
  Re.lits "/player/" ++ [Re.Open 1; Re.plus (Re.One Re.Digit); Re.Close 1]
  ++ Re.lits "/" ++ [Re.plus (Re.AnyOf [Re.Word; Re.Chr 45])] ++ Re.lits "/".

(** [^(\d+)y\.o\..*?\((\w+\s\d{1,2},\s\d{4})[^)]*\)\s(\d+)cm.*\s(\d+)kg.*?$] *)
Definition pat_basic_info : Re.pattern :=
  [Re.Bol; Re.Open 1; Re.plus (Re.One Re.Digit); Re.Close 1]
  ++ Re.lits "y.o." ++ [Re.Rep Re.Dot 0 None false] ++ Re.lits "("
  ++ [Re.Open 2; Re.plus (Re.One Re.Word); Re.Lit (Re.One Re.Space);
      Re.Rep (Re.One Re.Digit) 1 (Some 2%nat) true]
  ++ Re.lits ","
  ++ [Re.Lit (Re.One Re.Space); Re.Rep (Re.One Re.Digit) 4 (Some 4%nat) true;
      Re.Close 2; Re.Rep (Re.NoneOf [Re.Chr 41]) 0 None true]
  ++ Re.lits ")"
  ++ [Re.Lit (Re.One Re.Space); Re.Open 3; Re.plus (Re.One Re.Digit); Re.Close 3]
  ++ Re.lits "cm"
  ++ [Re.Rep Re.Dot 0 None true; Re.Lit (Re.One Re.Space);
      Re.Open 4; Re.plus (Re.One Re.Digit); Re.Close 4]
  ++ Re.lits "kg" ++ [Re.Rep Re.Dot 0 None false; Re.Eol].

(** [POINT_<code>=(\d+)] *)
Definition pat_point (code : string) : Re.pattern :=
  Re.lits "POINT_" ++ Re.lits code ++ Re.lits "="
  ++ [Re.Open 1; Re.plus (Re.One Re.Digit); Re.Close 1].

Section Reader.

Variable env : Env.

(** *** [read_versions] *)

Definition parse_update (edition : option pystr) (node_fifa_update : Html.Element)
    : result version_row :=
  let href := Html.get node_fifa_update (py "value") in
  (version_id <- search_group1_opt pat_version href ;;
   n <- int_of_str version_id ;;
   Ok {| version_id := n;
         fifa_edition := edition;
         update := Html.text node_fifa_update |})%result.

(** [pd.DataFrame(versions).set_index("version_id").sort_index()]; an
    empty list of records makes a frame without that column, and an
    identifier too large for a float is refused when the frame is made. *)
Definition versions_frame (records : list version_row) : result (list version_row) :=
  match records with
  | [] => Err (Builtin "KeyError")
  | _ =>
      if int_column_overflows (map version_id records)
      then Err (Builtin "OverflowError")
      else Ok (sort_index (fun a b => version_id a <=? version_id b) records)
  end.

Definition updates_path (dir : pystr) (node_fifa_edition : Html.Element) : Path :=
  joinpath dir (py "updates_" ++ format_option (Html.text node_fifa_edition) ++ py ".html").

(** The body of the loop over the editions: the update page of the
    [i]-th edition and the versions it lists. *)
Definition edition_body (dir : pystr) (max_age : option Z)
    (inode : nat * Html.Element) : IO (list version_row) :=
  let '(i, node_fifa_edition) := inode in
  let edition := Html.text node_fifa_edition in
  let filepath := updates_path dir node_fifa_edition in
  (url <- lift match Html.get node_fifa_edition (py "value") with
               | Some v => Ok (SO_FIFA_API ++ v)
               | None => Err (Builtin "TypeError")
               end ;;
   page <- get url filepath (Some (if Nat.eqb i 0 then max_age else None)) ;;
   lift (map_result (parse_update edition)
           (Html.xpath (html page) (py "//header/section/p/select[2]/option"))))%io.

Definition read_versions (dir : pystr) (max_age : option Z) : IO (list version_row) :=
  (doc <- get SO_FIFA_API (joinpath dir (py "index.html")) (Some max_age) ;;
   records <- for_each (edition_body dir max_age)
                (enumerate (Html.xpath (html doc)
                              (py "//header/section/p/select[1]/option"))) ;;
   lift (versions_frame records))%io.

(** *** [__init__], after the base reader has selected the leagues *)

Definition __init__ (dir : pystr) (leagues : list pystr) (arg : versions_arg) : IO SoFIFA :=
  (selected <-
     match arg with
     | VersionsStr s =>
         if pystr_eqb s (py "latest") then
           (all <- read_versions dir (MAXAGE env) ;; ret (tail1 all))
         else if pystr_eqb s (py "all") then read_versions dir (MAXAGE env)
         else lift (Err (Raised "ValueError" (py "Invalid value for versions: " ++ s)))
     | VersionsInt n =>
         (all <- read_versions dir (MAXAGE env) ;;
          lift (loc Z.eqb version_id [n] all))
     | VersionsList l =>
         (all <- read_versions dir (MAXAGE env) ;;
          lift (loc Z.eqb version_id l all))
     end ;;
   ret {| data_dir := dir; _selected_leagues := leagues; versions := selected |})%io.

(** *** [read_leagues] *)

Definition league_of_child (child : LeagueChild) : league_row :=
  {| league_id := id child;
     league := py "[" ++ nationName child ++ py "] " ++ value child |}.

Definition read_leagues (self : SoFIFA) : IO (list league_row) :=
  (doc <- get (SO_FIFA_API ++ py "/api/league")
              (joinpath (data_dir self) (py "leagues.json")) None ;;
   response <- lift (json_load doc) ;;
   let leagues := flat_map (map league_of_child) response in
   frame <- lift (_translate_league env leagues) ;;
   lift (loc pystr_eqb league (_selected_leagues self)
           (sort_index (fun a b => pystr_leb (league a) (league b)) frame)))%io.

(** *** [read_teams] *)

Definition parse_team_row (lkey : pystr) (version : version_row) (node : Html.Element)
    : result team_row :=
  (team_link <- first (Html.xpath node (py ".//td[2]//a")) ;;
   g <- search_group1_opt pat_team (Html.get team_link (py "href")) ;;
   n <- int_of_str g ;;
   Ok {| team_id := n;
         team := Html.text team_link;
         team_league := lkey;
         team_fifa_edition := fifa_edition version;
         team_update := update version |})%result.

Fixpoint dict_lookup (k : pystr) (d : list (pystr * pystr)) : option pystr :=
  match d with
  | [] => None
  | (k', v) :: d' => if pystr_eqb k' k then Some v else dict_lookup k d'
  end.

(** [.replace({"team": TEAMNAME_REPLACEMENTS})] on one cell. *)
Definition replace_team (t : option pystr) : option pystr :=
  match t with
  | Some s =>
      match dict_lookup s (TEAMNAME_REPLACEMENTS env) with
      | Some s' => Some s'
      | None => Some s
      end
  | None => None
  end.

Definition replace_in_team_row (r : team_row) : team_row :=
  {| team_id := team_id r;
     team := replace_team (team r);
     team_league := team_league r;
     team_fifa_edition := team_fifa_edition r;
     team_update := team_update r |}.

(** [pd.DataFrame(teams).replace(...).set_index(["team_id"])] *)
Definition teams_frame (records : list team_row) : result (list team_row) :=
  match records with
  | [] => Err (Builtin "KeyError")
  | _ =>
      if int_column_overflows (map team_id records)
      then Err (Builtin "OverflowError")
      else Ok (map replace_in_team_row records)
  end.

Definition teams_url (lg r : Z) : pystr :=
  SO_FIFA_API ++ py "/teams?lg=" ++ str_of_int lg ++ py "&r=" ++ str_of_int r
  ++ py "&set=true".

Definition teams_file (lg r : Z) : pystr :=
  py "teams_" ++ str_of_int lg ++ py "_" ++ str_of_int r ++ py ".html".

Definition collect_teams (self : SoFIFA) (leagues : list league_row) : IO (list team_row) :=
  for_each
    (fun '(lg, version) =>
       let filepath := joinpath (data_dir self)
                         (teams_file (league_id lg) (version_id version)) in
       let url := teams_url (league_id lg) (version_id version) in
       (doc <- get url filepath None ;;
        lift (map_result (parse_team_row (league lg) version)
                (Html.xpath (html doc) (py "//table/tbody/tr"))))%io)
    (list_prod leagues (versions self)).

Definition read_teams (self : SoFIFA) : IO (list team_row) :=
  (leagues <- read_leagues self ;;
   teams <- collect_teams self leagues ;;
   lift (teams_frame teams))%io.

(** *** [read_players] *)

(** [column.isin(values)] on one cell; a missing value is in no set. *)
Definition isin (v : option pystr) (values : list pystr) : bool :=
  match v with
  | Some s => existsb (pystr_eqb s) values
  | None => false
  end.

Definition no_data_found : exn :=
  Raised "ValueError" (py "No data found for the given teams in the selected seasons.").

Definition select_teams (team_filter : option team_arg) (df_teams : list team_row)
    : result (list team_row) :=
  match team_filter with
  | Some t =>
      let teams_to_check := add_standardized_team_name env t in
      match filter (fun r => isin (team r) teams_to_check) df_teams with
      | [] => Err no_data_found
      | iterator => Ok iterator
      end
  | None => Ok df_teams
  end.

Definition parse_player_link (version : version_row) (df_team : team_row)
    (node : Html.Element) : result player_row :=
  (g <- search_group1_opt pat_player (Html.get node (py "href")) ;;
   n <- int_of_str g ;;
   Ok {| player_id := n;
         player := Html.get node (py "data-tippy-content");
         player_team := team df_team;
         player_league := team_league df_team;
         player_fifa_edition := fifa_edition version;
         player_update := update version |})%result.

Definition parse_squad (version : version_row) (df_team : team_row)
    (tree : Html.Element) : result (list player_row) :=
  let table_squad := Html.xpath tree (py "//article/table") in
  (table <- first table_squad ;;
   map_result (parse_player_link version df_team)
     (Html.xpath table (py ".//td[2]/a[contains(@href,'/player/')]")))%result.

(** [pd.DataFrame(players).set_index(["player_id"])] *)
Definition players_frame (records : list player_row) : result (list player_row) :=
  match records with
  | [] => Err (Builtin "KeyError")
  | _ =>
      if int_column_overflows (map player_id records)
      then Err (Builtin "OverflowError")
      else Ok records
  end.

Definition players_url (t r : Z) : pystr :=
  SO_FIFA_API ++ py "/team/" ++ str_of_int t ++ py "/?r=" ++ str_of_int r
  ++ py "&set=true".

Definition players_file (t r : Z) : pystr :=
  py "players_" ++ str_of_int t ++ py "_" ++ str_of_int r ++ py ".html".

Definition collect_players (self : SoFIFA) (iterator : list team_row)
    : IO (list player_row) :=
  for_each
    (fun '(version, df_team) =>
       let filepath := joinpath (data_dir self)
                         (players_file (team_id df_team) (version_id version)) in
       let url := players_url (team_id df_team) (version_id version) in
       (doc <- get url filepath None ;;
        lift (parse_squad version df_team (html doc)))%io)
    (list_prod (versions self) iterator).

Definition read_players (self : SoFIFA) (team_filter : option team_arg)
    : IO (list player_row) :=
  (df_teams <- read_teams self ;;
   iterator <- lift (select_teams team_filter df_teams) ;;
   players <- collect_players self iterator ;;
   lift (players_frame players))%io.

(** *** [read_team_ratings] *)

Definition ratings : list (string * string) :=
  [("oa", "overall"); ("at", "attack"); ("md", "midfield"); ("df", "defence");
   ("tb", "transfer_budget"); ("cw", "club_worth"); ("bs", "build_up_speed");
   ("bd", "build_up_dribbling"); ("bp", "build_up_passing");
   ("bps", "build_up_positioning"); ("cc", "chance_creation_crossing");
   ("cp", "chance_creation_passing"); ("cs", "chance_creation_shooting");
   ("cps", "chance_creation_positioning"); ("da", "defence_aggression");
   ("dm", "defence_pressure"); ("dw", "defence_team_width");
   ("dd", "defence_defender_line"); ("dp", "defence_domestic_prestige");
   ("ip", "international_prestige"); ("ps", "players");
   ("sa", "starting_xi_average_age"); ("ta", "whole_team_average_age")]%string.

Definition team_ratings_url (lg r : Z) : pystr :=
  teams_url lg r
  ++ flat_map (fun kd => py "&showCol[]=" ++ py (fst kd)) ratings.

Definition rating_cell (node : Html.Element) (kd : string * string)
    : IO (pystr * option pystr) :=
  let (key, desc) := kd in
  (v <- safe_xpath_text node
          (py ".//td[@data-col='" ++ py key ++ py "']//text()")
          (py "Could not parse " ++ py desc ++ py " (" ++ py key ++ py ") stat.") ;;
   ret (py desc, v))%io.

Definition parse_rating_row (lkey : pystr) (version : version_row)
    (node : Html.Element) : IO team_rating_row :=
  (link <- lift (first (Html.xpath node (py ".//td[2]//a"))) ;;
   cells <- map_io (rating_cell node) ratings ;;
   ret {| rating_league := lkey;
          rating_team := Html.text link;
          rating_values := cells;
          rating_fifa_edition := fifa_edition version;
          rating_update := update version |})%io.

Definition replace_in_rating_row (r : team_rating_row) : team_rating_row :=
  {| rating_league := rating_league r;
     rating_team := replace_team (rating_team r);
     rating_values := rating_values r;
     rating_fifa_edition := rating_fifa_edition r;
     rating_update := rating_update r |}.

(** Order of the index [(league, team)]. *)
Definition rating_index_leb (a b : team_rating_row) : bool :=
  if pystr_eqb (rating_league a) (rating_league b)
  then option_leb (rating_team a) (rating_team b)
  else pystr_leb (rating_league a) (rating_league b).

(** [pd.DataFrame(teams).replace(...).set_index(["league", "team"]).sort_index()] *)
Definition team_ratings_frame (records : list team_rating_row)
    : result (list team_rating_row) :=
  match records with
  | [] => Err (Builtin "KeyError")
  | _ => Ok (sort_index rating_index_leb (map replace_in_rating_row records))
  end.

Definition collect_team_ratings (self : SoFIFA) (leagues : list league_row)
    : IO (list team_rating_row) :=
  for_each
    (fun '(lg, version) =>
       let filepath := joinpath (data_dir self)
                         (teams_file (league_id lg) (version_id version)) in
       let url := team_ratings_url (league_id lg) (version_id version) in
       (doc <- get url filepath None ;;
        map_io (parse_rating_row (league lg) version)
          (Html.xpath (html doc) (py "//table/tbody/tr")))%io)
    (list_prod leagues (versions self)).

Definition read_team_ratings (self : SoFIFA) : IO (list team_rating_row) :=
  (leagues <- read_leagues self ;;
   teams <- collect_team_ratings self leagues ;;
   lift (team_ratings_frame teams))%io.

(** *** [read_player_ratings] *)

Definition score_labels : list string :=
  ["Overall rating"; "Potential"; "Value"; "Wage"; "Crossing"; "Finishing";
   "Heading accuracy"; "Short passing"; "Volleys"; "Dribbling"; "Curve";
   "FK Accuracy"; "Long passing"; "Ball control"; "Acceleration";
   "Sprint speed"; "Agility"; "Reactions"; "Balance"; "Shot power";
   "Jumping"; "Stamina"; "Strength"; "Long shots"; "Aggression";
   "Interceptions"; "Positioning"; "Vision"; "Penalties"; "Composure";
   "Defensive awareness"; "Standing tackle"; "Sliding tackle"; "GK Diving";
   "GK Handling"; "GK Kicking"; "GK Positioning"; "GK Reflexes"]%string.

(** The three queries tried for a label, in the order of the source. *)
Definition score_xpaths (s : pystr) : list pystr :=
  [py "//p[.//text()[contains(.,'" ++ s ++ py "')]]/span/em";
   py "//div[contains(.,'" ++ s ++ py "')]/em";
   py "//li[not(self::script)][.//text()[contains(.,'" ++ s ++ py "')]]/em"].

(** [nodes[0].text.strip()]; the attribute access raises on a missing text. *)
Definition node_text_strip (node : Html.Element) : result pystr :=
  match Html.text node with
  | Some t => Ok (strip t)
  | None => Err (Builtin "AttributeError")
  end.

(** The loop over the queries of one label: the value it leaves, and the
    queries it has evaluated. *)
Fixpoint first_match (tree : Html.Element) (xpaths : list pystr)
    : result (option pystr) * list pystr :=
  match xpaths with
  | [] => (Ok None, [])
  | q :: rest =>
      match Html.xpath tree q with
      | node :: _ =>
          ((value <- node_text_strip node ;; Ok (Some value))%result, [q])
      | [] =>
          let (r, consulted) := first_match tree rest in (r, q :: consulted)
      end
  end.

Definition extract_score (tree : Html.Element) (s : pystr) : result (option pystr) :=
  fst (first_match tree (score_xpaths s)).

(** The loop over the labels. *)
Fixpoint extract_scores (tree : Html.Element) (labels : list string)
    (scores : scores_dict) : result scores_dict :=
  match labels with
  | [] => Ok scores
  | s :: labels' =>
      (value <- extract_score tree (py s) ;;
       extract_scores tree labels' (dict_set (py s) (of_option value) scores))%result
  end.

(** [scores[k] = remove_currency(scores[k])] *)
Definition normalize_currency (k : pystr) (scores : scores_dict) : result scores_dict :=
  (v <- dict_item k scores ;;
   r <- remove_currency v ;;
   Ok (dict_set k (VStr r) scores))%result.

(** [next((b for b in basic_info_p if b.strip()), None)] *)
Definition first_nonblank (l : list pystr) : option pystr :=
  find (fun b => match strip b with [] => false | _ => true end) l.

Definition basic_info_not_found (p : Z) : exn :=
  Raised "ValueError" (py "Basic information not found for player " ++ str_of_int p).

Definition basic_info_not_recognized (basic_info : pystr) (p : Z) : exn :=
  Raised "ValueError"
    (py "Basic information '" ++ basic_info ++ py "' not recognized for player "
     ++ str_of_int p).

(** The biographical line: age, birthdate, height and weight. *)
Definition parse_basic_info (p : Z) (basic_info_p : list pystr) (scores : scores_dict)
    : result scores_dict :=
  match first_nonblank basic_info_p with
  | None => Err (basic_info_not_found p)
  | Some basic_info =>
      match Re.match_ pat_basic_info basic_info with
      | None => Err (basic_info_not_recognized basic_info p)
      | Some m =>
          (age <- int_of_str (Re.group m 1) ;;
           born <- Datetime.strptime_b_d_Y (Re.group m 2) ;;
           height <- int_of_str (Re.group m 3) ;;
           weight <- int_of_str (Re.group m 4) ;;
           Ok (dict_set (py "weight") (VInt weight)
              (dict_set (py "height") (VInt height)
              (dict_set (py "birthdate") (VStr (Datetime.strftime_m_d born))
              (dict_set (py "age") (VInt age) scores)))))%result
      end
  end.

(** [s.split("-")[0]] *)
Fixpoint before_hyphen (s : pystr) : pystr :=
  match s with
  | [] => []
  | c :: r => if c =? 45 then [] else c :: before_hyphen r
  end.

Definition point_scores : list (string * string) :=
  [("pac", "PAC"); ("sho", "SHO"); ("pas", "PAS");
   ("dri", "DRI"); ("def", "DEF"); ("phy", "PHY")]%string.

Fixpoint extract_points (capa : pystr) (codes : list (string * string))
    (scores : scores_dict) : result scores_dict :=
  match codes with
  | [] => Ok scores
  | (k, code) :: codes' =>
      (v <- search_group1 (pat_point code) capa ;;
       extract_points capa codes' (dict_set (py k) (VStr v) scores))%result
  end.

(** The body of the loop over (version, player): the record of one
    profile page. *)
Definition player_scores (version : version_row) (p : Z) (tree : Html.Element)
    : result scores_dict :=
  (node_player_name <-
     first (Html.xpath tree (py "//div[contains(@class, 'profile')]/h1")) ;;
   let before_br := strip (Html.xpath_string node_player_name (py "string(./text()[1])")) in
   let after_br :=
     strip (Html.xpath_string node_player_name
              (py "string(./br/following-sibling::text()[1])")) in
   let scores :=
     [(py "player", VStr (match before_br with [] => after_br | _ => before_br end));
      (py "fifa_edition", of_option (fifa_edition version));
      (py "update", of_option (update version))] in
   simple_name <-
     first (Html.xpath_text tree (py "/html/body/header/section/h1/text()")) ;;
   let scores := dict_set (py "simple_name") (VStr simple_name) scores in
   let basic_info_p :=
     Html.xpath_text tree (py "//div[contains(@class, 'profile')]/p/text()") in
   scores <- parse_basic_info p basic_info_p scores ;;
   pos <- first (Html.xpath_text tree
                   (py "//div[contains(@class, 'profile')]/p/span/text()")) ;;
   let scores := dict_set (py "pos") (VStr pos) scores in
   avatar <- first (Html.xpath_text tree
                      (py "//div[contains(@class, 'profile')]/img/@data-src")) ;;
   let scores := dict_set (py "avatar") (VStr avatar) scores in
   name_line <- first (Html.xpath_text tree (py "//*[@id='head']/title/text()")) ;;
   let scores := dict_set (py "name") (VStr (strip (before_hyphen name_line))) scores in
   capa <- first (Html.xpath_text tree (py "//*[@id='body']/script[2]/text()")) ;;
   scores <- extract_points capa point_scores scores ;;
   scores <- extract_scores tree score_labels scores ;;
   scores <- normalize_currency (py "Wage") scores ;;
   scores <- normalize_currency (py "Value") scores ;;
   Ok scores)%result.

Definition player_url (p r : Z) : pystr :=
  SO_FIFA_API ++ py "/player/" ++ str_of_int p ++ py "/?r=" ++ str_of_int r
  ++ py "&set=true".

Definition player_file (p r : Z) : pystr :=
  py "player_" ++ str_of_int p ++ py "_" ++ str_of_int r ++ py ".html".

(** [index.unique()]: the values in order of first appearance. *)
Fixpoint unique (l : list Z) : list Z :=
  match l with
  | [] => []
  | x :: l' => x :: filter (fun y => negb (y =? x)) (unique l')
  end.

Definition collect_ratings (self : SoFIFA) (players : list Z) : IO (list scores_dict) :=
  for_each
    (fun '(version, p) =>
       let filepath := joinpath (data_dir self) (player_file p (version_id version)) in
       let url := player_url p (version_id version) in
       (doc <- get url filepath None ;;
        scores <- lift (player_scores version p (html doc)) ;;
        ret [scores])%io)
    (list_prod (versions self) players).

(** The integers a column of the records holds, in the order of the
    records. *)
Definition int_column (k : pystr) (records : list scores_dict) : list Z :=
  flat_map (fun row => match dict_get k row with
                       | Some (VInt n) => [n]
                       | _ => []
                       end) records.

Definition index_player (row : scores_dict) : pystr :=
  match dict_get (py "player") row with
  | Some (VStr s) => s
  | _ => []
  end.

(** Modelled from the spec: the column-name standardization
    [standardize_colnames] of the common helpers, not part of this file,
    renames every column; then
    [.set_index(["player"]).sort_index()]. *)
Definition ratings_frame (records : list scores_dict) : result (list scores_dict) :=
  let renamed :=
    map (map (fun kv => (standardize_colname env (fst kv), snd kv))) records in
  match renamed with
  | [] => Err (Builtin "KeyError")
  | _ =>
      if existsb (fun k => int_column_overflows (int_column k records))
           [py "age"; py "height"; py "weight"]
      then Err (Builtin "OverflowError") else
      if forallb (fun row => match dict_get (py "player") row with
                             | Some _ => true
                             | None => false
                             end) renamed
      then Ok (sort_index (fun a b => pystr_leb (index_player a) (index_player b)) renamed)
      else Err (Builtin "KeyError")
  end.

Definition select_players (self : SoFIFA) (team_filter : option team_arg)
    (players : option player_arg) : IO (list Z) :=
  match players with
  | None =>
      (df <- read_players self team_filter ;; ret (unique (map player_id df)))%io
  | Some (PlayerInt p) => ret [p]
  | Some (PlayerList l) => ret l
  end.

Definition read_player_ratings (self : SoFIFA) (team_filter : option team_arg)
    (players : option player_arg) : IO (list scores_dict) :=
  (ids <- select_players self team_filter players ;;
   records <- collect_ratings self ids ;;
   lift (ratings_frame records))%io.

End Reader.

(** ** The normalisation of amounts, as the specification words it *)

(** The magnitude letter read as a suffix: the last character of the input. *)
Definition ends_with (c : Z) (s : pystr) : bool :=
  match rev s with
  | x :: _ => x =? c
  | [] => false
  end.

Definition magnitude_of_suffix (s : pystr) : Z :=
  if ends_with 77 s then 1000000 else if ends_with 75 s then 1000 else 1.

(** The magnitude letter read as the source tests it: anywhere in the
    input, [M] before [K]. *)
Definition magnitude (s : pystr) : Z :=
  if contains_char 77 s then 1000000 else if contains_char 75 s then 1000 else 1.

(** Strip what is neither digit nor point, parse as floating point,
    multiply by the magnitude, truncate, print. *)
Definition normalize_amount (mag : pystr -> Z) (s : pystr) : result pystr :=
  let remainder := filter (fun c => Unicode.isdecimal c || (c =? 46)) s in
  (val <- float_of_str remainder ;;
   n <- Float.to_int (Float.mul val (mag s)) ;;
   Ok (str_of_int n))%result.

(** The integers binary64 holds: a 53-bit number times a power of two,
    below [2^1024]. *)
Definition representable (n : Z) : Prop :=
  exists m e, 0 <= m < 2 ^ 53 /\ 0 <= e /\ n = m * 2 ^ e /\ n < 2 ^ 1024.

Definition ascii_digits (s : pystr) : Prop := Forall (fun c => 48 <= c <= 57) s.

(** ** The library's specification of binary64, for comparison *)

Definition to_spec (x : Float.float) : spec_float :=
  match x with
  | Float.Infinity => S754_infinity false
  | Float.Finite (Zpos m) e => S754_finite false m e
  | Float.Finite _ _ => S754_zero false
  end.

(** An integer as a binary64 number. *)
Definition spec_of_int (k : Z) : spec_float := binary_normalize 53 1024 k 0 false.

(** Amounts [n / 10^d] and magnitudes [k] on which the two are compared;
    [n] and [10^d] are integers binary64 holds, so that the library's
    division is the correctly rounded value of the decimal. *)
Definition float_samples : list (Z * Z * Z) :=
  [(12, 1, 1000000); (500, 0, 1000); (0, 0, 1); (1001, 3, 1000);
   (1055, 1, 1000000); (29, 2, 1000); (435, 2, 1000000); (1, 1, 1000);
   (9007199254740991, 0, 1000000); (9007199254740991, 22, 1000);
   (123456789, 4, 1000000); (1, 22, 1000); (7, 3, 1); (999999, 6, 1000000);
   (4503599627370497, 1, 1000); (33, 2, 1000000); (11, 1, 1000000)].

(** ** The calls of the fetcher, for the statements about them *)

Definition index_request (dir : pystr) (max_age : option Z) : Request :=
  {| req_url := SO_FIFA_API;
     req_path := joinpath dir (py "index.html");
     req_max_age := Some max_age |}.

(** The request for the update page of the [i]-th edition. *)
Definition updates_request (dir : pystr) (max_age : option Z) (i : nat)
    (node : Html.Element) (link : pystr) : Request :=
  {| req_url := SO_FIFA_API ++ link;
     req_path := updates_path dir node;
     req_max_age := Some (if Nat.eqb i 0 then max_age else None) |}.

(** The editions the home page lists, as the fetcher serves it in [s]. *)
Definition editions (dir : pystr) (max_age : option Z) (s : Session) : list Html.Element :=
  match fst (get SO_FIFA_API (joinpath dir (py "index.html")) (Some max_age) s) with
  | Ok doc => Html.xpath (html doc) (py "//header/section/p/select[1]/option")
  | Err _ => []
  end.

(** The request for the profile page of a player in a version. *)
Definition profile_request (self : SoFIFA) (vp : version_row * Z) : Request :=
  {| req_url := player_url (snd vp) (version_id (fst vp));
     req_path := joinpath (data_dir self) (player_file (snd vp) (version_id (fst vp)));
     req_max_age := None |}.

Definition player_ids (p : player_arg) : list Z :=
  match p with PlayerInt n => [n] | PlayerList l => l end.

(** An exception of a given class. *)
Definition raises {A} (cls : string) (r : result A) : Prop :=
  exists e, r = Err e /\ exn_class e = cls.

(** ** Pages and sessions for the examples *)
Module Example.

Local Open Scope string_scope.

Definition assoc {V} (k : pystr) (l : list (pystr * V)) : option V :=
  option_map snd (find (fun e => pystr_eqb (fst e) k) l).

Definition answers {V} (l : list (pystr * list V)) (q : pystr) : list V :=
  match assoc q l with
  | Some r => r
  | None => []
  end.

(** An element given by its text, its attributes and the queries it
    answers; every other query finds nothing. *)
Definition element (t : option pystr) (attrs : list (pystr * pystr))
    (elems : list (pystr * list Html.Element)) (texts : list (pystr * list pystr))
    (strings : list (pystr * pystr)) : Html.Element :=
  Html.mkElement t (fun a => assoc a attrs) (answers elems) (answers texts)
    (fun q => match assoc q strings with Some s => s | None => [] end).

Definition leaf (t : string) (attrs : list (string * string)) : Html.Element :=
  element (Some (py t)) (map (fun a => (py (fst a), py (snd a))) attrs) [] [] [].

Definition page (elems : list (pystr * list Html.Element)) : Document :=
  {| json := None; html := element None [] elems [] [] |}.

Definition empty_page : Document := page [].

Definition site (pages : list (pystr * Document)) (url : pystr) : Document :=
  match assoc url pages with
  | Some d => d
  | None => empty_page
  end.

Definition session (pages : list (pystr * Document)) : Session :=
  {| web := site pages; cache := []; requests := []; downloads := []; warnings := [] |}.

Definition env : Env :=
  {| MAXAGE := Some 1;
     TEAMNAME_REPLACEMENTS := [(py "Man Utd", py "Manchester United")];
     add_standardized_team_name :=
       fun t => match t with TeamStr s => [s] | TeamList l => l end;
     _translate_league := fun frame => Ok frame;
     standardize_colname := fun c => c |}.

Definition dir : pystr := py "data".

(** The home page lists two editions, the most recent first. *)
Definition index_page : Document :=
  page [(py "//header/section/p/select[1]/option",
         [leaf "FC 24" [("value", "/?r=240050&set=true")];
          leaf "FIFA 23" [("value", "/?r=230054&set=true")]])].

Definition updates_page (options : list Html.Element) : Document :=
  page [(py "//header/section/p/select[2]/option", options)].

Definition updates_24 : Document :=
  updates_page [leaf "Sep 6, 2024" [("value", "/?r=240050&set=true")];
                leaf "Aug 30, 2024" [("value", "/?r=240049&set=true")]].

Definition updates_23 : Document :=
  updates_page [leaf "Sep 1, 2023" [("value", "/?r=230054&set=true")]].

Definition url_24 : pystr := py "https://sofifa.com/?r=240050&set=true".
Definition url_23 : pystr := py "https://sofifa.com/?r=230054&set=true".

Definition good_site : list (pystr * Document) :=
  [(SO_FIFA_API, index_page); (url_24, updates_24); (url_23, updates_23)].



(** Two update options with the same identifier. *)
Definition twice_site : list (pystr * Document) :=
  [(SO_FIFA_API, index_page);
   (url_24, updates_page [leaf "Sep 6, 2024" [("value", "/?r=240050&set=true")];
                          leaf "Sep 6, 2024" [("value", "/?r=240050&set=true")]]);
   (url_23, updates_23)].

(** A session that holds the update page of the older edition in its cache. *)
Definition cached_session : Session :=
  {| web := site good_site;
     cache := [(joinpath dir (py "updates_FIFA 23.html"),
                {| content := updates_23; age := 400 |})];
     requests := []; downloads := []; warnings := [] |}.

Definition version_24 : version_row :=
  {| version_id := 240050;
     fifa_edition := Some (py "FC 24");
     update := Some (py "Sep 6, 2024") |}.

Definition reader : SoFIFA :=
  {| data_dir := dir;
     _selected_leagues := [py "[England] Premier League"];
     versions := [version_24] |}.

Definition leagues_page : Document :=
  {| json := Some [[ {| id := 13; nationName := py "England";
                        value := py "Premier League" |} ]];
     html := element None [] [] [] [] |}.

Definition team_row_node (href name : string) : Html.Element :=
  element None [] [(py ".//td[2]//a", [leaf name [("href", href)]])] [] [].


(** The listing of the league names two teams, the higher identifier first. *)
Definition teams_page : Document :=
  page [(py "//table/tbody/tr",
         [team_row_node "/team/5/chelsea/" "Chelsea";
          team_row_node "/team/3/arsenal/" "Arsenal"])].

Definition player_link (href name : string) : Html.Element :=
  element None [(py "href", py href); (py "data-tippy-content", py name)] [] [] [].

Definition squad_page (links : list Html.Element) : Document :=
  page [(py "//article/table",
         [element None []
            [(py ".//td[2]/a[contains(@href,'/player/')]", links)] [] []])].

Definition league_site : list (pystr * Document) :=
  [(py "https://sofifa.com/api/league", leagues_page);
   (py "https://sofifa.com/teams?lg=13&r=240050&set=true", teams_page);
   (team_ratings_url 13 240050, teams_page);
   (py "https://sofifa.com/team/3/?r=240050&set=true",
    squad_page [player_link "/player/231747/bukayo-saka/" "Bukayo Saka"]);
   (py "https://sofifa.com/team/5/?r=240050&set=true",
    squad_page [player_link "/player/238794/cole-palmer/" "Cole Palmer"])].

(** A profile page.  [absent] lists the labels no query finds; the value
    of every other label sits where the first, the second or the third
    query looks, by [place]. *)
Definition em (t : pystr) : Html.Element := element (Some t) [] [] [] [].

Definition label_value (s : string) : pystr :=
  if String.eqb s "Value" then euro :: py "105.5M"
  else if String.eqb s "Wage" then euro :: py "250K"
  else py " 85 ".

Definition score_nodes (absent : list string) (place : nat) : list (pystr * list Html.Element) :=
  flat_map
    (fun s =>
       if existsb (String.eqb s) absent then []
       else [(nth place (score_xpaths (py s)) [], [em (label_value s); em (py "1")])])
    score_labels.

Definition profile (basic_info : string) (absent : list string) (place : nat) : Html.Element :=
  element None []
    ((py "//div[contains(@class, 'profile')]/h1",
      [element None [] [] []
         [(py "string(./text()[1])", py "B. Saka ");
          (py "string(./br/following-sibling::text()[1])", py "Bukayo Saka")]])
     :: score_nodes absent place)
    [(py "/html/body/header/section/h1/text()", [py "Bukayo Saka"]);
     (py "//div[contains(@class, 'profile')]/p/text()", [py " "; py basic_info]);
     (py "//div[contains(@class, 'profile')]/p/span/text()", [py "RW"]);
     (py "//div[contains(@class, 'profile')]/img/@data-src",
      [py "https://cdn.sofifa.net/players/231/747/24_120.png"]);
     (py "//*[@id='head']/title/text()", [py "Bukayo Saka FC 24 - SoFIFA"]);
     (py "//*[@id='body']/script[2]/text()",
      [py "POINT_PAC=85,POINT_SHO=82,POINT_PAS=81,POINT_DRI=88,POINT_DEF=60,POINT_PHY=70"])]
    [].

Definition basic_info_line : string := "23y.o. (Feb 5, 2001) 180cm / 75kg".

(** A line that spells the age out. *)
Definition unknown_basic_info : string := "23 years (Feb 5, 2001) 180cm / 75kg".

Definition profile_site : list (pystr * Document) :=
  [(py "https://sofifa.com/player/231747/?r=240050&set=true",
    {| json := None; html := profile basic_info_line [] 0 |})].

End Example.

(** ** What the properties speak of *)

(** The characters [re.sub] leaves in an amount: decimal digits and the
    point. *)
Definition amount_char (c : Z) : bool := Unicode.isdecimal c || (c =? 46).

(** The keys of a record of [read_player_ratings], in the order in which
    the source assigns them. *)
Definition player_columns : list pystr :=
  map py (["player"; "fifa_edition"; "update"; "simple_name"; "age"; "birthdate";
           "height"; "weight"; "pos"; "avatar"; "name";
           "pac"; "sho"; "pas"; "dri"; "def"; "phy"]%string ++ score_labels).

(** The keys of a dict after an assignment to [k]. *)
Definition add_key (k : pystr) (keys : list pystr) : list pystr :=
  if existsb (fun k' => pystr_eqb k' k) keys then keys else keys ++ [k].

(** The call of the fetcher for the directory of leagues. *)
Definition leagues_request (self : SoFIFA) : Request :=
  {| req_url := SO_FIFA_API ++ py "/api/league";
     req_path := joinpath (data_dir self) (py "leagues.json");
     req_max_age := None |}.

(** A row is within the selection of a reader when its league is one of
    the selected leagues and its edition and update are those of one of the
    selected versions. *)
Definition of_selection (self : SoFIFA) (lg : pystr) (ed up : option pystr) : Prop :=
  In lg (_selected_leagues self) /\
  exists v, In v (versions self) /\ ed = fifa_edition v /\ up = update v.

(** The cache of [s'] answers every path the cache of [s] answers, with
    the same document. *)
Definition extends (s s' : Session) : Prop :=
  forall q e, cache_lookup q (cache s) = Some e -> cache_lookup q (cache s') = Some e.

(** Two sessions that differ in the warnings at most. *)
Definition agree (s t : Session) : Prop :=
  web s = web t /\ cache s = cache t /\ requests s = requests t /\
  downloads s = downloads t.

(** A computation that leaves the site, the cache, the downloads and the
    calls of the fetcher as they are. *)
Definition quiet {A} (m : IO A) : Prop := forall s, agree (snd (m s)) s.

(** The fetches of a list of calls, one after the other: the documents
    they return, and the session they leave. *)
Fixpoint fetch_all (rqs : list Request) (s : Session) : list Document * Session :=
  match rqs with
  | [] => ([], s)
  | rq :: rqs' =>
      match get (req_url rq) (req_path rq) (req_max_age rq) s with
      | (Ok d, s1) => let (ds, s2) := fetch_all rqs' s1 in (d :: ds, s2)
      | (Err _, s1) => ([], s1)
      end
  end.

(** One turn of a loop that fetches the page of [x] and hands it on. *)
Definition fetch_then {A B} (rq : A -> Request) (p : A -> Document -> IO B) (x : A)
    : IO B :=
  (doc <- get (req_url (rq x)) (req_path (rq x)) (req_max_age (rq x)) ;; p x doc)%io.

(** Whether the fetcher answers a call from the cache. *)
Definition served (rq : Request) (s : Session) : bool :=
  match cache_lookup (req_path rq) (cache s) with
  | Some e => fresh (req_max_age rq) (age e)
  | None => false
  end.

(** The call for the update page of an edition of the home page; an
    option without a link has none, and the loop stops there. *)
Definition edition_link (node : Html.Element) : pystr :=
  match Html.get node (py "value") with Some v => v | None => [] end.

Definition edition_request (dir : pystr) (max_age : option Z)
    (inode : nat * Html.Element) : Request :=
  updates_request dir max_age (fst inode) (snd inode) (edition_link (snd inode)).

(** The update options of a page. *)
Definition update_options (page : Document) : list Html.Element :=
  Html.xpath (html page) (py "//header/section/p/select[2]/option").

(** The rows of a listing page and of a roster page. *)
Definition listing_rows (page : Document) : list Html.Element :=
  Html.xpath (html page) (py "//table/tbody/tr").

(** The cache file of the listing page of a league in a version, which
    [read_teams] and [read_team_ratings] both use. *)
Definition teams_path (self : SoFIFA) (lv : league_row * version_row) : Path :=
  joinpath (data_dir self) (teams_file (league_id (fst lv)) (version_id (snd lv))).

(** What [read_leagues] makes of the document the fetcher hands it. *)
Definition leagues_of_document (env : Env) (self : SoFIFA) (doc : Document)
    : result (list league_row) :=
  (response <- json_load doc ;;
   frame <- _translate_league env (flat_map (map league_of_child) response) ;;
   loc pystr_eqb league (_selected_leagues self)
     (sort_index (fun a b => pystr_leb (league a) (league b)) frame))%result.

(** The record of a profile page before the scores are read: the names,
    the version, the biographical line, the position and the avatar. *)
Definition profile_head (version : version_row) (player simple_name : pystr)
    (age mo d height weight : Z) (pos avatar name : pystr) : scores_dict :=
  dict_set (py "name") (VStr name)
    (dict_set (py "avatar") (VStr avatar)
       (dict_set (py "pos") (VStr pos)
          (dict_set (py "weight") (VInt weight)
             (dict_set (py "height") (VInt height)
                (dict_set (py "birthdate")
                   (VStr (Datetime.two_digits mo ++ [45] ++ Datetime.two_digits d))
                   (dict_set (py "age") (VInt age)
                      (dict_set (py "simple_name") (VStr simple_name)
                         [(py "player", VStr player);
                          (py "fifa_edition", of_option (fifa_edition version));
                          (py "update", of_option (update version))]))))))).

(** The calls of the fetcher for the listing page of a league in a
    version, by [read_teams] and by [read_team_ratings], and for the roster
    page of a team in a version. *)
Definition teams_request (self : SoFIFA) (lv : league_row * version_row) : Request :=
  {| req_url := teams_url (league_id (fst lv)) (version_id (snd lv));
     req_path := teams_path self lv;
     req_max_age := None |}.

Definition team_ratings_request (self : SoFIFA) (lv : league_row * version_row) : Request :=
  {| req_url := team_ratings_url (league_id (fst lv)) (version_id (snd lv));
     req_path := teams_path self lv;
     req_max_age := None |}.

Definition roster_request (self : SoFIFA) (vt : version_row * team_row) : Request :=
  {| req_url := players_url (team_id (snd vt)) (version_id (fst vt));
     req_path := joinpath (data_dir self)
                   (players_file (team_id (snd vt)) (version_id (fst vt)));
     req_max_age := None |}.

(** The editions of the home page, each with its number and with its
    update page as [read_versions] fetches it. *)
Definition editions_pages (dir : pystr) (max_age : option Z) (s : Session)
    : list ((nat * Html.Element) * Document) :=
  combine (enumerate (editions dir max_age s))
    (tl (fst (fetch_all (index_request dir max_age
                         :: map (edition_request dir max_age)
                              (enumerate (editions dir max_age s))) s))).

(** More digits than [int] converts. *)
Definition too_many_digits (s : pystr) : bool :=
  int_max_str_digits <? Z.of_nat (List.length s).

(** * Properties *)

(** ** Loops that fetch one page in each turn *)

Lemma agree_refl s : agree s s.
Proof. unfold agree. auto. Qed.

Lemma agree_sym s t : agree s t -> agree t s.
Proof. unfold agree. intros (A & B & C & D). auto. Qed.

Lemma agree_trans s t u : agree s t -> agree t u -> agree s u.
Proof.
  unfold agree. intros (A & B & C & D) (A' & B' & C' & D').
  repeat split; congruence.
Qed.

(** The fetcher does not look at the warnings. *)
Lemma get_agree url p ma s t :
  agree s t ->
  fst (get url p ma s) = fst (get url p ma t) /\
  agree (snd (get url p ma s)) (snd (get url p ma t)).
Proof.
  intros (W & C & R & D). unfold get. rewrite W, C, R, D.
  destruct (match cache_lookup p (cache t) with Some _ => _ | None => _ end);
    cbn [fst snd]; (split; [reflexivity|]); unfold agree; cbn; auto.
Qed.

Lemma get_total url p ma s : exists d, fst (get url p ma s) = Ok d.
Proof.
  unfold get. destruct (match cache_lookup p (cache s) with Some _ => _ | None => _ end);
    eexists; reflexivity.
Qed.

Lemma fetch_all_cons rq rqs s :
  fetch_all (rq :: rqs) s
  = match fst (get (req_url rq) (req_path rq) (req_max_age rq) s) with
    | Ok d =>
        (d :: fst (fetch_all rqs (snd (get (req_url rq) (req_path rq) (req_max_age rq) s))),
         snd (fetch_all rqs (snd (get (req_url rq) (req_path rq) (req_max_age rq) s))))
    | Err _ => ([], snd (get (req_url rq) (req_path rq) (req_max_age rq) s))
    end.
Proof.
  cbn [fetch_all]. destruct (get _ _ _ s) as [[d|e] s1]; cbn [fst snd]; [|reflexivity].
  destruct (fetch_all rqs s1); reflexivity.
Qed.

Lemma fetch_all_length rqs : forall s, List.length (fst (fetch_all rqs s)) = List.length rqs.
Proof.
  induction rqs as [|rq rqs IH]; intros s; [reflexivity|].
  rewrite fetch_all_cons.
  destruct (get_total (req_url rq) (req_path rq) (req_max_age rq) s) as (d & ->).
  cbn [fst List.length]. now rewrite IH.
Qed.

Lemma fetch_all_requests rqs : forall s,
  requests (snd (fetch_all rqs s)) = requests s ++ rqs.
Proof.
  induction rqs as [|rq rqs IH]; intros s; [cbn; now rewrite app_nil_r|].
  rewrite fetch_all_cons.
  destruct (get_total (req_url rq) (req_path rq) (req_max_age rq) s) as (d & E).
  rewrite E. cbn [snd]. rewrite IH.
  assert (R : requests (snd (get (req_url rq) (req_path rq) (req_max_age rq) s))
              = requests s ++ [rq]).
  { unfold get. destruct rq as [u p m]; cbn [req_url req_path req_max_age].
    destruct (match cache_lookup p (cache s) with Some _ => _ | None => _ end);
      reflexivity. }
  rewrite R, <- app_assoc. reflexivity.
Qed.

Lemma for_each_ext {A B} (b1 b2 : A -> IO (list B)) l : forall s,
  (forall x s0, In x l -> b1 x s0 = b2 x s0) ->
  for_each b1 l s = for_each b2 l s.
Proof.
  induction l as [|x l IH]; intros s H; [reflexivity|].
  cbn [for_each]. unfold bindIO. rewrite (H x s (or_introl eq_refl)).
  destruct (b2 x s) as [[ys|e] s1]; [|reflexivity].
  rewrite (IH s1); [reflexivity|]. intros y s0 I. apply H. now right.
Qed.

(** A loop whose turns fetch a page and then leave the session alone: the
    pages are those of the fetches made one after the other, and the
    session is theirs up to the warnings. *)
Lemma fetch_loop {A B} (rq : A -> Request) (p : A -> Document -> IO (list B)) l :
  (forall x d, quiet (p x d)) ->
  forall s t ys s',
    agree s t ->
    for_each (fetch_then rq p) l s = (Ok ys, s') ->
    agree s' (snd (fetch_all (map rq l) t)) /\
    exists chunks,
      ys = List.concat chunks /\
      Forall2 (fun xd c => exists sa sb, p (fst xd) (snd xd) sa = (Ok c, sb))
              (combine l (fst (fetch_all (map rq l) t))) chunks.
Proof.
  intros Q. induction l as [|x l IH]; intros s t ys s' A0 H.
  - cbn [for_each] in H. unfold ret in H.
    assert (ys = []) by congruence. assert (s' = s) by congruence. subst.
    split; [exact A0|]. exists []. split; [reflexivity|constructor].
  - cbn [for_each] in H. unfold bindIO at 1 in H.
    destruct (fetch_then rq p x s) as [[c|] s1] eqn:Bx; [|discriminate].
    unfold bindIO in H.
    destruct (for_each (fetch_then rq p) l s1) as [[zs|] s2] eqn:Fl; [|discriminate].
    unfold ret in H. assert (ys = c ++ zs) by congruence.
    assert (s' = s2) by congruence. subst ys s'. clear H.
    unfold fetch_then, bindIO in Bx.
    destruct (get_agree (req_url (rq x)) (req_path (rq x)) (req_max_age (rq x)) s t A0)
      as [E1 E2].
    destruct (get (req_url (rq x)) (req_path (rq x)) (req_max_age (rq x)) s)
      as [[d|] sa] eqn:G; [|discriminate].
    cbn [fst snd] in E1, E2.
    assert (A1 : agree s1 (snd (get (req_url (rq x)) (req_path (rq x))
                                  (req_max_age (rq x)) t))).
    { eapply agree_trans; [|exact E2]. pose proof (Q x d sa) as P.
      rewrite Bx in P. exact P. }
    destruct (IH _ _ _ _ A1 Fl) as (A2 & chunks & -> & F2).
    cbn [map]. rewrite fetch_all_cons, <- E1. cbn [fst snd combine].
    split; [exact A2|]. exists (c :: chunks). split; [reflexivity|].
    constructor; [|exact F2]. cbn [fst snd]. eauto.
Qed.

Lemma agree_eq s t : agree s t -> warnings s = warnings t -> s = t.
Proof.
  intros (W & C & R & D) Wa. destruct s, t; cbn in *. congruence.
Qed.

Lemma get_warnings url p ma s : warnings (snd (get url p ma s)) = warnings s.
Proof.
  unfold get. destruct (match cache_lookup p (cache s) with Some _ => _ | None => _ end);
    reflexivity.
Qed.

Lemma fetch_all_warnings rqs : forall s, warnings (snd (fetch_all rqs s)) = warnings s.
Proof.
  induction rqs as [|rq rqs IH]; intros s; [reflexivity|].
  rewrite fetch_all_cons.
  destruct (get_total (req_url rq) (req_path rq) (req_max_age rq) s) as (d & ->).
  cbn [snd]. rewrite IH. apply get_warnings.
Qed.

Lemma quiet_lift_result {A} (r : result A) : quiet (lift r).
Proof. intros s. apply agree_refl. Qed.

(** The same for turns that parse the page without touching the session:
    the session is exactly that of the fetches, and the records are the
    parses of the pages, in the order of the turns. *)
Lemma fetch_loop_pure {A B} (rq : A -> Request) (f : A -> Document -> result (list B)) l :
  forall s ys s',
    for_each (fetch_then rq (fun x d => lift (f x d))) l s = (Ok ys, s') ->
    s' = snd (fetch_all (map rq l) s) /\
    exists chunks,
      ys = List.concat chunks /\
      Forall2 (fun xd c => f (fst xd) (snd xd) = Ok c)
              (combine l (fst (fetch_all (map rq l) s))) chunks.
Proof.
  induction l as [|x l IH]; intros s ys s' H.
  - cbn [for_each] in H. unfold ret in H.
    assert (ys = []) by congruence. assert (s' = s) by congruence. subst.
    split; [reflexivity|]. exists []. split; [reflexivity|constructor].
  - cbn [for_each] in H. unfold bindIO at 1 in H.
    destruct (fetch_then rq _ x s) as [[c|] s1] eqn:Bx; [|discriminate].
    unfold bindIO in H.
    destruct (for_each _ l s1) as [[zs|] s2] eqn:Fl; [|discriminate].
    unfold ret in H. assert (ys = c ++ zs) by congruence.
    assert (s' = s2) by congruence. subst ys s'. clear H.
    unfold fetch_then, bindIO, lift in Bx.
    destruct (get (req_url (rq x)) (req_path (rq x)) (req_max_age (rq x)) s)
      as [[d|] sa] eqn:G; [|discriminate].
    destruct (f x d) as [c'|] eqn:Fx; [|discriminate].
    assert (c' = c) by congruence. assert (sa = s1) by congruence. subst c' sa.
    destruct (IH _ _ _ Fl) as (-> & chunks & -> & F2).
    cbn [map]. rewrite fetch_all_cons, G. cbn [fst snd combine].
    split; [reflexivity|]. exists (c :: chunks). split; [reflexivity|].
    constructor; [exact Fx|exact F2].
Qed.

Lemma quiet_ret {A} (a : A) : quiet (ret a).
Proof. intros s. apply agree_refl. Qed.

Lemma quiet_lift {A} (r : result A) : quiet (lift r).
Proof. intros s. apply agree_refl. Qed.

Lemma quiet_bind {A B} (m : IO A) (f : A -> IO B) :
  quiet m -> (forall a, quiet (f a)) -> quiet (bindIO m f).
Proof.
  intros Hm Hf s. unfold bindIO. specialize (Hm s).
  destruct (m s) as [[a|e] s1]; cbn [snd] in *; [|exact Hm].
  eapply agree_trans; [apply Hf|exact Hm].
Qed.

Lemma quiet_map_io {A B} (f : A -> IO B) l : (forall x, quiet (f x)) -> quiet (map_io f l).
Proof.
  intros Hf. induction l as [|x l IH]; cbn [map_io]; [apply quiet_ret|].
  apply quiet_bind; [apply Hf|]. intros y.
  apply quiet_bind; [exact IH|]. intros ys. apply quiet_ret.
Qed.

Lemma quiet_parse_rating_row lkey version node : quiet (parse_rating_row lkey version node).
Proof.
  unfold parse_rating_row. apply quiet_bind; [apply quiet_lift|]. intros link.
  apply quiet_bind; [|intros; apply quiet_ret].
  apply quiet_map_io. intros [key desc]. unfold rating_cell.
  apply quiet_bind; [|intros; apply quiet_ret].
  unfold safe_xpath_text. destruct (Html.xpath_text node _); [|apply quiet_ret].
  apply quiet_bind; [|intros; apply quiet_ret]. intros s. unfold agree. cbn. auto.
Qed.

(** The loops of the reader, as loops that fetch. *)
Lemma collect_teams_fetch self leagues s :
  collect_teams self leagues s
  = for_each (fetch_then (teams_request self)
                (fun lv doc => lift (map_result (parse_team_row (league (fst lv)) (snd lv))
                                       (listing_rows doc))))
      (list_prod leagues (versions self)) s.
Proof. unfold collect_teams. apply for_each_ext. intros [lg v] s0 _. reflexivity. Qed.

Lemma collect_players_fetch self iterator s :
  collect_players self iterator s
  = for_each (fetch_then (roster_request self)
                (fun vt doc => lift (parse_squad (fst vt) (snd vt) (html doc))))
      (list_prod (versions self) iterator) s.
Proof. unfold collect_players. apply for_each_ext. intros [v t] s0 _. reflexivity. Qed.

Lemma collect_team_ratings_fetch self leagues s :
  collect_team_ratings self leagues s
  = for_each (fetch_then (team_ratings_request self)
                (fun lv doc => map_io (parse_rating_row (league (fst lv)) (snd lv))
                                 (listing_rows doc)))
      (list_prod leagues (versions self)) s.
Proof. unfold collect_team_ratings. apply for_each_ext. intros [lg v] s0 _. reflexivity. Qed.

Lemma Forall2_combine_length {A B C} (P : A * B -> C -> Prop) (l : list A) (d : list B) cs :
  List.length d = List.length l -> Forall2 P (combine l d) cs ->
  List.length cs = List.length l.
Proof.
  intros L F. apply Forall2_length in F. rewrite <- F, length_combine, L.
  apply Nat.min_id.
Qed.

Module FloatFacts.
Import Float.

Lemma scaled_spec p q e :
  scaled p q e = (p * 2 ^ Z.max 0 (- e), q * 2 ^ Z.max 0 e).
Proof.
  unfold scaled. destruct (Z.leb_spec 0 e).
  - rewrite Z.max_l by lia. rewrite Z.max_r by lia. simpl. f_equal; lia.
  - rewrite Z.max_r by lia. rewrite Z.max_l by lia. simpl. f_equal; lia.
Qed.

Lemma pow2_pos a : 0 < 2 ^ Z.max 0 a.
Proof. apply Z.pow_pos_nonneg; lia. Qed.

(** exponents at least [log2 p - log2 q - 52] leave a quotient below [2^53] *)
Lemma quotient_lt p q e :
  0 < p -> 0 < q -> Z.log2 p - Z.log2 q - 52 <= e -> quotient p q e < 2 ^ 53.
Proof.
  intros Hp Hq He. unfold quotient. rewrite scaled_spec. simpl fst. simpl snd.
  pose proof (pow2_pos e) as Ha. pose proof (pow2_pos (- e)) as Hb.
  apply Z.div_lt_upper_bound; [nia|].
  rewrite (Z.mul_comm (q * _) (2 ^ 53)).
  pose proof (Z.log2_spec p Hp) as [_ Hp2].
  pose proof (Z.log2_spec q Hq) as [Hq1 _].
  pose proof (Z.log2_nonneg p). pose proof (Z.log2_nonneg q).
  (* p * 2^b < 2^(lp+1+b) <= 2^(53+lq+a) <= 2^53 * q * 2^a *)
  apply Z.lt_le_trans with (2 ^ (Z.succ (Z.log2 p)) * 2 ^ Z.max 0 (- e)).
  { apply Z.mul_lt_mono_pos_r; lia. }
  apply Z.le_trans with (2 ^ 53 * (2 ^ Z.log2 q * 2 ^ Z.max 0 e)).
  2:{ apply Z.mul_le_mono_nonneg_l; [lia|]. apply Z.mul_le_mono_nonneg_r; lia. }
  rewrite <- !Z.pow_add_r by lia.
  apply Z.pow_le_mono_r; lia.
Qed.

Lemma scaled_den_pos p q e : 0 < q -> 0 < snd (scaled p q e).
Proof.
  intros. rewrite scaled_spec. simpl. pose proof (pow2_pos e). nia.
Qed.

Lemma scaled_num_nonneg p q e : 0 <= p -> 0 <= fst (scaled p q e).
Proof.
  intros. rewrite scaled_spec. simpl. pose proof (pow2_pos (- e)). nia.
Qed.

(** one exponent less doubles the fraction *)
Lemma scaled_pred p q e :
  fst (scaled p q (e - 1)) * snd (scaled p q e)
  = 2 * fst (scaled p q e) * snd (scaled p q (e - 1)).
Proof.
  rewrite !scaled_spec. simpl fst. simpl snd.
  destruct (Z_le_gt_dec 1 e).
  - rewrite !(Z.max_l 0 (- _)) by lia. rewrite !(Z.max_r 0 e), (Z.max_r 0 (e - 1)) by lia.
    replace e with (1 + (e - 1)) at 1 by lia.
    rewrite Z.pow_add_r by lia. change (2 ^ 1) with 2. change (2 ^ 0) with 1. ring.
  - rewrite (Z.max_l 0 e), (Z.max_l 0 (e - 1)) by lia.
    rewrite (Z.max_r 0 (- e)), (Z.max_r 0 (- (e - 1))) by lia.
    replace (- (e - 1)) with (1 + - e) by lia.
    rewrite Z.pow_add_r by lia. change (2 ^ 1) with 2. change (2 ^ 0) with 1. ring.
Qed.

Lemma quotient_pred_lt p q e :
  0 <= p -> 0 < q -> quotient p q e < 2 ^ 52 -> quotient p q (e - 1) < 2 ^ 53.
Proof.
  intros Hp Hq H. unfold quotient in *.
  pose proof (scaled_pred p q e) as E.
  pose proof (scaled_den_pos p q e Hq) as D.
  pose proof (scaled_den_pos p q (e - 1) Hq) as D'.
  pose proof (scaled_num_nonneg p q e Hp) as N.
  set (num := fst (scaled p q e)) in *. set (den := snd (scaled p q e)) in *.
  set (num' := fst (scaled p q (e - 1))) in *. set (den' := snd (scaled p q (e - 1))) in *.
  apply Z.div_lt_upper_bound; [lia|].
  pose proof (Z.mul_succ_div_gt num den D) as G.
  assert (num < den * 2 ^ 52) by nia.
  change (2 ^ 53) with (2 * 2 ^ 52).
  apply Z.mul_lt_mono_pos_r with den; [lia|]. nia.
Qed.

Lemma exponent_quotient_lt p q :
  0 < p -> 0 < q -> quotient p q (exponent p q) < 2 ^ 53.
Proof.
  intros Hp Hq. unfold exponent.
  set (e0 := Z.log2 p - Z.log2 q - 52).
  destruct (Z.ltb_spec (quotient p q e0) (2 ^ 52)) as [L|L].
  - destruct (Z.max_spec (e0 - 1) (- 1074)) as [[? ->]|[? ->]].
    + apply quotient_lt; auto. fold e0. lia.
    + apply quotient_pred_lt; auto. lia.
  - apply quotient_lt; auto. fold e0. lia.
Qed.

Lemma exponent_ge p q : - 1074 <= exponent p q.
Proof. unfold exponent. lia. Qed.

Lemma scaled_nonneg p q e : 0 <= e -> scaled p q e = (p, q * 2 ^ e).
Proof. intros. unfold scaled. destruct (Z.leb_spec 0 e); [reflexivity|lia]. Qed.

Lemma scaled_neg p q e : e < 0 -> scaled p q e = (p * 2 ^ (- e), q).
Proof. intros. unfold scaled. destruct (Z.leb_spec 0 e); [lia|reflexivity]. Qed.

Lemma round_cases p q :
  0 <= p -> 0 < q ->
  round p q = Infinity \/
  exists m e, round p q = Finite m e /\ 0 <= m < 2 ^ 53 /\ - 1074 <= e <= 971.
Proof.
  intros Hp Hq. unfold round.
  destruct (Z.eqb_spec p 0) as [->|Hp0].
  { right. exists 0, 0. split; [reflexivity|]. lia. }
  pose proof (exponent_quotient_lt p q ltac:(lia) Hq) as Hm.
  pose proof (exponent_ge p q) as He.
  pose proof (scaled_den_pos p q (exponent p q) Hq) as Hd.
  pose proof (scaled_num_nonneg p q (exponent p q) Hp) as Hn.
  unfold quotient in Hm.
  destruct (scaled p q (exponent p q)) as [num den]. cbn [fst snd] in Hm, Hd, Hn.
  set (e := exponent p q) in *.
  assert (0 <= num / den) by (apply Z.div_pos; lia).
  set (m' := if 2 * (num mod den) <? den then num / den
             else if den <? 2 * (num mod den) then num / den + 1
             else if Z.even (num / den) then num / den else num / den + 1).
  assert (0 <= m' <= 2 ^ 53).
  { unfold m'. destruct (_ <? _); [lia|]. destruct (_ <? _); [lia|].
    destruct (Z.even _); lia. }
  destruct (Z.eqb_spec m' (2 ^ 53)).
  - destruct (Z.ltb_spec 971 (e + 1)); [now left|].
    right. exists (2 ^ 52), (e + 1). split; [reflexivity|]. lia.
  - destruct (Z.ltb_spec 971 e); [now left|].
    right. exists m', e. split; [reflexivity|]. lia.
Qed.

Lemma to_int_representable m e :
  0 <= m < 2 ^ 53 -> - 1074 <= e <= 971 ->
  0 <= quotient m 1 (- e) /\ representable (quotient m 1 (- e)).
Proof.
  intros Hm He. unfold quotient.
  destruct (Z_le_gt_dec e 0) as [Le|Gt].
  - rewrite scaled_nonneg by lia. cbn [fst snd].
    assert (P : 0 < 1 * 2 ^ (- e)) by (apply Z.mul_pos_pos; [lia|apply Z.pow_pos_nonneg; lia]).
    assert (0 <= m / (1 * 2 ^ (- e))) by (apply Z.div_pos; lia).
    assert (m / (1 * 2 ^ (- e)) <= m) by (apply Z.div_le_upper_bound; nia).
    split; [lia|].
    exists (m / (1 * 2 ^ (- e))), 0. repeat split; lia.
  - rewrite scaled_neg by lia. cbn [fst snd]. rewrite Z.div_1_r, Z.opp_involutive.
    assert (0 < 2 ^ e) by (apply Z.pow_pos_nonneg; lia).
    split; [nia|].
    exists m, e. repeat split; try lia.
    apply Z.lt_le_trans with (2 ^ 53 * 2 ^ e); [nia|].
    rewrite <- Z.pow_add_r by lia. apply Z.pow_le_mono_r; lia.
Qed.

Lemma exponent_exact n :
  0 < n -> exponent n 1 = Z.log2 n - 52.
Proof.
  intros Hn. unfold exponent. change (Z.log2 1) with 0. rewrite Z.sub_0_r.
  pose proof (Z.log2_spec n Hn) as [L U]. pose proof (Z.log2_nonneg n) as L0.
  set (e0 := Z.log2 n - 52) in *.
  assert (Q : 2 ^ 52 <= quotient n 1 e0).
  { unfold quotient. destruct (Z_le_gt_dec 0 e0).
    - rewrite scaled_nonneg by lia. cbn [fst snd].
      assert (0 < 2 ^ e0) by (apply Z.pow_pos_nonneg; lia).
      apply Z.div_le_lower_bound; [lia|].
      replace (1 * 2 ^ e0 * 2 ^ 52) with (2 ^ Z.log2 n); [lia|].
      unfold e0. rewrite Z.mul_1_l, <- Z.pow_add_r by lia. f_equal. lia.
    - rewrite scaled_neg by lia. cbn [fst snd]. rewrite Z.div_1_r.
      assert (0 < 2 ^ (- e0)) by (apply Z.pow_pos_nonneg; lia).
      apply Z.le_trans with (2 ^ Z.log2 n * 2 ^ (- e0)); [|nia].
      rewrite <- Z.pow_add_r by lia. apply Z.pow_le_mono_r; lia. }
  destruct (Z.ltb_spec (quotient n 1 e0) (2 ^ 52)); lia.
Qed.

Lemma round_exact n : representable n -> Float.to_int (round n 1) = Ok n.
Proof.
  intros (m & e & Hm & He & En & Hn).
  unfold round. destruct (Z.eqb_spec n 0) as [->|N0]; [reflexivity|].
  assert (P2 : 0 < 2 ^ e) by (apply Z.pow_pos_nonneg; lia).
  assert (Mpos : 0 < m) by nia.
  assert (Npos : 0 < n) by nia.
  pose proof (exponent_quotient_lt n 1 Npos ltac:(lia)) as Q.
  rewrite exponent_exact in * by lia.
  assert (Ln : Z.log2 n = e + Z.log2 m) by (subst n; apply Z.log2_mul_pow2; lia).
  assert (Lm : Z.log2 m < 53) by (apply Z.log2_lt_pow2; lia).
  pose proof (Z.log2_nonneg m) as Lm0.
  assert (Le : Z.log2 n < 1024) by (apply Z.log2_lt_pow2; lia).
  set (e0 := Z.log2 n - 52) in *. unfold quotient in Q.
  destruct (Z_le_gt_dec 0 e0) as [G|G].
  - rewrite scaled_nonneg in * by lia. cbn [fst snd] in Q.
    assert (P0 : 0 < 2 ^ e0) by (apply Z.pow_pos_nonneg; lia).
    assert (D : n = (m * 2 ^ (e - e0)) * (1 * 2 ^ e0)).
    { rewrite En, Z.mul_1_l, <- Z.mul_assoc, <- Z.pow_add_r by lia. do 2 f_equal. lia. }
    assert (R : n mod (1 * 2 ^ e0) = 0) by (rewrite D at 1; apply Z.mod_mul; lia).
    rewrite R.
    destruct (Z.ltb_spec (2 * 0) (1 * 2 ^ e0)); [|lia].
    destruct (Z.eqb_spec (n / (1 * 2 ^ e0)) (2 ^ 53)); [lia|].
    destruct (Z.ltb_spec 971 e0); [lia|].
    unfold to_int. f_equal. unfold quotient.
    assert (Mq : n = n / (1 * 2 ^ e0) * 2 ^ e0).
    { rewrite D at 2. rewrite Z.div_mul by lia. rewrite D at 1. ring. }
    set (mq := n / (1 * 2 ^ e0)) in *.
    destruct (Z.eq_dec e0 0) as [Z0|Z0].
    + rewrite Z0 in *. change (- 0) with 0. rewrite scaled_nonneg by lia. cbn [fst snd].
      change (1 * 2 ^ 0) with 1 in *. rewrite Z.div_1_r. lia.
    + rewrite scaled_neg by lia. cbn [fst snd]. rewrite Z.div_1_r, Z.opp_involutive.
      lia.
  - rewrite scaled_neg in * by lia. cbn [fst snd] in Q. rewrite Z.div_1_r in Q.
    rewrite Z.mod_1_r, Z.div_1_r.
    change (2 * 0 <? 1) with true. cbv iota.
    destruct (Z.eqb_spec (n * 2 ^ (- e0)) (2 ^ 53)); [lia|].
    destruct (Z.ltb_spec 971 e0); [lia|].
    unfold to_int. f_equal. unfold quotient.
    rewrite scaled_nonneg by lia. cbn [fst snd]. rewrite Z.mul_1_l.
    apply Z.div_mul. assert (0 < 2 ^ (- e0)) by (apply Z.pow_pos_nonneg; lia). lia.
Qed.

Lemma mul_cases x k :
  0 < k ->
  (x = Infinity \/ exists m e, x = Finite m e /\ 0 <= m) ->
  mul x k = Infinity \/
  exists m e, mul x k = Finite m e /\ 0 <= m < 2 ^ 53 /\ - 1074 <= e <= 971.
Proof.
  intros Hk [->|(m & e & -> & Hm)]; [now left|].
  unfold mul.
  pose proof (scaled_den_pos (m * k) 1 (- e) ltac:(lia)) as D.
  pose proof (scaled_num_nonneg (m * k) 1 (- e) ltac:(nia)) as N.
  destruct (scaled (m * k) 1 (- e)) as [num den]. cbn [fst snd] in *.
  apply round_cases; lia.
Qed.

(** On the samples, parsing and multiplying give what the library's
    specification of binary64 division and multiplication gives. *)
Lemma round_mul_agree_with_SpecFloat :
  map (fun s => let '(n, d, k) := s in
                to_spec (mul (round n (10 ^ d)) k)) float_samples
  = map (fun s => let '(n, d, k) := s in
                  SFmul 53 1024
                    (SFdiv 53 1024 (spec_of_int n) (spec_of_int (10 ^ d)))
                    (spec_of_int k)) float_samples.
Proof. vm_compute. reflexivity. Qed.

(** Multiplying by one changes nothing. *)
Lemma mul_one m e :
  0 <= m < 2 ^ 53 -> - 1074 <= e <= 971 ->
  Float.to_int (mul (Finite m e) 1) = Float.to_int (Finite m e).
Proof.
  intros Hm He. unfold mul. rewrite Z.mul_1_r.
  destruct (Z_le_gt_dec e 0) as [Le|Gt].
  2:{ rewrite scaled_neg by lia. rewrite Z.opp_involutive.
      assert (0 < 2 ^ e) by (apply Z.pow_pos_nonneg; lia).
      rewrite round_exact.
      - unfold to_int, quotient. rewrite scaled_neg by lia. cbn [fst snd].
        rewrite Z.opp_involutive, Z.div_1_r. reflexivity.
      - exists m, e. repeat split; try lia.
        apply Z.lt_le_trans with (2 ^ 53 * 2 ^ e); [nia|].
        rewrite <- Z.pow_add_r by lia. apply Z.pow_le_mono_r; lia. }
  rewrite scaled_nonneg by lia.
  change (to_int (Finite m e)) with (Ok (quotient m 1 (- e))).
  remember (- e) as a eqn:Ea. assert (Ha : 0 <= a <= 1074) by lia. clear Ea.
  assert (Pa : 0 < 2 ^ a) by (apply Z.pow_pos_nonneg; lia).
  unfold quotient at 1. rewrite scaled_nonneg by lia. cbn [fst snd].
  unfold round. destruct (Z.eqb_spec m 0) as [->|M0].
  { cbn [to_int]. rewrite Z.div_0_l by lia. reflexivity. }
  assert (Mpos : 0 < m) by lia.
  pose proof (exponent_quotient_lt m (1 * 2 ^ a) Mpos ltac:(lia)) as Q.
  pose proof (exponent_ge m (1 * 2 ^ a)) as G.
  assert (U : exponent m (1 * 2 ^ a) <= - a).
  { unfold exponent. rewrite (Z.log2_mul_pow2 1 a) by lia. change (Z.log2 1) with 0.
    assert (Z.log2 m < 53) by (apply Z.log2_lt_pow2; lia).
    destruct (_ <? _); lia. }
  set (ec := exponent m (1 * 2 ^ a)) in *. unfold quotient in Q.
  assert (Pk : 0 < 2 ^ (- ec - a)) by (apply Z.pow_pos_nonneg; lia).
  assert (Pc : 2 ^ (- ec) = 2 ^ (- ec - a) * 2 ^ a).
  { rewrite <- Z.pow_add_r by lia. f_equal. lia. }
  destruct (Z.eq_dec ec 0) as [Z0|Z0].
  - assert (a = 0) by lia. subst a. rewrite Z0 in *.
    rewrite scaled_nonneg in * by lia. cbn [fst snd] in Q.
    change (1 * 2 ^ 0 * 2 ^ 0) with 1 in *. change (1 * 2 ^ 0) with 1.
    rewrite Z.mod_1_r, Z.div_1_r in *. change (2 * 0 <? 1) with true. cbv iota.
    destruct (Z.eqb_spec m (2 ^ 53)); [lia|].
    change (971 <? 0) with false. cbv iota.
    cbn [to_int]. unfold quotient. change (- 0) with 0.
    rewrite scaled_nonneg by lia. cbn [fst snd]. change (1 * 2 ^ 0) with 1.
    rewrite Z.div_1_r. reflexivity.
  - rewrite scaled_neg in * by lia. cbn [fst snd] in Q.
    assert (D : m * 2 ^ (- ec) = m * 2 ^ (- ec - a) * (1 * 2 ^ a)) by (rewrite Pc; ring).
    rewrite D in *. rewrite Z.mod_mul, Z.div_mul in * by lia.
    destruct (Z.ltb_spec (2 * 0) (1 * 2 ^ a)); [|lia].
    destruct (Z.eqb_spec (m * 2 ^ (- ec - a)) (2 ^ 53)); [lia|].
    destruct (Z.ltb_spec 971 ec); [lia|].
    cbn [to_int]. f_equal. unfold quotient. rewrite scaled_nonneg by lia.
    cbn [fst snd].
    replace (1 * 2 ^ (- ec)) with (1 * 2 ^ a * 2 ^ (- ec - a)) by (rewrite Pc; ring).
    rewrite Z.div_mul_cancel_r by lia. reflexivity.
Qed.
End FloatFacts.

(** ** Decimal strings *)

Lemma digit_char k :
  0 <= k <= 9 ->
  Unicode.isdecimal (48 + k) = true /\ Unicode.decimal_value (48 + k) = k
  /\ 48 <= 48 + k <= 57.
Proof.
  intros H.
  assert (C : k = 0 \/ k = 1 \/ k = 2 \/ k = 3 \/ k = 4 \/ k = 5 \/ k = 6
              \/ k = 7 \/ k = 8 \/ k = 9) by lia.
  repeat (destruct C as [->|C]; [repeat split; (reflexivity || lia)|]).
  subst; repeat split; (reflexivity || lia).
Qed.

Lemma digits_of_app fuel : forall n acc,
  digits_of fuel n acc = digits_of fuel n [] ++ acc.
Proof.
  induction fuel as [|f IH]; intros n acc; [reflexivity|].
  cbn [digits_of]. destruct (n / 10 =? 0); [reflexivity|].
  rewrite (IH _ (_ :: acc)), (IH _ [_]), <- app_assoc. reflexivity.
Qed.

Lemma digits_value_snoc s c :
  digits_value (s ++ [c]) = 10 * digits_value s + Unicode.decimal_value c.
Proof. unfold digits_value. rewrite fold_left_app. reflexivity. Qed.

Lemma digits_of_spec fuel : forall n,
  0 <= n < 2 ^ Z.of_nat fuel -> (0 < fuel)%nat ->
  let s := digits_of fuel n [] in
  ascii_digits s /\ s <> [] /\ digits_value s = n.
Proof.
  induction fuel as [|f IH]; intros n Hn Hf; [lia|].
  cbn [digits_of].
  assert (Hd : 0 <= n mod 10 <= 9) by (pose proof (Z.mod_pos_bound n 10); lia).
  destruct (digit_char _ Hd) as (D1 & D2 & D3).
  destruct (Z.eqb_spec (n / 10) 0) as [E|E].
  - cbn zeta. split; [repeat constructor; lia|]. split; [discriminate|].
    unfold digits_value. cbn [fold_left]. rewrite D2.
    pose proof (Z.div_mod n 10). lia.
  - rewrite digits_of_app.
    assert (Hq : 0 <= n / 10 < 2 ^ Z.of_nat f).
    { split; [apply Z.div_pos; lia|].
      apply Z.div_lt_upper_bound; [lia|].
      rewrite Nat2Z.inj_succ, Z.pow_succ_r in Hn by lia. lia. }
    assert (Hf' : (0 < f)%nat).
    { destruct f; [|lia]. change (2 ^ Z.of_nat 0) with 1 in Hq. lia. }
    destruct (IH _ Hq Hf') as (A & B & C). cbn zeta.
    split; [apply Forall_app; split; [exact A|repeat constructor; lia]|].
    split; [intros X; apply app_eq_nil in X; destruct X; discriminate|].
    rewrite digits_value_snoc, C, D2. pose proof (Z.div_mod n 10). lia.
Qed.

Lemma str_of_int_spec n :
  0 <= n ->
  ascii_digits (str_of_int n) /\ str_of_int n <> [] /\ digits_value (str_of_int n) = n.
Proof.
  intros Hn. unfold str_of_int. destruct (Z.ltb_spec n 0); [lia|].
  apply digits_of_spec; [|lia].
  split; [lia|].
  destruct (Z.eq_dec n 0) as [->|N0]; [reflexivity|].
  rewrite Nat2Z.inj_succ, Z2Nat.id by apply Z.log2_nonneg.
  apply Z.log2_spec. lia.
Qed.


Lemma ascii_digit_isdecimal c : 48 <= c <= 57 -> Unicode.isdecimal c = true.
Proof.
  intros H. destruct (digit_char (c - 48) ltac:(lia)) as (D & _).
  replace (48 + (c - 48)) with c in D by lia. exact D.
Qed.

Lemma ascii_digits_forallb s : ascii_digits s -> forallb Unicode.isdecimal s = true.
Proof.
  intros H. apply forallb_forall. intros c Hc.
  apply ascii_digit_isdecimal. unfold ascii_digits in H.
  rewrite Forall_forall in H. auto.
Qed.

Lemma sub_ascii_digits s :
  ascii_digits s -> Re.sub (Re.NoneOf [Re.Digit; Re.Chr 46]) [] s = s.
Proof.
  induction 1 as [|c s Hc _ IH]; [reflexivity|].
  unfold Re.sub in *. cbn [flat_map]. rewrite IH.
  cbn [Re.cset_mem existsb Re.atom_mem]. rewrite (ascii_digit_isdecimal c Hc).
  reflexivity.
Qed.

Lemma contains_char_ascii_digits c s :
  ascii_digits s -> c < 48 \/ 57 < c -> contains_char c s = false.
Proof.
  intros H Hc. unfold contains_char.
  induction H as [|d s Hd _ IH]; [reflexivity|].
  cbn [existsb]. rewrite IH. destruct (Z.eqb_spec c d); [lia|reflexivity].
Qed.

Lemma split_point_ascii_digits s : ascii_digits s -> split_point s = (s, None).
Proof.
  induction 1 as [|c s Hc _ IH]; [reflexivity|].
  cbn [split_point]. destruct (Z.eqb_spec c 46); [lia|]. rewrite IH. reflexivity.
Qed.

Lemma float_of_str_ascii_digits s :
  ascii_digits s -> s <> [] ->
  float_of_str s = Ok (Float.round (digits_value s) 1).
Proof.
  intros H N. unfold float_of_str. rewrite split_point_ascii_digits by assumption.
  rewrite app_nil_r. destruct s as [|c s]; [congruence|].
  rewrite ascii_digits_forallb by assumption. reflexivity.
Qed.

(** A normalized amount is left as it is. *)
Lemma remove_currency_normalized n :
  0 <= n -> representable n ->
  remove_currency (VStr (str_of_int n)) = Ok (str_of_int n).
Proof.
  intros Hn R. destruct (str_of_int_spec n Hn) as (A & B & C).
  unfold remove_currency. rewrite sub_ascii_digits by assumption.
  rewrite float_of_str_ascii_digits by assumption. rewrite C. cbn [bind].
  rewrite !(contains_char_ascii_digits _ _ A) by lia.
  rewrite FloatFacts.round_exact by assumption. reflexivity.
Qed.

Lemma digits_value_nonneg s : 0 <= digits_value s.
Proof.
  unfold digits_value.
  assert (G : forall a, 0 <= a -> 0 <= fold_left (fun a c => 10 * a + Unicode.decimal_value c) s a).
  { induction s as [|c s IH]; intros a Ha; [exact Ha|].
    cbn [fold_left]. apply IH.
    assert (0 <= Unicode.decimal_value c).
    { unfold Unicode.decimal_value. destruct (find _ _); [|lia].
      apply Z.mod_pos_bound. lia. }
    lia. }
  apply G. lia.
Qed.

Lemma float_of_str_cases s x :
  float_of_str s = Ok x ->
  x = Float.Infinity \/
  exists m e, x = Float.Finite m e /\ 0 <= m < 2 ^ 53 /\ - 1074 <= e <= 971.
Proof.
  unfold float_of_str. destruct (split_point s) as [ip tl].
  destruct (ip ++ _) as [|c ds]; [discriminate|].
  destruct (forallb _ _); [|discriminate].
  intros [= <-]. apply FloatFacts.round_cases.
  - apply digits_value_nonneg.
  - apply Z.pow_pos_nonneg; lia.
Qed.

(** What [remove_currency] returns is the decimal form of an integer
    that binary64 holds. *)
Lemma remove_currency_output s r :
  remove_currency (VStr s) = Ok r ->
  exists n, r = str_of_int n /\ 0 <= n /\ representable n.
Proof.
  unfold remove_currency.
  destruct (float_of_str _) as [x|] eqn:F; [|discriminate]. cbn [bind].
  pose proof (float_of_str_cases _ _ F) as Hx.
  assert (K : forall y, (y = Float.Infinity \/
              exists m e, y = Float.Finite m e /\ 0 <= m < 2 ^ 53 /\
                - 1074 <= e <= 971) ->
            (n <- Float.to_int y ;; Ok (str_of_int n))%result = Ok r ->
            exists n, r = str_of_int n /\ 0 <= n /\ representable n).
  { intros y [->|(m & e & -> & Hm & He)]; [discriminate|].
    cbn [Float.to_int bind]. intros [= <-].
    destruct (FloatFacts.to_int_representable m e Hm He) as [P Q].
    eexists; repeat split; eauto. }
  assert (Hx' : x = Float.Infinity \/ exists m e, x = Float.Finite m e /\ 0 <= m).
  { destruct Hx as [->|(m & e & -> & Hm & _)]; [now left|right; exists m, e; split; [reflexivity|lia]]. }
  destruct (contains_char 77 s).
  - apply K. apply FloatFacts.mul_cases; [lia|exact Hx'].
  - destruct (contains_char 75 s).
    + apply K. apply FloatFacts.mul_cases; [lia|exact Hx'].
    + apply K. exact Hx.
Qed.

(** Applied to its own output, [remove_currency] returns that output. *)
Theorem remove_currency_idempotent s r :
  remove_currency (VStr s) = Ok r -> remove_currency (VStr r) = Ok r.
Proof.
  intros H. destruct (remove_currency_output s r H) as (n & -> & Hn & R).
  apply remove_currency_normalized; assumption.
Qed.

Lemma sub_is_filter s :
  Re.sub (Re.NoneOf [Re.Digit; Re.Chr 46]) [] s
  = filter (fun c => Unicode.isdecimal c || (c =? 46)) s.
Proof.
  unfold Re.sub. induction s as [|c s IH]; [reflexivity|].
  cbn [flat_map filter]. rewrite IH.
  cbn [Re.cset_mem existsb Re.atom_mem]. rewrite orb_false_r. destruct (Unicode.isdecimal c || (c =? 46)); reflexivity.
Qed.

Lemma remove_currency_normalize s :
  remove_currency (VStr s) = normalize_amount magnitude s.
Proof.
  unfold remove_currency, normalize_amount, magnitude. rewrite sub_is_filter.
  destruct (float_of_str _) as [x|] eqn:F; [|reflexivity]. cbn [bind].
  destruct (contains_char 77 s); [reflexivity|].
  destruct (contains_char 75 s); [reflexivity|].
  destruct (float_of_str_cases _ _ F) as [->|(m & e & -> & Hm & He)]; [reflexivity|].
  rewrite FloatFacts.mul_one by assumption. reflexivity.
Qed.

(** C2, as the code has it.  [remove_currency] maps "€1.2M" to "1200000",
    "€500K" to "500000" and "€0" to "0".  For every input it strips what is
    neither digit nor point, parses the remainder as floating point,
    multiplies by 1,000,000 when the input holds an [M] anywhere, else by
    1,000 when it holds a [K] anywhere, else by 1, truncates and prints; the
    parse and the truncation raise as [float] and [int] do.  Applied to its
    own output it returns that output. *)
Theorem remove_currency_spec :
  remove_currency (VStr (euro :: py "1.2M")) = Ok (py "1200000")
  /\ remove_currency (VStr (euro :: py "500K")) = Ok (py "500000")
  /\ remove_currency (VStr (euro :: py "0")) = Ok (py "0")
  /\ (forall s, remove_currency (VStr s) = normalize_amount magnitude s)
  /\ (forall s r, remove_currency (VStr s) = Ok r -> remove_currency (VStr r) = Ok r).
Proof.
  split; [vm_compute; reflexivity|].
  split; [vm_compute; reflexivity|].
  split; [vm_compute; reflexivity|].
  split; [exact remove_currency_normalize|exact remove_currency_idempotent].
Qed.


(** ** Loops *)

Lemma map_result_Ok {A B} (f : A -> result B) l ys :
  map_result f l = Ok ys -> Forall2 (fun x y => f x = Ok y) l ys.
Proof.
  revert ys. induction l as [|x l IH]; intros ys H; cbn [map_result] in H.
  - injection H as <-. constructor.
  - destruct (f x) as [y|] eqn:Fx; [|discriminate]. cbn [bind] in H.
    destruct (map_result f l) as [ys'|]; [|discriminate]. cbn [bind] in H.
    injection H as <-. constructor; auto.
Qed.


Lemma for_each_inv {A B} (body : A -> IO (list B)) l : forall s ys s',
  for_each body l s = (Ok ys, s') ->
  exists chunks,
    ys = List.concat chunks /\
    Forall2 (fun x c => exists s0 s1, body x s0 = (Ok c, s1)) l chunks.
Proof.
  induction l as [|x l IH]; intros s ys s' H; cbn [for_each] in H.
  - injection H as <- <-. exists []. split; [reflexivity|constructor].
  - unfold bindIO in H. destruct (body x s) as [[c|] s1] eqn:Bx; [|discriminate].
    destruct (for_each body l s1) as [[zs|] s2] eqn:Fl; [|discriminate].
    injection H as <- <-. destruct (IH _ _ _ Fl) as (chunks & -> & F2).
    exists (c :: chunks). split; [reflexivity|]. constructor; eauto.
Qed.

(** The calls of the fetcher a loop makes, when every turn makes one. *)
Lemma for_each_requests {A B} (body : A -> IO (list B)) (rq : A -> Request) l :
  (forall x s, requests (snd (body x s)) = requests s ++ [rq x]) ->
  forall s, exists k,
    (k <= List.length l)%nat /\
    requests (snd (for_each body l s)) = requests s ++ map rq (firstn k l) /\
    (is_ok (fst (for_each body l s)) = true -> k = List.length l).
Proof.
  intros Hb. induction l as [|x l IH]; intros s.
  - exists 0%nat. cbn. rewrite app_nil_r. auto.
  - cbn [for_each]. unfold bindIO. specialize (Hb x s).
    destruct (body x s) as [[c|e] s1] eqn:Bx; cbn [snd] in Hb.
    + destruct (IH s1) as (k & Hk & Hr & Hok).
      destruct (for_each body l s1) as [[zs|e] s2]; unfold ret; cbn [fst snd] in *.
      * exists (S k). cbn [firstn map List.length]. rewrite Hr, Hb, <- app_assoc.
        repeat split; [lia|]. intros _. rewrite Hok; reflexivity.
      * exists (S k). cbn [firstn map List.length]. rewrite Hr, Hb, <- app_assoc.
        repeat split; [lia|]. discriminate.
    + exists 1%nat. cbn [firstn map List.length fst snd]. rewrite Hb.
      repeat split; [lia|]. discriminate.
Qed.

(** ** Sorting *)
Section SortFacts.
Context {A : Type} (leb : A -> A -> bool).
Hypothesis leb_total : forall a b, leb a b = true \/ leb b a = true.

Lemma insert_perm x l : Permutation (x :: l) (insert leb x l).
Proof.
  induction l as [|y l IH]; cbn [insert]; [reflexivity|].
  destruct (leb x y); [reflexivity|].
  rewrite perm_swap. constructor. exact IH.
Qed.

Lemma sort_index_perm l : Permutation l (sort_index leb l).
Proof.
  induction l as [|x l IH]; cbn; [constructor|].
  rewrite <- insert_perm. constructor. exact IH.
Qed.

Lemma insert_sorted x l :
  Sorted (fun a b => leb a b = true) l ->
  Sorted (fun a b => leb a b = true) (insert leb x l).
Proof.
  induction 1 as [|y l Hs IH Hr]; cbn [insert]; [repeat constructor|].
  destruct (leb x y) eqn:E.
  - repeat constructor; assumption.
  - constructor; [exact IH|].
    destruct l as [|z l]; cbn [insert].
    + constructor. destruct (leb_total x y); congruence.
    + destruct (leb x z); constructor.
      * destruct (leb_total x y); congruence.
      * inversion Hr; assumption.
Qed.

Lemma sort_index_sorted l : Sorted (fun a b => leb a b = true) (sort_index leb l).
Proof.
  induction l as [|x l IH]; cbn; [constructor|]. apply insert_sorted, IH.
Qed.
End SortFacts.

(** ** Versions *)

Lemma versions_frame_Ok records frame :
  versions_frame records = Ok frame ->
  records <> [] /\
  frame = sort_index (fun a b => version_id a <=? version_id b) records.
Proof.
  unfold versions_frame. destruct records as [|r records]; [discriminate|].
  destruct (int_column_overflows _); [discriminate|].
  intros E. split; [discriminate|congruence].
Qed.

Lemma read_versions_frame dir max_age s frame s' :
  read_versions dir max_age s = (Ok frame, s') ->
  exists records,
    records <> [] /\
    frame = sort_index (fun a b => version_id a <=? version_id b) records.
Proof.
  unfold read_versions, bindIO, lift. intros H.
  destruct (get _ _ _ s) as [[doc|] s1]; [|discriminate].
  destruct (for_each _ _ s1) as [[records|] s2]; [|discriminate].
  destruct (versions_frame records) as [fr|] eqn:V; [|discriminate].
  assert (fr = frame) by congruence. subst fr.
  exists records. apply versions_frame_Ok, V.
Qed.

Lemma sorted_version_ids records :
  StronglySorted Z.le
    (map version_id (sort_index (fun a b => version_id a <=? version_id b) records)).
Proof.
  apply Sorted_StronglySorted; [intros a b c; apply Z.le_trans|].
  pose proof (sort_index_sorted (fun a b => version_id a <=? version_id b)
                ltac:(intros a b; rewrite !Z.leb_le; lia) records) as S.
  induction S as [|x l _ IH Hr]; cbn [map]; constructor; [exact IH|].
  destruct Hr as [|y l E]; constructor. apply Z.leb_le, E.
Qed.

Lemma strictly_sorted l :
  StronglySorted Z.le l -> NoDup l -> StronglySorted Z.lt l.
Proof.
  induction 1 as [|x l _ IH F]; intros N; constructor.
  - apply IH. inversion N; assumption.
  - inversion N as [|? ? Nx _]; subst. rewrite Forall_forall in *.
    intros y Hy. specialize (F y Hy).
    assert (x <> y) by (intros ->; contradiction). lia.
Qed.

Lemma sorted_last_max (l : list Z) x :
  StronglySorted Z.le (l ++ [x]) -> forall y, In y (l ++ [x]) -> y <= x.
Proof.
  induction l as [|a l IH]; cbn [app]; intros S y Hy.
  - destruct Hy as [->|[]]. lia.
  - inversion S as [|? ? S' F]; subst. destruct Hy as [->|Hy].
    + rewrite Forall_forall in F. apply F, in_or_app. right. now left.
    + apply IH; assumption.
Qed.

Lemma tail1_max (frame : list version_row) :
  frame <> [] -> StronglySorted Z.le (map version_id frame) ->
  exists row, tail1 frame = [row] /\ In row frame /\
              forall r, In r frame -> version_id r <= version_id row.
Proof.
  intros N S. destruct (exists_last N) as (l & x & ->).
  exists x. unfold tail1. rewrite rev_app_distr. cbn [rev app].
  split; [reflexivity|]. split; [apply in_or_app; right; now left|].
  intros r Hr. rewrite map_app in S. cbn [map] in S.
  apply (sorted_last_max _ _ S).
  change (map version_id l ++ [version_id x]) with (map version_id l ++ map version_id [x]).
  rewrite <- map_app. apply in_map, Hr.
Qed.

(** C5, as the code has it.  The index of the table of [read_versions] is
    sorted in non-decreasing order, strictly increasing when the identifiers
    are pairwise distinct; nothing removes a repeated identifier.  A reader
    made with [versions="latest"] keeps exactly one row of that table, and no
    row of the table has a greater [version_id]. *)
Theorem versions_sorted_latest_max (env : Env) dir leagues s :
  (forall max_age frame s',
     read_versions dir max_age s = (Ok frame, s') ->
     StronglySorted Z.le (map version_id frame) /\
     (NoDup (map version_id frame) -> StronglySorted Z.lt (map version_id frame)))
  /\
  (forall self s',
     __init__ env dir leagues (VersionsStr (py "latest")) s = (Ok self, s') ->
     exists all row,
       read_versions dir (MAXAGE env) s = (Ok all, s') /\
       versions self = [row] /\ In row all /\
       forall r, In r all -> version_id r <= version_id row).
Proof.
  split.
  - intros max_age frame s' H.
    destruct (read_versions_frame _ _ _ _ _ H) as (records & _ & ->).
    pose proof (sorted_version_ids records) as S.
    split; [exact S|]. intros N. apply strictly_sorted; assumption.
  - intros self s' H. unfold __init__ in H.
    change (pystr_eqb (py "latest") (py "latest")) with true in H. cbv iota in H.
    unfold bindIO, ret in H.
    destruct (read_versions dir (MAXAGE env) s) as [[all|] s1] eqn:R; [|discriminate].
    injection H as <- <-.
    destruct (read_versions_frame _ _ _ _ _ R) as (records & N & E).
    assert (N' : all <> []).
    { intros ->. apply N. apply Permutation_nil.
      rewrite E. symmetry. apply sort_index_perm. }
    assert (S : StronglySorted Z.le (map version_id all))
      by (rewrite E; apply sorted_version_ids).
    destruct (tail1_max all N' S) as (row & T & I & M).
    exists all, row. cbn [versions]. auto.
Qed.

(** ** Score extraction *)

Lemma first_match_first tree pre : forall q post node more,
  Forall (fun p => Html.xpath tree p = []) pre ->
  Html.xpath tree q = node :: more ->
  first_match tree (pre ++ q :: post)
  = ((value <- node_text_strip node ;; Ok (Some value))%result, pre ++ [q]).
Proof.
  induction pre as [|p pre IH]; intros q post node more F Hq; cbn [app first_match].
  - rewrite Hq. reflexivity.
  - inversion F as [|? ? Hp F']; subst. rewrite Hp.
    rewrite (IH _ _ _ _ F' Hq). reflexivity.
Qed.

Lemma first_match_none tree xs :
  Forall (fun p => Html.xpath tree p = []) xs ->
  first_match tree xs = (Ok None, xs).
Proof.
  induction 1 as [|p xs Hp _ IH]; cbn [first_match]; [reflexivity|].
  rewrite Hp, IH. reflexivity.
Qed.

(** ** The biographical line *)

(** C7, as the code has it.  The line "23y.o. (Feb 5, 2001) 180cm / 75kg"
    gives age 23, birthdate "02-05", height 180 and weight 75.  A line that
    does not match the grammar raises a [ValueError] whose message quotes
    the line and ends with the identifier of the player. *)
Theorem basic_info_parse p :
  parse_basic_info p [py "23y.o. (Feb 5, 2001) 180cm / 75kg"] []
  = Ok [(py "age", VInt 23); (py "birthdate", VStr (py "02-05"));
        (py "height", VInt 180); (py "weight", VInt 75)]
  /\
  (forall basic_info_p basic_info scores,
     first_nonblank basic_info_p = Some basic_info ->
     Re.match_ pat_basic_info basic_info = None ->
     parse_basic_info p basic_info_p scores
     = Err (Raised "ValueError"
              (py "Basic information '" ++ basic_info
               ++ py "' not recognized for player " ++ str_of_int p))).
Proof.
  split.
  - vm_compute. reflexivity.
  - intros infos line scores F M. unfold parse_basic_info. rewrite F, M. reflexivity.
Qed.

(** ** Patterns that do not match *)


(** ** Players of the requested teams *)

Lemma get_ok url filepath max_age s : exists d s', get url filepath max_age s = (Ok d, s').
Proof.
  unfold get. destruct (match cache_lookup _ _ with Some _ => _ | None => _ end); eauto.
Qed.

Lemma parse_player_link_team version df_team node r :
  parse_player_link version df_team node = Ok r ->
  player_team r = team df_team /\ player_league r = team_league df_team /\
  player_fifa_edition r = fifa_edition version /\ player_update r = update version.
Proof.
  unfold parse_player_link. destruct (search_group1_opt _ _); [|discriminate].
  cbn [bind]. destruct (int_of_str _); [|discriminate]. cbn [bind].
  intros [= <-]. auto.
Qed.

Lemma parse_squad_team version df_team tree rows :
  parse_squad version df_team tree = Ok rows ->
  Forall (fun r => player_team r = team df_team /\ player_league r = team_league df_team /\
                   player_fifa_edition r = fifa_edition version /\
                   player_update r = update version) rows.
Proof.
  unfold parse_squad. destruct (first _) as [table|]; [|discriminate]. cbn [bind].
  intros H. apply map_result_Ok in H.
  induction H as [|node r nodes rows Hr _ IH]; constructor; [|exact IH].
  eapply parse_player_link_team, Hr.
Qed.

Lemma collect_players_inv self iterator s players s' :
  collect_players self iterator s = (Ok players, s') ->
  exists chunks,
    players = List.concat chunks /\
    Forall2 (fun vt chunk =>
               Forall (fun r => player_team r = team (snd vt) /\
                                player_league r = team_league (snd vt) /\
                                player_fifa_edition r = fifa_edition (fst vt) /\
                                player_update r = update (fst vt)) chunk)
            (list_prod (versions self) iterator) chunks.
Proof.
  intros H. apply for_each_inv in H. destruct H as (chunks & -> & F).
  exists chunks. split; [reflexivity|].
  induction F as [|[version df_team] c l cs (s0 & s1 & B) _ IH]; constructor; [|exact IH].
  cbn [fst snd]. unfold bindIO, lift in B.
  destruct (get _ _ _ s0) as [[doc|] s2]; [|discriminate].
  injection B as B _. eapply parse_squad_team, B.
Qed.

Lemma Forall2_Forall_r {A B} (P : A -> B -> Prop) (Q : B -> Prop) l cs :
  Forall2 P l cs -> (forall x c, In x l -> P x c -> Q c) -> Forall Q cs.
Proof.
  induction 1 as [|x c l cs Hp _ IH]; intros H; constructor.
  - apply (H x c); [now left|exact Hp].
  - apply IH. intros y d I. apply H. now right.
Qed.

(** C3, as the code has it.  [read_players(team=t)] first reads the teams.
    When no team record carries one of the requested names it raises
    [ValueError] in the state [read_teams] has left: the league directory
    and the team listings have been requested, no roster page has.  When it
    returns a table, the team of every row is one of the requested names. *)
Theorem read_players_filter (env : Env) self t s :
  (forall df s1,
     read_teams env self s = (Ok df, s1) ->
     filter (fun r => isin (team r) (add_standardized_team_name env t)) df = [] ->
     read_players env self (Some t) s = (Err no_data_found, s1))
  /\
  (forall rows s',
     read_players env self (Some t) s = (Ok rows, s') ->
     Forall (fun r => isin (player_team r) (add_standardized_team_name env t) = true) rows).
Proof.
  split.
  - intros df s1 R F. unfold read_players, bindIO, lift. rewrite R.
    unfold select_teams. rewrite F. reflexivity.
  - intros rows s' H. unfold read_players, bindIO, lift in H.
    destruct (read_teams env self s) as [[df|] s1]; [|discriminate].
    unfold select_teams in H.
    destruct (filter _ df) as [|t0 it] eqn:Fi; [discriminate|].
    destruct (collect_players self (t0 :: it) s1) as [[players|] s2] eqn:C; [|discriminate].
    unfold players_frame in H. destruct players as [|p players]; [discriminate|].
    destruct (int_column_overflows _); [discriminate|].
    assert (rows = p :: players) by congruence. subst rows. clear H.
    destruct (collect_players_inv _ _ _ _ _ C) as (chunks & E & F2). rewrite E.
    apply Forall_concat.
    apply (Forall2_Forall_r _ _ _ _ F2). intros [v dft] c I Hc. cbn [snd fst] in Hc.
    apply in_prod_iff in I. destruct I as [_ I]. rewrite <- Fi in I.
    apply filter_In in I. destruct I as [_ I].
    eapply Forall_impl; [|exact Hc]. intros r (-> & _). exact I.
Qed.

(** ** Order of the tables *)

Lemma pystr_eqb_sym a : forall b, pystr_eqb a b = pystr_eqb b a.
Proof.
  induction a as [|x a IH]; intros [|y b]; cbn [pystr_eqb]; try reflexivity.
  rewrite Z.eqb_sym, IH. reflexivity.
Qed.

Lemma pystr_leb_total a : forall b, pystr_leb a b = true \/ pystr_leb b a = true.
Proof.
  induction a as [|x a IH]; intros [|y b]; cbn [pystr_leb]; auto.
  destruct (Z.ltb_spec x y); [now left|].
  destruct (Z.ltb_spec y x); [now right|].
  assert (x = y) by lia. subst y. rewrite Z.eqb_refl. cbn [orb andb]. apply IH.
Qed.

Lemma rating_index_leb_total a b :
  rating_index_leb a b = true \/ rating_index_leb b a = true.
Proof.
  unfold rating_index_leb. rewrite (pystr_eqb_sym (rating_league b)).
  destruct (pystr_eqb _ _).
  - destruct (rating_team a) as [x|], (rating_team b) as [y|]; cbn [option_leb]; auto.
    apply pystr_leb_total.
  - apply pystr_leb_total.
Qed.

Lemma teams_frame_Ok env records frame :
  teams_frame env records = Ok frame -> frame = map (replace_in_team_row env) records.
Proof.
  unfold teams_frame. destruct records; [discriminate|].
  destruct (int_column_overflows _); [discriminate|]. congruence.
Qed.

Lemma players_frame_Ok records frame :
  players_frame records = Ok frame -> frame = records.
Proof.
  unfold players_frame. destruct records; [discriminate|].
  destruct (int_column_overflows _); [discriminate|]. congruence.
Qed.

Lemma team_ratings_frame_Ok env records frame :
  team_ratings_frame env records = Ok frame ->
  frame = sort_index rating_index_leb (map (replace_in_rating_row env) records).
Proof. destruct records; [discriminate|]. cbn [team_ratings_frame]. now intros [= <-]. Qed.

(** C8, as the code has it.  The table of [read_teams] holds, with the team
    names replaced, the rows of the listing pages that are fetched after
    [read_leagues], page after page in the order of the product of the
    leagues and the selected versions, and within a page in the order of its
    rows.  The table of [read_players] holds in the same way the rows of the
    roster pages that are fetched after [read_teams], in the order of the
    product of the selected versions and the teams that pass the filter.
    Neither is sorted.  The table of [read_team_ratings] is the records of
    its listing pages, sorted by the index (league, team). *)
Theorem tables_order (env : Env) self s :
  (forall frame s',
     read_teams env self s = (Ok frame, s') ->
     exists leagues s0 chunks,
       read_leagues env self s = (Ok leagues, s0) /\
       Forall2 (fun lvd chunk =>
                  map_result (parse_team_row (league (fst (fst lvd))) (snd (fst lvd)))
                    (listing_rows (snd lvd)) = Ok chunk)
               (combine (list_prod leagues (versions self))
                  (fst (fetch_all (map (teams_request self)
                                     (list_prod leagues (versions self))) s0)))
               chunks /\
       List.length chunks = List.length (list_prod leagues (versions self)) /\
       frame = map (replace_in_team_row env) (List.concat chunks))
  /\
  (forall t frame s',
     read_players env self t s = (Ok frame, s') ->
     exists teams s1 iterator chunks,
       read_teams env self s = (Ok teams, s1) /\
       select_teams env t teams = Ok iterator /\
       Forall2 (fun vtd chunk =>
                  parse_squad (fst (fst vtd)) (snd (fst vtd)) (html (snd vtd)) = Ok chunk)
               (combine (list_prod (versions self) iterator)
                  (fst (fetch_all (map (roster_request self)
                                     (list_prod (versions self) iterator)) s1)))
               chunks /\
       List.length chunks = List.length (list_prod (versions self) iterator) /\
       frame = List.concat chunks)
  /\
  (forall frame s',
     read_team_ratings env self s = (Ok frame, s') ->
     Sorted (fun a b => rating_index_leb a b = true) frame /\
     exists leagues s0 chunks,
       read_leagues env self s = (Ok leagues, s0) /\
       Forall2 (fun lvd chunk =>
                  exists sa sb,
                    map_io (parse_rating_row (league (fst (fst lvd))) (snd (fst lvd)))
                      (listing_rows (snd lvd)) sa = (Ok chunk, sb))
               (combine (list_prod leagues (versions self))
                  (fst (fetch_all (map (team_ratings_request self)
                                     (list_prod leagues (versions self))) s0)))
               chunks /\
       List.length chunks = List.length (list_prod leagues (versions self)) /\
       Permutation (map (replace_in_rating_row env) (List.concat chunks)) frame).
Proof.
  split; [|split].
  - intros frame s' H. unfold read_teams, bindIO, lift in H.
    destruct (read_leagues env self s) as [[leagues|] s1]; [|discriminate].
    destruct (collect_teams self leagues s1) as [[teams|] s2] eqn:C; [|discriminate].
    destruct (teams_frame env teams) as [fr|] eqn:T; [|discriminate].
    assert (fr = frame) by congruence. subst fr. apply teams_frame_Ok in T. subst frame.
    rewrite collect_teams_fetch in C. apply fetch_loop_pure in C.
    destruct C as (_ & chunks & -> & F).
    exists leagues, s1, chunks. split; [reflexivity|]. split; [exact F|].
    split; [|reflexivity].
    apply (Forall2_combine_length _ _ _ _ (eq_trans (fetch_all_length _ _) (length_map _ _)) F).
  - intros t frame s' H. unfold read_players, bindIO, lift in H.
    destruct (read_teams env self s) as [[df|] s1]; [|discriminate].
    destruct (select_teams env t df) as [iterator|] eqn:St; [|discriminate].
    destruct (collect_players self iterator s1) as [[players|] s2] eqn:C; [|discriminate].
    destruct (players_frame players) as [fr|] eqn:P; [|discriminate].
    assert (fr = frame) by congruence. subst fr. apply players_frame_Ok in P. subst frame.
    rewrite collect_players_fetch in C. apply fetch_loop_pure in C.
    destruct C as (_ & chunks & -> & F).
    exists df, s1, iterator, chunks. split; [reflexivity|]. split; [exact St|].
    split; [exact F|]. split; [|reflexivity].
    apply (Forall2_combine_length _ _ _ _ (eq_trans (fetch_all_length _ _) (length_map _ _)) F).
  - intros frame s' H. unfold read_team_ratings, bindIO, lift in H.
    destruct (read_leagues env self s) as [[leagues|] s1]; [|discriminate].
    destruct (collect_team_ratings self leagues s1) as [[teams|] s2] eqn:C; [|discriminate].
    destruct (team_ratings_frame env teams) as [fr|] eqn:T; [|discriminate].
    assert (fr = frame) by congruence. subst fr.
    apply team_ratings_frame_Ok in T. subst frame. split.
    + apply sort_index_sorted, rating_index_leb_total.
    + rewrite collect_team_ratings_fetch in C.
      apply (fetch_loop _ _ _ (fun lv d => quiet_map_io _ _ (quiet_parse_rating_row _ _))
               _ s1 _ _ (agree_refl s1)) in C.
      destruct C as (_ & chunks & -> & F).
      exists leagues, s1, chunks. split; [reflexivity|]. split; [exact F|]. split.
      * apply (Forall2_combine_length _ _ _ _
                 (eq_trans (fetch_all_length _ _) (length_map _ _)) F).
      * apply sort_index_perm.
Qed.

(** ** Calls of the fetcher *)

Lemma get_spec url filepath max_age s :
  exists d s',
    get url filepath max_age s = (Ok d, s') /\
    requests s' = requests s ++
      [{| req_url := url; req_path := filepath; req_max_age := max_age |}] /\
    web s' = web s /\
    (downloads s' = downloads s \/ downloads s' = downloads s ++ [url]) /\
    (forall p, cache_lookup p (cache s) <> None -> cache_lookup p (cache s') <> None).
Proof.
  unfold get.
  destruct (match cache_lookup filepath (cache s) with Some _ => _ | None => _ end).
  - do 2 eexists. split; [reflexivity|]. cbn. auto.
  - do 2 eexists. split; [reflexivity|]. cbn [requests web downloads cache].
    repeat split; auto. intros p H. unfold cache_lookup in *. cbn [find fst].
    destruct (path_eqb filepath p); [discriminate|exact H].
Qed.

(** C10.  With an explicit player argument the team argument does not
    matter: result and final state are the same for any two team arguments.
    The calls of the fetcher are the profile pages of the product of the
    selected versions and the given players, in that order, up to the page
    that fails if one does, and all of them when a table is returned. *)
Theorem explicit_players_ignore_team (env : Env) self t1 t2 p s :
  read_player_ratings env self t1 (Some p) s = read_player_ratings env self t2 (Some p) s
  /\
  exists k,
    (k <= List.length (list_prod (versions self) (player_ids p)))%nat /\
    requests (snd (read_player_ratings env self t1 (Some p) s))
    = requests s
      ++ map (profile_request self) (firstn k (list_prod (versions self) (player_ids p)))
    /\
    (is_ok (fst (read_player_ratings env self t1 (Some p) s)) = true ->
     k = List.length (list_prod (versions self) (player_ids p))).
Proof.
  split; [destruct p; reflexivity|].
  assert (E : read_player_ratings env self t1 (Some p) s
              = (records <- collect_ratings self (player_ids p) ;;
                 lift (ratings_frame env records))%io s) by (destruct p; reflexivity).
  rewrite E. unfold bindIO, lift, collect_ratings.
  destruct (for_each_requests
              (fun '(version, p0) =>
                 (doc <- get (player_url p0 (version_id version))
                           (joinpath (data_dir self) (player_file p0 (version_id version)))
                           None ;;
                  scores <- lift (player_scores version p0 (html doc)) ;;
                  ret [scores])%io)
              (profile_request self)
              (list_prod (versions self) (player_ids p))) with (s := s)
    as (k & Hk & Hr & Hok).
  { intros [v p0] s0. unfold bindIO, lift, ret.
    destruct (get_spec (player_url p0 (version_id v))
                (joinpath (data_dir self) (player_file p0 (version_id v))) None s0)
      as (d & s1 & -> & R & _).
    destruct (player_scores v p0 (html d)); exact R. }
  exists k. split; [exact Hk|].
  destruct (for_each _ _ s) as [[records|e] s1]; cbn [fst snd] in *.
  - split; [exact Hr|]. intros _. apply Hok. reflexivity.
  - split; [exact Hr|]. discriminate.
Qed.

(** ** Cache ages in [read_versions] *)

Lemma edition_body_spec dir max_age i node s :
  (Html.get node (py "value") = None /\
   edition_body dir max_age (i, node) s = (Err (Builtin "TypeError"), s))
  \/
  (exists link r s',
     Html.get node (py "value") = Some link /\
     edition_body dir max_age (i, node) s = (r, s') /\
     requests s' = requests s ++ [updates_request dir max_age i node link] /\
     (downloads s' = downloads s \/
      (downloads s' = downloads s ++ [SO_FIFA_API ++ link] /\
       (i <> 0%nat -> cache_lookup (updates_path dir node) (cache s) = None))) /\
     (forall p, cache_lookup p (cache s) <> None -> cache_lookup p (cache s') <> None)).
Proof.
  unfold edition_body, bindIO, lift.
  destruct (Html.get node (py "value")) as [link|]; [right|left; auto].
  exists link.
  set (url := SO_FIFA_API ++ link).
  set (ma := Some (if Nat.eqb i 0 then max_age else None)).
  assert (G : exists d s',
             get url (updates_path dir node) ma s = (Ok d, s') /\
             requests s' = requests s ++ [updates_request dir max_age i node link] /\
             (downloads s' = downloads s \/
              (downloads s' = downloads s ++ [url] /\
               (i <> 0%nat -> cache_lookup (updates_path dir node) (cache s) = None))) /\
             (forall p, cache_lookup p (cache s) <> None ->
                        cache_lookup p (cache s') <> None)).
  { unfold get.
    destruct (cache_lookup (updates_path dir node) (cache s)) as [e|] eqn:L.
    - destruct (fresh ma (age e)) eqn:Fr.
      + do 2 eexists. split; [reflexivity|]. cbn. auto.
      + do 2 eexists. split; [reflexivity|]. cbn [requests downloads cache].
        split; [reflexivity|]. split.
        * right. split; [reflexivity|]. intros Hi. exfalso.
          unfold ma, fresh in Fr. destruct i; [contradiction|]. discriminate.
        * intros p H. unfold cache_lookup in *. cbn [find fst].
          destruct (path_eqb _ p); [discriminate|exact H].
    - do 2 eexists. split; [reflexivity|]. cbn [requests downloads cache].
      split; [reflexivity|]. split; [right; auto|].
      intros p H. unfold cache_lookup in *. cbn [find fst].
      destruct (path_eqb _ p); [discriminate|exact H]. }
  destruct G as (d & s' & -> & R & D & C).
  do 2 eexists. split; [reflexivity|]. split; [reflexivity|]. auto.
Qed.

Lemma for_each_cons {A B} (body : A -> IO (list B)) x l s :
  for_each body (x :: l) s
  = match body x s with
    | (Ok ys, s1) =>
        match for_each body l s1 with
        | (Ok zs, s2) => (Ok (ys ++ zs), s2)
        | (Err e, s2) => (Err e, s2)
        end
    | (Err e, s1) => (Err e, s1)
    end.
Proof.
  cbn [for_each]. unfold bindIO, ret. destruct (body x s) as [[ys|] s1]; [|reflexivity].
  destruct (for_each body l s1) as [[zs|] s2]; reflexivity.
Qed.

Lemma editions_loop_requests dir max_age l : forall s,
  exists k rqs,
    requests (snd (for_each (edition_body dir max_age) l s)) = requests s ++ rqs /\
    Forall2 (fun inode rq =>
               exists link,
                 Html.get (snd inode) (py "value") = Some link /\
                 rq = updates_request dir max_age (fst inode) (snd inode) link)
            (firstn k l) rqs /\
    (k <= List.length l)%nat /\
    (is_ok (fst (for_each (edition_body dir max_age) l s)) = true -> k = List.length l).
Proof.
  induction l as [|[i node] l IH]; intros s.
  - exists 0%nat, []. cbn. rewrite app_nil_r. repeat split; auto; constructor.
  - rewrite for_each_cons.
    destruct (edition_body_spec dir max_age i node s)
      as [(G & ->)|(link & r & s1 & G & -> & R & _)].
    + exists 0%nat, []. cbn. rewrite app_nil_r.
      repeat split; [constructor|lia|discriminate].
    + destruct r as [ys|e].
      * destruct (IH s1) as (k & rqs & Hr & F & Hk & Hok).
        exists (S k), (updates_request dir max_age i node link :: rqs). split; [|split].
        -- destruct (for_each _ l s1) as [[zs|e] s2]; cbn [snd] in *;
             rewrite Hr, R, <- app_assoc; reflexivity.
        -- cbn [firstn]. constructor; [exists link; auto|exact F].
        -- cbn [List.length]. split; [lia|].
           destruct (for_each _ l s1) as [[zs|e] s2]; cbn [fst is_ok] in *;
             [intros _; rewrite Hok; reflexivity|discriminate].
      * exists 1%nat, [updates_request dir max_age i node link]. cbn [snd firstn fst is_ok].
        split; [exact R|]. split; [constructor; [exists link; auto|constructor]|].
        cbn [List.length]. split; [lia|discriminate].
Qed.

Lemma older_editions_no_download dir max_age l : forall s,
  Forall (fun inode => fst inode <> 0%nat /\
                       cache_lookup (updates_path dir (snd inode)) (cache s) <> None) l ->
  downloads (snd (for_each (edition_body dir max_age) l s)) = downloads s.
Proof.
  induction l as [|[i node] l IH]; intros s F; [reflexivity|].
  inversion F as [|? ? [Hi Hc] F']; subst. cbn [fst snd] in *.
  rewrite for_each_cons.
  destruct (edition_body_spec dir max_age i node s)
    as [(G & ->)|(link & r & s1 & G & -> & R & D & C)]; [reflexivity|].
  assert (D' : downloads s1 = downloads s).
  { destruct D as [D|[_ D]]; [exact D|]. specialize (D Hi). contradiction. }
  destruct r as [ys|e]; [|exact D'].
  assert (E : downloads (snd (for_each (edition_body dir max_age) l s1)) = downloads s1).
  { apply IH. eapply Forall_impl; [|exact F']. intros [j n] [Hj Hn]. auto. }
  destruct (for_each _ l s1) as [[zs|e] s2]; cbn [snd] in *; congruence.
Qed.

Lemma enumerate_from_snd {A} (l : list A) : forall i, map snd (enumerate_from i l) = l.
Proof. induction l as [|x l IH]; intros i; cbn; [reflexivity|]. now rewrite IH. Qed.

Lemma enumerate_from_fst {A} (l : list A) : forall i,
  Forall (fun inode => (i <= fst inode)%nat) (enumerate_from i l).
Proof.
  induction l as [|x l IH]; intros i; cbn [enumerate_from]; constructor.
  - cbn. lia.
  - eapply Forall_impl; [|apply (IH (S i))]. cbn. intros; lia.
Qed.

Lemma read_versions_unfold dir max_age s :
  exists doc s1,
    get SO_FIFA_API (joinpath dir (py "index.html")) (Some max_age) s = (Ok doc, s1) /\
    editions dir max_age s
    = Html.xpath (html doc) (py "//header/section/p/select[1]/option") /\
    read_versions dir max_age s
    = match for_each (edition_body dir max_age) (enumerate (editions dir max_age s)) s1 with
      | (Ok records, s2) => (versions_frame records, s2)
      | (Err e, s2) => (Err e, s2)
      end.
Proof.
  destruct (get_ok SO_FIFA_API (joinpath dir (py "index.html")) (Some max_age) s)
    as (doc & s1 & G).
  exists doc, s1. split; [exact G|]. unfold editions. rewrite G. cbn [fst].
  split; [reflexivity|]. unfold read_versions, bindIO, lift. rewrite G. reflexivity.
Qed.

(** A turn of the loop over the editions whose option has a link is a
    fetch followed by the parse of the page. *)
Lemma edition_body_fetch dir max_age inode link s :
  Html.get (snd inode) (py "value") = Some link ->
  edition_body dir max_age inode s
  = fetch_then (edition_request dir max_age)
      (fun inode page => lift (map_result (parse_update (Html.text (snd inode)))
                                 (update_options page))) inode s.
Proof.
  destruct inode as [i node]. cbn [snd]. intros G.
  unfold edition_body, fetch_then, edition_request, edition_link, updates_request, lift.
  cbn [fst snd req_url req_path req_max_age]. unfold bindIO at 1. rewrite G. reflexivity.
Qed.

Lemma editions_loop_fetch dir max_age l : forall s ys s',
  for_each (edition_body dir max_age) l s = (Ok ys, s') ->
  Forall (fun inode => Html.get (snd inode) (py "value") <> None) l /\
  for_each (fetch_then (edition_request dir max_age)
              (fun inode page => lift (map_result (parse_update (Html.text (snd inode)))
                                         (update_options page)))) l s = (Ok ys, s').
Proof.
  induction l as [|[i node] l IH]; intros s ys s' H.
  - split; [constructor|exact H].
  - rewrite for_each_cons in H |- *.
    destruct (Html.get node (py "value")) as [link|] eqn:G.
    2:{ unfold edition_body, bindIO, lift in H. rewrite G in H. discriminate. }
    rewrite <- (edition_body_fetch dir max_age (i, node) link s G).
    destruct (edition_body dir max_age (i, node) s) as [[c|] s1]; [|discriminate].
    destruct (for_each (edition_body dir max_age) l s1) as [[zs|] s2] eqn:Fl;
      [|discriminate].
    destruct (IH _ _ _ Fl) as [F ->]. split; [|exact H].
    constructor; [cbn [snd]; congruence|exact F].
Qed.

(** What a fetch downloads. *)
Lemma get_downloads url p ma s :
  downloads (snd (get url p ma s))
  = downloads s
    ++ (if served {| req_url := url; req_path := p; req_max_age := ma |} s
        then [] else [url]).
Proof.
  unfold get, served. cbn [req_path req_max_age].
  destruct (cache_lookup p (cache s)) as [e|]; [|reflexivity].
  destruct (fresh ma (age e)); cbn [snd downloads]; [now rewrite app_nil_r|reflexivity].
Qed.

(** A fetch leaves the other cache files as they are. *)
Lemma get_other_path url p ma s q :
  path_eqb p q = false ->
  cache_lookup q (cache (snd (get url p ma s))) = cache_lookup q (cache s).
Proof.
  intros N. unfold get.
  destruct (match cache_lookup p (cache s) with Some _ => _ | None => _ end);
    cbn [snd cache]; [reflexivity|].
  unfold cache_lookup. cbn [find fst]. rewrite N. reflexivity.
Qed.

Lemma index_is_no_update_page d node :
  path_eqb (joinpath d (py "index.html")) (updates_path d node) = false.
Proof.
  unfold path_eqb, updates_path, joinpath. cbn [dir name].
  apply andb_false_intro2. reflexivity.
Qed.

(** The calls of [read_versions], whatever its outcome. *)
Lemma read_versions_requests dir max_age s :
  exists k rqs,
    requests (snd (read_versions dir max_age s))
    = requests s ++ index_request dir max_age :: rqs /\
    Forall2 (fun inode rq =>
               exists link,
                 Html.get (snd inode) (py "value") = Some link /\
                 rq = updates_request dir max_age (fst inode) (snd inode) link)
            (firstn k (enumerate (editions dir max_age s))) rqs /\
    (k <= List.length (editions dir max_age s))%nat /\
    (is_ok (fst (read_versions dir max_age s)) = true ->
     k = List.length (editions dir max_age s)).
Proof.
  destruct (read_versions_unfold dir max_age s) as (doc & s1 & G & _ & U).
  destruct (get_spec SO_FIFA_API (joinpath dir (py "index.html")) (Some max_age) s)
    as (doc' & s1' & G' & R & _).
  rewrite G in G'. injection G' as <- <-.
  destruct (editions_loop_requests dir max_age (enumerate (editions dir max_age s)) s1)
    as (k & rqs & Hr & F & Hk & Hok).
  assert (L : List.length (enumerate (editions dir max_age s))
              = List.length (editions dir max_age s)).
  { unfold enumerate. rewrite <- (enumerate_from_snd (editions dir max_age s) 0) at 2.
    symmetry. apply length_map. }
  rewrite L in Hk, Hok. exists k, rqs. rewrite U.
  destruct (for_each _ _ s1) as [[records|e] s2]; cbn [fst snd] in *.
  - split; [rewrite Hr, R, <- app_assoc; reflexivity|]. split; [exact F|].
    split; [exact Hk|]. intros _. apply Hok. reflexivity.
  - split; [rewrite Hr, R, <- app_assoc; reflexivity|]. split; [exact F|].
    split; [exact Hk|]. discriminate.
Qed.

(** When [read_versions] returns a table, every option of the home page
    has a link, and the session is that of its fetches: the home page, then
    the update page of each edition, in the order of the home page. *)
Lemma read_versions_session dir max_age s frame s' :
  read_versions dir max_age s = (Ok frame, s') ->
  Forall (fun node => Html.get node (py "value") <> None) (editions dir max_age s) /\
  s' = snd (fetch_all (index_request dir max_age
                       :: map (edition_request dir max_age)
                            (enumerate (editions dir max_age s))) s).
Proof.
  intros H. destruct (read_versions_unfold dir max_age s) as (doc & s1 & G & _ & U).
  rewrite U in H.
  destruct (for_each _ _ s1) as [[records|e] s2] eqn:Fl; [|discriminate].
  assert (s2 = s') by congruence. subst s2.
  apply editions_loop_fetch in Fl. destruct Fl as [F Fl].
  apply fetch_loop_pure in Fl. destruct Fl as (-> & _). split.
  - rewrite Forall_forall in *. intros node I.
    rewrite <- (enumerate_from_snd (editions dir max_age s) 0) in I.
    apply in_map_iff in I. destruct I as ([i n] & <- & I). exact (F _ I).
  - rewrite fetch_all_cons.
    change (req_url (index_request dir max_age)) with SO_FIFA_API.
    change (req_path (index_request dir max_age)) with (joinpath dir (py "index.html")).
    change (req_max_age (index_request dir max_age)) with (Some max_age).
    rewrite G. reflexivity.
Qed.

(** What a successful call downloads when the update pages of the older
    editions are in the cache. *)
Lemma read_versions_downloads dir max_age s frame s' :
  Forall (fun node => cache_lookup (updates_path dir node) (cache s) <> None)
         (tl (editions dir max_age s)) ->
  read_versions dir max_age s = (Ok frame, s') ->
  downloads s'
  = downloads s
    ++ (if served (index_request dir max_age) s then [] else [SO_FIFA_API])
    ++ match editions dir max_age s with
       | [] => []
       | node :: _ =>
           if served (edition_request dir max_age (0%nat, node)) s then []
           else [SO_FIFA_API ++ edition_link node]
       end.
Proof.
  intros F H.
  destruct (read_versions_unfold dir max_age s) as (doc & s1 & G & _ & U).
  rewrite U in H.
  destruct (for_each _ _ s1) as [[records|e] s2] eqn:Fl; [|discriminate].
  assert (s2 = s') by congruence. subst s2. clear H U.
  pose proof (get_downloads SO_FIFA_API (joinpath dir (py "index.html"))
                (Some max_age) s) as D1.
  rewrite G in D1. cbn [snd] in D1. fold (index_request dir max_age) in D1.
  assert (C1 : forall node,
             cache_lookup (updates_path dir node) (cache s1)
             = cache_lookup (updates_path dir node) (cache s)).
  { intros node.
    pose proof (get_other_path SO_FIFA_API (joinpath dir (py "index.html"))
                  (Some max_age) s (updates_path dir node)
                  (index_is_no_update_page dir node)) as X.
    rewrite G in X. exact X. }
  unfold enumerate in Fl.
  destruct (editions dir max_age s) as [|node older]; cbn [tl enumerate_from] in *.
  - cbn [for_each] in Fl. unfold ret in Fl. assert (s' = s1) by congruence. subst s'.
    rewrite D1, app_nil_r. reflexivity.
  - rewrite for_each_cons in Fl.
    destruct (Html.get node (py "value")) as [link|] eqn:Gv.
    2:{ unfold edition_body, bindIO, lift in Fl. rewrite Gv in Fl. discriminate. }
    rewrite (edition_body_fetch dir max_age (0%nat, node) link s1 Gv) in Fl.
    unfold fetch_then, bindIO, lift in Fl.
    pose proof (get_downloads (req_url (edition_request dir max_age (0%nat, node)))
                  (req_path (edition_request dir max_age (0%nat, node)))
                  (req_max_age (edition_request dir max_age (0%nat, node))) s1) as D2.
    destruct (get_spec (req_url (edition_request dir max_age (0%nat, node)))
                (req_path (edition_request dir max_age (0%nat, node)))
                (req_max_age (edition_request dir max_age (0%nat, node))) s1)
      as (page & s2 & G2 & _ & _ & _ & C2).
    rewrite G2 in Fl, D2. cbn [snd] in D2.
    destruct (map_result _ _) as [c|]; [|discriminate].
    assert (F2 : Forall (fun inode =>
                           fst inode <> 0%nat /\
                           cache_lookup (updates_path dir (snd inode)) (cache s2) <> None)
                   (enumerate_from 1 older)).
    { pose proof (enumerate_from_fst older 1) as P.
      pose proof (enumerate_from_snd older 1) as Q.
      rewrite Forall_forall in *. intros [j n] I. cbn [fst snd].
      split; [specialize (P _ I); cbn in P; lia|].
      apply C2. rewrite C1. apply F. rewrite <- Q. apply (in_map snd _ _ I). }
    pose proof (older_editions_no_download dir max_age _ s2 F2) as D3.
    destruct (for_each _ (enumerate_from 1 older) s2) as [[zs|] s3]; [|discriminate].
    cbn [snd] in D3. assert (s3 = s') by congruence. subst s3.
    rewrite D3, D2, D1, <- app_assoc. f_equal. f_equal.
    assert (S2 : served (edition_request dir max_age (0%nat, node)) s1
                 = served (edition_request dir max_age (0%nat, node)) s).
    { unfold served. cbn [req_path edition_request updates_request fst snd].
      rewrite C1. reflexivity. }
    destruct (edition_request dir max_age (0%nat, node)) as [u p m] eqn:Er.
    cbn [req_url req_path req_max_age] in *. rewrite S2.
    assert (u = SO_FIFA_API ++ edition_link node).
    { unfold edition_request, updates_request in Er. cbn [fst snd] in Er. congruence. }
    subst u. reflexivity.
Qed.

(** What any call downloads at most, in the same situation. *)
Lemma read_versions_downloads_bound dir max_age s :
  Forall (fun node => cache_lookup (updates_path dir node) (cache s) <> None)
         (tl (editions dir max_age s)) ->
  exists d,
    downloads (snd (read_versions dir max_age s)) = downloads s ++ d /\
    forall u, In u d ->
      u = SO_FIFA_API \/
      exists node link,
        hd_error (editions dir max_age s) = Some node /\
        Html.get node (py "value") = Some link /\ u = SO_FIFA_API ++ link.
Proof.
  unfold editions.
  destruct (get_spec SO_FIFA_API (joinpath dir (py "index.html")) (Some max_age) s)
    as (doc & s1 & G & R & _ & D & C).
  assert (U : read_versions dir max_age s
              = match for_each (edition_body dir max_age)
                        (enumerate (Html.xpath (html doc)
                                      (py "//header/section/p/select[1]/option"))) s1 with
                | (Ok records, s2) => (versions_frame records, s2)
                | (Err e, s2) => (Err e, s2)
                end).
  { unfold read_versions, bindIO, lift. rewrite G. reflexivity. }
  rewrite G. cbn [fst].
  set (nodes := Html.xpath (html doc) (py "//header/section/p/select[1]/option")) in *.
  assert (Snd : snd (read_versions dir max_age s)
                = snd (for_each (edition_body dir max_age) (enumerate nodes) s1)).
  { rewrite U. destruct (for_each _ _ s1) as [[records|e] s2]; reflexivity. }
  rewrite Snd.
  intros F. unfold enumerate.
  destruct nodes as [|node older]; cbn [tl enumerate_from hd_error] in *.
  - cbn [for_each ret snd]. destruct D as [->| ->].
    + exists []. rewrite app_nil_r. split; [reflexivity|]. intros u [].
    + exists [SO_FIFA_API]. split; [reflexivity|]. intros u [<-|[]]. now left.
  - rewrite for_each_cons.
    assert (F1 : Forall (fun node => cache_lookup (updates_path dir node) (cache s1) <> None)
                   older).
    { eapply Forall_impl; [|exact F]. intros n Hn. apply C, Hn. }
    assert (K : forall s2 d2,
               downloads s2 = downloads s ++ d2 ->
               (forall p, cache_lookup p (cache s1) <> None ->
                          cache_lookup p (cache s2) <> None) ->
               downloads (snd (for_each (edition_body dir max_age)
                                 (enumerate_from 1 older) s2)) = downloads s ++ d2).
    { intros s2 d2 E2 C2. rewrite older_editions_no_download; [exact E2|].
      pose proof (enumerate_from_fst older 1) as P.
      pose proof (enumerate_from_snd older 1) as Q.
      rewrite Forall_forall in *. intros [j n] I. cbn [fst snd].
      split; [specialize (P _ I); cbn in P; lia|].
      apply C2, F1. rewrite <- Q. apply (in_map snd _ _ I). }
    destruct (edition_body_spec dir max_age 0 node s1)
      as [(Gv & ->)|(link & r & s2 & Gv & -> & _ & D2 & C2)].
    + cbn [snd]. destruct D as [->| ->].
      * exists []. rewrite app_nil_r. split; [reflexivity|]. intros u [].
      * exists [SO_FIFA_API]. split; [reflexivity|]. intros u [<-|[]]. now left.
    + assert (exists d2, downloads s2 = downloads s ++ d2 /\
                forall u, In u d2 -> u = SO_FIFA_API \/ u = SO_FIFA_API ++ link)
        as (d2 & E2 & I2).
      { destruct D as [D| D], D2 as [D2|[D2 _]]; rewrite D2, D.
        - exists []. rewrite app_nil_r. split; [reflexivity|]. intros u [].
        - exists [SO_FIFA_API ++ link]. split; [reflexivity|]. intros u [<-|[]]. now right.
        - exists [SO_FIFA_API]. split; [reflexivity|]. intros u [<-|[]]. now left.
        - exists [SO_FIFA_API; SO_FIFA_API ++ link]. rewrite <- app_assoc.
          split; [reflexivity|]. intros u [<-|[<-|[]]]; auto. }
      exists d2. split.
      * destruct r as [ys|e]; [|exact E2].
         specialize (K s2 d2 E2 C2).
         destruct (for_each _ (enumerate_from 1 older) s2) as [[zs|e] s3]; exact K.
      * intros u Hu. destruct (I2 u Hu) as [->| ->]; [now left|right].
         exists node, link. auto.
Qed.

(** C9.  [read_versions] asks for the home page with the caller's
    [max_age], and for the update page of the [i]-th edition with the
    caller's [max_age] when [i] is 0 and with [None] otherwise: the calls
    are those, in the order of the home page, up to the edition that fails
    if one does and all of them when a table is returned, and the session a
    table is returned in is the session of exactly those fetches.  A call
    with [None] is answered from the cache whenever the document is there,
    whatever its age, and downloads nothing.  So, when the update pages of
    the older editions are in the cache, what a successful call downloads
    is the home page and the update page of the first edition, each unless
    the cache holds a copy younger than [max_age]; and whatever the outcome
    nothing else is downloaded. *)
Theorem older_editions_trust_cache dir max_age s :
  (exists k rqs,
     requests (snd (read_versions dir max_age s))
     = requests s ++ index_request dir max_age :: rqs /\
     Forall2 (fun inode rq =>
                exists link,
                  Html.get (snd inode) (py "value") = Some link /\
                  rq = updates_request dir max_age (fst inode) (snd inode) link)
             (firstn k (enumerate (editions dir max_age s))) rqs /\
     (k <= List.length (editions dir max_age s))%nat /\
     (is_ok (fst (read_versions dir max_age s)) = true ->
      k = List.length (editions dir max_age s)))
  /\
  (forall frame s',
     read_versions dir max_age s = (Ok frame, s') ->
     Forall (fun node => Html.get node (py "value") <> None) (editions dir max_age s) /\
     s' = snd (fetch_all (index_request dir max_age
                          :: map (edition_request dir max_age)
                               (enumerate (editions dir max_age s))) s))
  /\
  (forall url filepath s0 e,
     cache_lookup filepath (cache s0) = Some e ->
     fst (get url filepath (Some None) s0) = Ok (content e) /\
     downloads (snd (get url filepath (Some None) s0)) = downloads s0 /\
     cache (snd (get url filepath (Some None) s0)) = cache s0)
  /\
  (Forall (fun node => cache_lookup (updates_path dir node) (cache s) <> None)
          (tl (editions dir max_age s)) ->
   forall frame s',
     read_versions dir max_age s = (Ok frame, s') ->
     downloads s'
     = downloads s
       ++ (if served (index_request dir max_age) s then [] else [SO_FIFA_API])
       ++ match editions dir max_age s with
          | [] => []
          | node :: _ =>
              if served (edition_request dir max_age (0%nat, node)) s then []
              else [SO_FIFA_API ++ edition_link node]
          end)
  /\
  (Forall (fun node => cache_lookup (updates_path dir node) (cache s) <> None)
          (tl (editions dir max_age s)) ->
   exists d,
     downloads (snd (read_versions dir max_age s)) = downloads s ++ d /\
     forall u, In u d ->
       u = SO_FIFA_API \/
       exists node link,
         hd_error (editions dir max_age s) = Some node /\
         Html.get node (py "value") = Some link /\ u = SO_FIFA_API ++ link).
Proof.
  split; [apply read_versions_requests|].
  split; [intros frame s'; apply read_versions_session|].
  split; [intros url filepath s0 e L; unfold get; rewrite L; cbn [fresh]; auto|].
  split.
  - intros F frame s'. apply read_versions_downloads, F.
  - apply read_versions_downloads_bound.
Qed.

(** ** Dictionaries *)

Lemma pystr_eqb_eq a : forall b, pystr_eqb a b = true <-> a = b.
Proof.
  induction a as [|x a IH]; intros [|y b]; cbn [pystr_eqb]; split; try congruence.
  - rewrite andb_true_iff, Z.eqb_eq, IH. intros [-> ->]. reflexivity.
  - intros [= -> ->]. rewrite Z.eqb_refl. apply IH. reflexivity.
Qed.

Lemma dict_get_set_same k v d : dict_get k (dict_set k v d) = Some v.
Proof.
  unfold dict_get. induction d as [|[k' v'] d IH]; cbn [dict_set find fst].
  - rewrite (proj2 (pystr_eqb_eq k k) eq_refl). reflexivity.
  - destruct (pystr_eqb k' k) eqn:E; cbn [find fst].
    + rewrite (proj2 (pystr_eqb_eq k k) eq_refl). reflexivity.
    + rewrite E. exact IH.
Qed.

Lemma dict_get_set_other k k' v d :
  pystr_eqb k' k = false -> dict_get k (dict_set k' v d) = dict_get k d.
Proof.
  intros N. unfold dict_get. induction d as [|[k0 v0] d IH]; cbn [dict_set find fst].
  - rewrite N. reflexivity.
  - destruct (pystr_eqb k0 k') eqn:E; cbn [find fst].
    + apply pystr_eqb_eq in E. subst k0. rewrite N. reflexivity.
    + destruct (pystr_eqb k0 k); [reflexivity|]. exact IH.
Qed.

(** A label no query finds is left as [None], and the loop goes on. *)
Lemma extract_scores_missing tree k labels : forall scores0 scores,
  Forall (fun q => Html.xpath tree q = []) (score_xpaths k) ->
  extract_scores tree labels scores0 = Ok scores ->
  (exists s, In s labels /\ py s = k) \/ dict_get k scores0 = Some VNone ->
  dict_get k scores = Some VNone.
Proof.
  intros scores0 scores F. revert scores0.
  induction labels as [|s labels IH]; intros scores0 H C; cbn [extract_scores] in H.
  - injection H as <-. destruct C as [(s & [] & _)|C]. exact C.
  - destruct (extract_score tree (py s)) as [value|] eqn:E; [|discriminate].
    cbn [bind] in H. apply (IH _ H).
    destruct (pystr_eqb (py s) k) eqn:K.
    + right. apply pystr_eqb_eq in K. subst k.
      unfold extract_score in E. rewrite (first_match_none _ _ F) in E.
      injection E as <-. apply dict_get_set_same.
    + destruct C as [(s' & [->|I] & Hs)|C].
      * rewrite Hs in K. rewrite (proj2 (pystr_eqb_eq k k) eq_refl) in K. discriminate.
      * left. eauto.
      * right. rewrite dict_get_set_other by exact K. exact C.
Qed.

Lemma normalize_currency_missing k scores :
  dict_get k scores = Some VNone -> normalize_currency k scores = Err (Builtin "TypeError").
Proof. intros H. unfold normalize_currency, dict_item. rewrite H. reflexivity. Qed.

(** A rating cell that is missing from a row of [read_team_ratings] is
    null, with a warning, and the row goes on. *)
Lemma missing_rating_cell node key desc s :
  Html.xpath_text node (py ".//td[@data-col='" ++ py key ++ py "']//text()") = [] ->
  fst (rating_cell node (key, desc) s) = Ok (py desc, None) /\
  warnings (snd (rating_cell node (key, desc) s))
  = warnings s
    ++ [py "Could not parse " ++ py desc ++ py " (" ++ py key ++ py ") stat."].
Proof.
  intros H. unfold rating_cell, safe_xpath_text, bindIO. rewrite H.
  unfold warning, ret. cbn [fst snd warnings]. auto.
Qed.

(** When no query finds a label, the loop over the labels leaves it as
    null, and the normalisation of that null raises. *)
Lemma missing_amount_in_general tree k scores0 scores :
  Forall (fun q => Html.xpath tree q = []) (score_xpaths k) ->
  (exists s, In s score_labels /\ py s = k) ->
  extract_scores tree score_labels scores0 = Ok scores ->
  dict_get k scores = Some VNone /\
  normalize_currency k scores = Err (Builtin "TypeError").
Proof.
  intros F I H.
  assert (G : dict_get k scores = Some VNone).
  { apply (extract_scores_missing tree k score_labels scores0 scores F H). now left. }
  split; [exact G|]. apply normalize_currency_missing, G.
Qed.

(** C4.  On a profile page where no query finds the wage, the record is
    not completed: the missing value reaches [remove_currency], which raises
    a [TypeError].  On a page where no query finds a label other than the
    two amounts, that label is left as null and the record is completed. *)
Theorem missing_wage_aborts_record :
  player_scores Example.version_24 231747
    (Example.profile Example.basic_info_line ["Wage"%string] 0)
  = Err (Builtin "TypeError")
  /\
  (exists scores,
     player_scores Example.version_24 231747
       (Example.profile Example.basic_info_line ["Vision"%string] 0) = Ok scores /\
     dict_get (py "Vision") scores = Some VNone /\
     dict_get (py "Wage") scores = Some (VStr (py "250000"))).
Proof.
  split; [vm_compute; reflexivity|].
  eexists. split; [vm_compute; reflexivity|]. split; vm_compute; reflexivity.
Qed.

(** ** Score extraction: the record *)

(** The loop over the labels sets the field of each label to what the
    queries of the label give, and leaves the other fields as they are. *)
Lemma extract_scores_sets tree k labels : forall scores0 scores,
  extract_scores tree labels scores0 = Ok scores ->
  (exists l, In l labels /\ py l = k) \/
  (exists value, extract_score tree k = Ok value /\
                 dict_get k scores0 = Some (of_option value)) ->
  exists value, extract_score tree k = Ok value /\
                dict_get k scores = Some (of_option value).
Proof.
  induction labels as [|a labels IH]; intros scores0 scores H C; cbn [extract_scores] in H.
  - injection H as <-. destruct C as [(l & [] & _)|C]. exact C.
  - destruct (extract_score tree (py a)) as [value|] eqn:E; [|discriminate].
    cbn [bind] in H. apply (IH _ _ H).
    destruct (pystr_eqb (py a) k) eqn:K.
    + right. apply pystr_eqb_eq in K. subst k. exists value.
      split; [exact E|apply dict_get_set_same].
    + destruct C as [(l & [->|I] & Hl)|(v & Ev & G)].
      * rewrite Hl in K. rewrite (proj2 (pystr_eqb_eq k k) eq_refl) in K. discriminate.
      * left. eauto.
      * right. exists v. rewrite dict_get_set_other by exact K. auto.
Qed.

Lemma extract_scores_keeps tree k labels : forall scores0 scores,
  extract_scores tree labels scores0 = Ok scores ->
  (forall l, In l labels -> py l <> k) ->
  dict_get k scores = dict_get k scores0.
Proof.
  induction labels as [|a labels IH]; intros scores0 scores H N; cbn [extract_scores] in H.
  - now injection H as <-.
  - destruct (extract_score tree (py a)) as [value|]; [|discriminate]. cbn [bind] in H.
    rewrite (IH _ _ H); [|intros l I; apply N; now right].
    apply dict_get_set_other. destruct (pystr_eqb (py a) k) eqn:K; [|reflexivity].
    apply pystr_eqb_eq in K. exfalso. apply (N a); [now left|exact K].
Qed.

(** The end of a record: the loop over the labels, then the two
    amounts. *)
Lemma player_scores_tail version p tree scores :
  player_scores version p tree = Ok scores ->
  exists s2 s3 wage value rw rv,
    extract_scores tree score_labels s2 = Ok s3 /\
    dict_get (py "Wage") s3 = Some wage /\ remove_currency wage = Ok rw /\
    dict_get (py "Value") s3 = Some value /\ remove_currency value = Ok rv /\
    scores = dict_set (py "Value") (VStr rv) (dict_set (py "Wage") (VStr rw) s3).
Proof.
  unfold player_scores. intros H.
  destruct (first (Html.xpath tree _)) as [node|]; [|discriminate]. cbn [bind] in H.
  destruct (first (Html.xpath_text tree _)) as [simple_name|]; [|discriminate].
  cbn [bind] in H.
  destruct (parse_basic_info _ _ _) as [s1|]; [|discriminate]. cbn [bind] in H.
  destruct (first (Html.xpath_text tree _)) as [pos|]; [|discriminate]. cbn [bind] in H.
  destruct (first (Html.xpath_text tree _)) as [avatar|]; [|discriminate]. cbn [bind] in H.
  destruct (first (Html.xpath_text tree _)) as [name_line|]; [|discriminate].
  cbn [bind] in H.
  destruct (first (Html.xpath_text tree _)) as [capa|]; [|discriminate]. cbn [bind] in H.
  destruct (extract_points capa point_scores _) as [s2|]; [|discriminate].
  cbn [bind] in H.
  destruct (extract_scores tree score_labels s2) as [s3|] eqn:S; [|discriminate].
  cbn [bind] in H.
  unfold normalize_currency at 1 in H. unfold dict_item at 1 in H.
  destruct (dict_get (py "Wage") s3) as [wage|] eqn:W; [|discriminate]. cbn [bind] in H.
  destruct (remove_currency wage) as [rw|] eqn:Rw; [|discriminate]. cbn [bind] in H.
  unfold normalize_currency, dict_item in H.
  rewrite dict_get_set_other in H by (vm_compute; reflexivity).
  destruct (dict_get (py "Value") s3) as [value|] eqn:V; [|discriminate]. cbn [bind] in H.
  destruct (remove_currency value) as [rv|] eqn:Rv; [|discriminate]. cbn [bind] in H.
  exists s2, s3, wage, value, rw, rv. repeat split; auto. congruence.
Qed.

(** C6.  The three queries of a label are tried in their order.  The first
    one that finds a node gives the value, from the text of its first node
    alone, and no later query is evaluated.  When only the third finds a node
    the value is the stripped text of that node; when none finds one the
    value is null and all three have been evaluated.  The loop over the
    labels sets the field of every label to that value, null included, and
    touches no other field; in a record of [read_player_ratings] the field
    of every label is that value, after the removal of the currency for the
    wage and the value. *)
Theorem score_strategies_in_order tree s :
  (forall pre q post node more,
     score_xpaths s = pre ++ q :: post ->
     Forall (fun p => Html.xpath tree p = []) pre ->
     Html.xpath tree q = node :: more ->
     first_match tree (score_xpaths s)
     = ((value <- node_text_strip node ;; Ok (Some value))%result, pre ++ [q]))
  /\
  (forall q1 q2 q3 node more t,
     score_xpaths s = [q1; q2; q3] ->
     Html.xpath tree q1 = [] -> Html.xpath tree q2 = [] ->
     Html.xpath tree q3 = node :: more -> Html.text node = Some t ->
     extract_score tree s = Ok (Some (strip t)))
  /\
  (Forall (fun p => Html.xpath tree p = []) (score_xpaths s) ->
   first_match tree (score_xpaths s) = (Ok None, score_xpaths s) /\
   extract_score tree s = Ok None)
  /\
  (forall labels scores0 scores,
     extract_scores tree labels scores0 = Ok scores ->
     (forall l, In l labels ->
        exists value,
          extract_score tree (py l) = Ok value /\
          dict_get (py l) scores = Some (of_option value)) /\
     (forall k, (forall l, In l labels -> py l <> k) ->
        dict_get k scores = dict_get k scores0))
  /\
  (forall version p scores l,
     player_scores version p tree = Ok scores ->
     In l score_labels ->
     exists value,
       extract_score tree (py l) = Ok value /\
       if pystr_eqb (py l) (py "Wage") || pystr_eqb (py l) (py "Value")
       then exists r, remove_currency (of_option value) = Ok r /\
                      dict_get (py l) scores = Some (VStr r)
       else dict_get (py l) scores = Some (of_option value)).
Proof.
  split; [|split; [|split; [|split]]].
  - intros pre q post node more E F Hq. rewrite E.
    apply first_match_first with more; assumption.
  - intros q1 q2 q3 node more t E H1 H2 H3 Ht. unfold extract_score.
    rewrite E. change [q1; q2; q3] with ([q1; q2] ++ q3 :: []).
    rewrite (first_match_first tree [q1; q2] q3 [] node more).
    + cbn [fst]. unfold node_text_strip. rewrite Ht. reflexivity.
    + repeat constructor; assumption.
    + assumption.
  - intros F. unfold extract_score. rewrite (first_match_none _ _ F). auto.
  - intros labels scores0 scores H. split.
    + intros l I. apply (extract_scores_sets tree (py l) labels scores0 scores H).
      left. eauto.
    + intros k N. apply (extract_scores_keeps tree k labels scores0 scores H N).
  - intros version p scores l H I.
    destruct (player_scores_tail _ _ _ _ H)
      as (s2 & s3 & wage & value & rw & rv & S & W & Rw & V & Rv & ->).
    destruct (extract_scores_sets tree (py l) score_labels s2 s3 S) as (v & E & G).
    { left. eauto. }
    exists v. split; [exact E|].
    destruct (pystr_eqb (py l) (py "Wage")) eqn:Kw; cbn [orb].
    + apply pystr_eqb_eq in Kw. rewrite Kw in *. exists rw. split; [congruence|].
      rewrite dict_get_set_other by (vm_compute; reflexivity). apply dict_get_set_same.
    + destruct (pystr_eqb (py l) (py "Value")) eqn:Kv.
      * apply pystr_eqb_eq in Kv. rewrite Kv in *. exists rv. split; [congruence|].
        apply dict_get_set_same.
      * rewrite !dict_get_set_other by (rewrite pystr_eqb_sym; assumption). exact G.
Qed.

(** ** The statements at concrete pages *)

Lemma not_raises {A} cls (r : result A) e :
  r = Err e -> exn_class e <> cls -> ~ raises cls r.
Proof. intros -> N (e' & [= <-] & C). contradiction. Qed.



(** C2, counterexample: an [M] that is no suffix still multiplies by a
    million, where the reading by suffix multiplies by one. *)
Lemma remove_currency_not_by_suffix :
  remove_currency (VStr (py "M5")) = Ok (py "5000000")
  /\ normalize_amount magnitude_of_suffix (py "M5") = Ok (py "5").
Proof. split; vm_compute; reflexivity. Qed.

(** C2 at "€1.2M" and at its own output. *)
Lemma remove_currency_spec_witness :
  remove_currency (VStr (euro :: py "1.2M")) = Ok (py "1200000")
  /\ remove_currency (VStr (py "1200000")) = Ok (py "1200000").
Proof.
  destruct remove_currency_spec as (E & _ & _ & _ & I).
  split; [exact E|]. apply (I (euro :: py "1.2M")). exact E.
Defined.

(** C3, counterexample: for a team that does not exist the error is a
    [ValueError], raised after the league directory and the team listing
    have been downloaded. *)
Lemma unknown_team_raises_after_listing :
  let r := read_players Example.env Example.reader
             (Some (TeamStr (py "Nonexistent FC"))) (Example.session Example.league_site) in
  fst r = Err no_data_found
  /\ ~ raises "NoDataError" (fst r)
  /\ downloads (snd r)
     = [py "https://sofifa.com/api/league";
        py "https://sofifa.com/teams?lg=13&r=240050&set=true"].
Proof.
  cbv zeta.
  assert (E : fst (read_players Example.env Example.reader
                     (Some (TeamStr (py "Nonexistent FC")))
                     (Example.session Example.league_site)) = Err no_data_found)
    by (vm_compute; reflexivity).
  split; [exact E|]. split; [apply (not_raises _ _ _ E); discriminate|].
  vm_compute. reflexivity.
Qed.

(** C3 at a team that does not exist and at one that does. *)
Lemma read_players_filter_witness :
  (exists df s1,
     read_teams Example.env Example.reader (Example.session Example.league_site)
       = (Ok df, s1) /\
     read_players Example.env Example.reader (Some (TeamStr (py "Nonexistent FC")))
       (Example.session Example.league_site) = (Err no_data_found, s1))
  /\
  (exists rows s',
     read_players Example.env Example.reader (Some (TeamStr (py "Arsenal")))
       (Example.session Example.league_site) = (Ok rows, s') /\
     Forall (fun r => isin (player_team r) [py "Arsenal"] = true) rows).
Proof.
  split.
  - do 2 eexists. split; [vm_compute; reflexivity|].
    eapply (proj1 (read_players_filter Example.env Example.reader
                     (TeamStr (py "Nonexistent FC"))
                     (Example.session Example.league_site))).
    + vm_compute. reflexivity.
    + vm_compute. reflexivity.
  - do 2 eexists. split; [vm_compute; reflexivity|].
    eapply (proj2 (read_players_filter Example.env Example.reader
                     (TeamStr (py "Arsenal"))
                     (Example.session Example.league_site))).
    vm_compute. reflexivity.
Defined.

(** C5, counterexample: an identifier listed twice is twice in the index. *)
Lemma repeated_version_ids :
  exists frame,
    fst (read_versions Example.dir (Some 1) (Example.session Example.twice_site)) = Ok frame
    /\ map version_id frame = [230054; 240050; 240050]
    /\ ~ NoDup (map version_id frame).
Proof.
  eexists. split; [vm_compute; reflexivity|]. split; [reflexivity|].
  cbn [map version_id]. intros N. inversion N as [|? ? _ N']; subst.
  inversion N' as [|? ? I _]; subst. apply I. left. reflexivity.
Qed.

(** C5 at a site with three versions. *)
Lemma versions_sorted_latest_max_witness :
  (exists frame s',
     read_versions Example.dir (Some 1) (Example.session Example.good_site) = (Ok frame, s')
     /\ StronglySorted Z.le (map version_id frame)
     /\ NoDup (map version_id frame)
     /\ StronglySorted Z.lt (map version_id frame))
  /\
  (exists self s' all row,
     __init__ Example.env Example.dir [] (VersionsStr (py "latest"))
       (Example.session Example.good_site) = (Ok self, s')
     /\ read_versions Example.dir (MAXAGE Example.env) (Example.session Example.good_site)
        = (Ok all, s')
     /\ versions self = [row] /\ In row all
     /\ forall r, In r all -> version_id r <= version_id row).
Proof.
  destruct (versions_sorted_latest_max Example.env Example.dir []
              (Example.session Example.good_site)) as [H1 H2].
  split.
  - eassert (R : read_versions Example.dir (Some 1) (Example.session Example.good_site)
                 = (Ok _, _)) by (vm_compute; reflexivity).
    destruct (H1 _ _ _ R) as [S L].
    do 2 eexists. split; [exact R|]. split; [exact S|].
    assert (N : NoDup (map version_id
                   [ {| version_id := 230054; fifa_edition := Some (py "FIFA 23");
                        update := Some (py "Sep 1, 2023") |};
                     {| version_id := 240049; fifa_edition := Some (py "FC 24");
                        update := Some (py "Aug 30, 2024") |};
                     {| version_id := 240050; fifa_edition := Some (py "FC 24");
                        update := Some (py "Sep 6, 2024") |} ])).
    { cbn [map version_id]. repeat constructor; cbn; intuition discriminate. }
    split; [exact N|]. exact (L N).
  - eassert (Hi : __init__ Example.env Example.dir [] (VersionsStr (py "latest"))
                    (Example.session Example.good_site) = (Ok _, _))
      by (vm_compute; reflexivity).
    destruct (H2 _ _ Hi) as (all & row & R & V & I & M).
    do 2 eexists. exists all, row. split; [exact Hi|]. auto.
Defined.

(** C6 at a page whose values sit where the third query looks, at one
    where they sit where the first looks, and at one without the label; and
    in the records of the first and the last of these pages. *)
Lemma score_strategies_in_order_witness :
  extract_score (Example.profile Example.basic_info_line [] 2) (py "Vision")
  = Ok (Some (py "85"))
  /\ snd (first_match (Example.profile Example.basic_info_line [] 0)
            (score_xpaths (py "Vision")))
     = [nth 0 (score_xpaths (py "Vision")) []]
  /\ extract_score (Example.profile Example.basic_info_line ["Vision"%string] 0)
       (py "Vision") = Ok None
  /\ (exists scores,
        player_scores Example.version_24 231747
          (Example.profile Example.basic_info_line [] 2) = Ok scores
        /\ dict_get (py "Vision") scores = Some (VStr (py "85")))
  /\ (exists scores,
        player_scores Example.version_24 231747
          (Example.profile Example.basic_info_line ["Vision"%string] 0) = Ok scores
        /\ dict_get (py "Vision") scores = Some VNone).
Proof.
  destruct (score_strategies_in_order
              (Example.profile Example.basic_info_line [] 2) (py "Vision"))
    as (_ & H2 & _ & _ & R2).
  destruct (score_strategies_in_order
              (Example.profile Example.basic_info_line [] 0) (py "Vision"))
    as (H1 & _ & _).
  destruct (score_strategies_in_order
              (Example.profile Example.basic_info_line ["Vision"%string] 0) (py "Vision"))
    as (_ & _ & H3 & _ & R3).
  assert (E2 : extract_score (Example.profile Example.basic_info_line [] 2) (py "Vision")
               = Ok (Some (py "85"))).
  { change (py "85") with (strip (py " 85 ")).
    eapply H2.
    + reflexivity.
    + vm_compute. reflexivity.
    + vm_compute. reflexivity.
    + vm_compute. reflexivity.
    + reflexivity. }
  assert (E3 : extract_score (Example.profile Example.basic_info_line ["Vision"%string] 0)
                 (py "Vision") = Ok None).
  { apply H3. repeat constructor. }
  split; [exact E2|]. split; [|split; [exact E3|split]].
  - erewrite (H1 []).
    + reflexivity.
    + reflexivity.
    + constructor.
    + vm_compute. reflexivity.
  - eassert (P : player_scores Example.version_24 231747
                   (Example.profile Example.basic_info_line [] 2) = Ok _)
      by (vm_compute; reflexivity).
    eexists. split; [exact P|].
    destruct (R2 _ _ _ "Vision"%string P) as (value & Ev & G).
    { vm_compute. tauto. }
    rewrite E2 in Ev. injection Ev as <-. exact G.
  - eassert (P : player_scores Example.version_24 231747
                   (Example.profile Example.basic_info_line ["Vision"%string] 0) = Ok _)
      by (vm_compute; reflexivity).
    eexists. split; [exact P|].
    destruct (R3 _ _ _ "Vision"%string P) as (value & Ev & G).
    { vm_compute. tauto. }
    rewrite E3 in Ev. injection Ev as <-. exact G.
Defined.

(** C7, counterexample: a line outside the grammar raises a [ValueError],
    no [ParseError]. *)
Lemma unknown_basic_info_raises_value_error :
  parse_basic_info 231747 [py Example.unknown_basic_info] []
  = Err (Raised "ValueError"
           (py "Basic information '23 years (Feb 5, 2001) 180cm / 75kg' not recognized for player 231747"))
  /\ ~ raises "ParseError" (parse_basic_info 231747 [py Example.unknown_basic_info] []).
Proof.
  assert (E : parse_basic_info 231747 [py Example.unknown_basic_info] []
              = Err (Raised "ValueError"
                       (py "Basic information '23 years (Feb 5, 2001) 180cm / 75kg' not recognized for player 231747")))
    by (vm_compute; reflexivity).
  split; [exact E|]. apply (not_raises _ _ _ E). discriminate.
Qed.

(** C7 at a line that spells the age out. *)
Lemma basic_info_parse_witness :
  parse_basic_info 231747 [py " "; py Example.unknown_basic_info] []
  = Err (Raised "ValueError"
           (py "Basic information '" ++ py Example.unknown_basic_info
            ++ py "' not recognized for player " ++ str_of_int 231747)).
Proof.
  apply (proj2 (basic_info_parse 231747)).
  - vm_compute. reflexivity.
  - vm_compute. reflexivity.
Defined.

(** C8, counterexample: the teams come in the order of the page, 5 before 3. *)
Lemma teams_not_sorted :
  exists frame,
    fst (read_teams Example.env Example.reader (Example.session Example.league_site))
      = Ok frame
    /\ map team_id frame = [5; 3]
    /\ ~ Sorted Z.le (map team_id frame).
Proof.
  eexists. split; [vm_compute; reflexivity|]. split; [reflexivity|].
  cbn [map team_id]. intros S. inversion S as [|? ? _ H]; subst.
  inversion H; subst. lia.
Qed.

(** C8 at a league with two teams. *)
Lemma tables_order_witness :
  (exists frame s' leagues s0 chunks,
     read_teams Example.env Example.reader (Example.session Example.league_site)
       = (Ok frame, s')
     /\ read_leagues Example.env Example.reader (Example.session Example.league_site)
        = (Ok leagues, s0)
     /\ List.length chunks = List.length (list_prod leagues (versions Example.reader))
     /\ frame = map (replace_in_team_row Example.env) (List.concat chunks))
  /\
  (exists frame s' teams s1 iterator chunks,
     read_players Example.env Example.reader None (Example.session Example.league_site)
       = (Ok frame, s')
     /\ read_teams Example.env Example.reader (Example.session Example.league_site)
        = (Ok teams, s1)
     /\ select_teams Example.env None teams = Ok iterator
     /\ List.length chunks = List.length (list_prod (versions Example.reader) iterator)
     /\ frame = List.concat chunks)
  /\
  (exists frame s',
     read_team_ratings Example.env Example.reader (Example.session Example.league_site)
       = (Ok frame, s')
     /\ Sorted (fun a b => rating_index_leb a b = true) frame).
Proof.
  destruct (tables_order Example.env Example.reader (Example.session Example.league_site))
    as (H1 & H2 & H3).
  split; [|split].
  - eassert (R : read_teams Example.env Example.reader
                   (Example.session Example.league_site) = (Ok _, _))
      by (vm_compute; reflexivity).
    destruct (H1 _ _ R) as (leagues & s0 & chunks & L & _ & N & E).
    do 2 eexists. exists leagues, s0, chunks. split; [exact R|]. auto.
  - eassert (R : read_players Example.env Example.reader None
                   (Example.session Example.league_site) = (Ok _, _))
      by (vm_compute; reflexivity).
    destruct (H2 _ _ _ R) as (teams & s1 & iterator & chunks & T & St & _ & N & E).
    do 2 eexists. exists teams, s1, iterator, chunks. split; [exact R|]. auto.
  - eassert (R : read_team_ratings Example.env Example.reader
                   (Example.session Example.league_site) = (Ok _, _))
      by (vm_compute; reflexivity).
    destruct (H3 _ _ R) as (S & _).
    do 2 eexists. split; [exact R|]. exact S.
Defined.

(** C9 at a session that holds an old copy of the older edition's page:
    both update pages are asked for, the first with the caller's limit and
    the second with none, and the home page and the first update page are
    downloaded, the second is not. *)
Lemma older_editions_trust_cache_witness :
  exists frame s',
    read_versions Example.dir (Some 1) Example.cached_session = (Ok frame, s')
    /\ (exists k rqs,
          requests s' = index_request Example.dir (Some 1) :: rqs /\
          List.length rqs = k /\ k = 2%nat)
    /\ s' = snd (fetch_all
                   (index_request Example.dir (Some 1)
                    :: map (edition_request Example.dir (Some 1))
                         (enumerate (editions Example.dir (Some 1)
                                       Example.cached_session)))
                   Example.cached_session)
    /\ downloads s' = [SO_FIFA_API; Example.url_24].
Proof.
  eassert (R : read_versions Example.dir (Some 1) Example.cached_session = (Ok _, _))
    by (vm_compute; reflexivity).
  assert (F : Forall (fun node =>
            cache_lookup (updates_path Example.dir node) (cache Example.cached_session)
            <> None)
         (tl (editions Example.dir (Some 1) Example.cached_session))).
  { repeat constructor. vm_compute. discriminate. }
  destruct (older_editions_trust_cache Example.dir (Some 1) Example.cached_session)
    as ((k & rqs & Q & F2 & _ & K) & P2 & _ & P4 & _).
  do 2 eexists. split; [exact R|]. split; [|split].
  - exists k, rqs. rewrite R in Q, K. cbn [fst snd is_ok] in Q, K.
    split; [exact Q|]. specialize (K eq_refl). split; [|exact K].
    apply Forall2_length in F2. rewrite <- F2, K. reflexivity.
  - exact (proj2 (P2 _ _ R)).
  - rewrite (P4 F _ _ R). reflexivity.
Defined.

(** C10 at one player and one version. *)
Lemma explicit_players_ignore_team_witness :
  requests (snd (read_player_ratings Example.env Example.reader
                   (Some (TeamStr (py "Arsenal"))) (Some (PlayerInt 231747))
                   (Example.session Example.profile_site)))
  = [profile_request Example.reader (Example.version_24, 231747)].
Proof.
  destruct (explicit_players_ignore_team Example.env Example.reader
              (Some (TeamStr (py "Arsenal"))) None (PlayerInt 231747)
              (Example.session Example.profile_site)) as (_ & k & _ & R & K).
  rewrite R, K; [reflexivity|]. vm_compute. reflexivity.
Defined.

(** * Further properties *)

(** ** Matching *)
Module ReFacts.
Import Re.

Lemma skipn_cons {A} (l : list A) : forall n c r,
  skipn n l = c :: r -> skipn (S n) l = r.
Proof.
  induction l as [|x l IH]; intros [|n] c r H; cbn in *; try discriminate.
  - now injection H as _ ->.
  - apply (IH n c r H).
Qed.

Lemma skipn_skipn_add {A} (l : list A) n m : skipn n (skipn m l) = skipn (m + n) l.
Proof.
  revert l. induction m as [|m IH]; intros l; [reflexivity|].
  destruct l as [|x l]; cbn [skipn Nat.add]; [now destruct n|]. apply IH.
Qed.

(** What a repetition has consumed when the match goes on. *)
Lemma rep_inv {A} s greedy (k : nat -> pystr -> option A) rest : forall lo hi pos x,
  rep s greedy k lo hi pos rest = Some x ->
  exists n,
    (lo <= n <= List.length rest)%nat /\
    Forall (fun c => cset_mem s c = true) (firstn n rest) /\
    k (pos + n)%nat (skipn n rest) = Some x.
Proof.
  induction rest as [|c r IH]; intros lo hi pos x H; cbn [rep] in H.
  - destruct lo; [|discriminate]. exists 0%nat. cbn. rewrite Nat.add_0_r.
    repeat split; auto.
  - assert (Stop : match lo with O => k pos (c :: r) | S _ => None end = Some x ->
                   exists n, (lo <= n <= List.length (c :: r))%nat /\
                     Forall (fun c => cset_mem s c = true) (firstn n (c :: r)) /\
                     k (pos + n)%nat (skipn n (c :: r)) = Some x).
    { destruct lo; [|discriminate]. intros K. exists 0%nat. cbn. rewrite Nat.add_0_r.
      repeat split; auto. lia. }
    assert (More : cset_mem s c = true ->
                   rep s greedy k (pred lo) (option_map pred hi) (S pos) r = Some x ->
                   exists n, (lo <= n <= List.length (c :: r))%nat /\
                     Forall (fun c => cset_mem s c = true) (firstn n (c :: r)) /\
                     k (pos + n)%nat (skipn n (c :: r)) = Some x).
    { intros M R. destruct (IH _ _ _ _ R) as (n & Hn & F & K).
      exists (S n). cbn [firstn skipn List.length]. repeat split; try lia.
      - constructor; assumption.
      - rewrite Nat.add_succ_r. exact K. }
    destruct (cset_mem s c) eqn:M; cbn [andb] in H; [|auto].
    destruct (may_repeat hi); [|auto].
    destruct greedy.
    + destruct (rep s true k (pred lo) (option_map pred hi) (S pos) r) eqn:R.
      * injection H as <-. auto.
      * auto.
    + destruct (match lo with O => k pos (c :: r) | S _ => None end) eqn:K.
      * injection H as <-. auto.
      * auto.
Qed.

(** A greedy repetition takes the whole run when the match goes on after it. *)
Lemma rep_greedy_run {A} s (k : nat -> pystr -> option A) run : forall tl lo pos x,
  Forall (fun c => cset_mem s c = true) run ->
  (lo <= List.length run)%nat ->
  k (pos + List.length run)%nat tl = Some x ->
  match tl with [] => True | c :: _ => cset_mem s c = false end ->
  rep s true k lo None pos (run ++ tl) = Some x.
Proof.
  induction run as [|d run IH]; intros tl lo pos x F L K T; cbn [app].
  - cbn in L, K. rewrite Nat.add_0_r in K. assert (lo = 0%nat) by lia. subst lo.
    destruct tl as [|c tl]; cbn [rep]; [exact K|]. rewrite T. exact K.
  - inversion F as [|? ? M F']; subst. cbn [rep]. rewrite M. cbn [andb may_repeat option_map].
    rewrite (IH tl (pred lo) (S pos) x F'); [reflexivity| cbn in L; lia | | exact T].
    cbn [List.length] in K. rewrite Nat.add_succ_r in K. exact K.
Qed.

(** Literal characters consume themselves. *)
Lemma exec_literals l : forall p pos rest cs,
  exec (map (fun c => Lit (One (Chr c))) l ++ p) pos (l ++ rest) cs
  = exec p (pos + List.length l)%nat rest cs.
Proof.
  induction l as [|c l IH]; intros p pos rest cs; cbn [map app List.length].
  - rewrite Nat.add_0_r. reflexivity.
  - cbn [exec cset_mem atom_mem]. rewrite Z.eqb_refl, IH. f_equal. lia.
Qed.

Lemma search_from_inv p rest : forall pos cs,
  search_from p pos rest = Some cs ->
  exists n, (n <= List.length rest)%nat /\
            exec p (pos + n)%nat (skipn n rest) no_captures = Some cs.
Proof.
  induction rest as [|c r IH]; intros pos cs H; cbn [search_from] in H.
  - destruct (exec p pos [] no_captures) eqn:E; [|discriminate].
    injection H as <-. exists 0%nat. cbn. rewrite Nat.add_0_r. auto.
  - destruct (exec p pos (c :: r) no_captures) eqn:E.
    + injection H as <-. exists 0%nat. cbn. rewrite Nat.add_0_r. split; [lia|exact E].
    + destruct (IH _ _ H) as (n & Hn & X). exists (S n). cbn [skipn List.length].
      rewrite Nat.add_succ_r. split; [lia|exact X].
Qed.


Lemma exec_eol p pos rest cs cs' :
  exec (Eol :: p) pos rest cs = Some cs' -> exec p pos rest cs = Some cs'.
Proof.
  cbn [exec]. destruct rest as [|c r]; [auto|].
  destruct c as [|q|q]; try discriminate.
  do 4 (destruct q as [q|q|]; try discriminate).
  destruct r; [auto|discriminate].
Qed.

(** A prefix of a pattern leaves the rest of the pattern to match further
    on in the same subject. *)
Lemma exec_prefix subject p1 : forall p2 pos cs cs',
  exec (p1 ++ p2) pos (skipn pos subject) cs = Some cs' ->
  exists pos1 cs1, exec p2 pos1 (skipn pos1 subject) cs1 = Some cs'.
Proof.
  induction p1 as [|it p1 IH]; intros p2 pos cs cs' H; cbn [app] in H.
  - eauto.
  - destruct it as [s|s lo hi greedy|g|g| |]; [| | | | |apply exec_eol in H; eauto];
      cbn [exec] in H.
    + destruct (skipn pos subject) as [|c r] eqn:E; [discriminate|].
      destruct (cset_mem s c); [|discriminate].
      rewrite <- (skipn_cons _ _ _ _ E) in H. eauto.
    + apply rep_inv in H. destruct H as (n & _ & _ & K).
      rewrite skipn_skipn_add in K. eauto.
    + eauto.
    + eauto.
    + destruct (Nat.eqb pos 0); [eauto|discriminate].
Qed.

(** Closing other groups leaves the span of a group as it is. *)
Lemma exec_closed_preserved g p : forall pos rest cs cs',
  exec p pos rest cs = Some cs' ->
  ~ In (Close g) p ->
  lookup g (closed cs') = lookup g (closed cs).
Proof.
  induction p as [|it p IH]; intros pos rest cs cs' H N.
  - cbn [exec] in H. now injection H as <-.
  - assert (N' : ~ In (Close g) p) by (intros I; apply N; now right).
    destruct it as [s|s lo hi greedy|g'|g'| |]; [| | | | |apply exec_eol in H; eauto];
      cbn [exec] in H.
    + destruct rest as [|c r]; [discriminate|].
      destruct (cset_mem s c); [|discriminate]. eauto.
    + apply rep_inv in H. destruct H as (n & _ & _ & K). eauto.
    + rewrite (IH _ _ _ _ H N'). reflexivity.
    + rewrite (IH _ _ _ _ H N'). unfold close_group.
      destruct (lookup g' (opened cs)); [|reflexivity].
      unfold lookup. cbn [closed find fst].
      destruct (Nat.eqb_spec g' g); [|reflexivity].
      subst g'. exfalso. apply N. now left.
    + destruct (Nat.eqb pos 0); [eauto|discriminate].
Qed.

(** A group [(\d+)] of a pattern that has matched holds a non-empty string of
    decimal digits. *)
Lemma digit_group_captured subject p1 g p2 start cs' :
  exec (p1 ++ Open g :: plus (One Digit) :: Close g :: p2) start
       (skipn start subject) no_captures = Some cs' ->
  ~ In (Close g) p2 ->
  let grp := group {| Re.subject := subject; spans := cs' |} g in
  grp <> [] /\ forallb Unicode.isdecimal grp = true.
Proof.
  intros H N. apply exec_prefix in H. destruct H as (pos & cs1 & H).
  cbn [exec] in H. unfold plus in H. cbn [exec] in H.
  apply rep_inv in H. destruct H as (n & Hn & F & K). cbn [exec] in K.
  pose proof (exec_closed_preserved g _ _ _ _ _ K N) as L.
  assert (L' : lookup g (closed (close_group g (pos + n) (open_group g pos cs1)))
               = Some (pos, (pos + n)%nat)).
  { unfold close_group, open_group, lookup. cbn [opened closed find fst].
    rewrite Nat.eqb_refl. cbn [option_map snd closed find fst].
    rewrite Nat.eqb_refl. reflexivity. }
  rewrite L' in L. clear L'.
  cbv zeta. unfold group. cbn [spans Re.subject]. rewrite L.
  replace (pos + n - pos)%nat with n by lia.
  split.
  - intros E. apply (f_equal (@List.length Z)) in E.
    rewrite firstn_length_le in E by lia. cbn in E. lia.
  - apply forallb_forall. rewrite Forall_forall in F. exact F.
Qed.

End ReFacts.

Lemma search_digit_group p1 p2 h m :
  Re.search (p1 ++ Re.Open 1 :: Re.plus (Re.One Re.Digit) :: Re.Close 1 :: p2) h = Some m ->
  ~ In (Re.Close 1) p2 ->
  Re.group m 1 <> [] /\ forallb Unicode.isdecimal (Re.group m 1) = true.
Proof.
  unfold Re.search. intros H N.
  destruct (Re.search_from _ 0 h) as [cs|] eqn:S; [|discriminate].
  injection H as <-. apply ReFacts.search_from_inv in S.
  destruct S as (start & _ & X). cbn [Nat.add] in X.
  exact (ReFacts.digit_group_captured h p1 1 p2 start cs X N).
Qed.

(** [int] on a run of decimal digits: their value, unless there are too
    many of them. *)
Lemma int_of_str_digits g :
  g <> [] -> forallb Unicode.isdecimal g = true ->
  int_of_str g = if too_many_digits g then Err (Builtin "ValueError")
                 else Ok (digits_value g).
Proof.
  intros N D. unfold int_of_str, too_many_digits. rewrite D.
  destruct g; [congruence|reflexivity].
Qed.

Lemma int_of_str_Ok g n : int_of_str g = Ok n -> 0 <= n /\ too_many_digits g = false.
Proof.
  unfold int_of_str, too_many_digits. destruct g as [|c g]; [discriminate|].
  destruct (forallb _ _); [|discriminate].
  destruct (int_max_str_digits <? _); [discriminate|].
  intros [= <-]. split; [apply digits_value_nonneg|reflexivity].
Qed.

Lemma int_of_str_Err g e : int_of_str g = Err e -> e = Builtin "ValueError".
Proof.
  unfold int_of_str. destruct g as [|c g]; [now intros [= <-]|].
  destruct (forallb _ _); [|now intros [= <-]].
  destruct (int_max_str_digits <? _); [now intros [= <-]|discriminate].
Qed.

(** ** What [read_versions] parses and how it fails *)

Lemma parse_update_Ok edition node row :
  parse_update edition node = Ok row ->
  exists href m,
    Html.get node (py "value") = Some href /\
    Re.search pat_version href = Some m /\
    int_of_str (Re.group m 1) = Ok (version_id row) /\
    0 <= version_id row /\
    fifa_edition row = edition /\ update row = Html.text node.
Proof.
  unfold parse_update, search_group1_opt, search_group1.
  destruct (Html.get node (py "value")) as [href|]; [|discriminate].
  destruct (Re.search pat_version href) as [m|] eqn:S; [|discriminate].
  cbn [bind].
  destruct (int_of_str (Re.group m 1)) as [n|] eqn:I; [|discriminate].
  cbn [bind]. intros E. assert (R : row = {| version_id := n; fifa_edition := edition;
                                            update := Html.text node |}) by congruence.
  subst row. exists href, m. cbn [version_id fifa_edition update].
  repeat split; auto. apply (int_of_str_Ok _ _ I).
Qed.




Lemma Forall2_In_r {A B} (P : A -> B -> Prop) l cs c :
  Forall2 P l cs -> In c cs -> exists x, In x l /\ P x c.
Proof.
  induction 1 as [|x c0 l cs Hp _ IH]; intros I; [contradiction|].
  destruct I as [->|I]; [exists x; split; [now left|exact Hp]|].
  destruct (IH I) as (y & Iy & Py). exists y. split; [now right|exact Py].
Qed.

(** The table of versions, from the pages that are fetched. *)
Lemma read_versions_pages dir max_age s frame s' :
  read_versions dir max_age s = (Ok frame, s') ->
  exists chunks,
    Forall2 (fun ep chunk =>
               map_result (parse_update (Html.text (snd (fst ep))))
                 (update_options (snd ep)) = Ok chunk)
            (editions_pages dir max_age s) chunks /\
    List.length chunks = List.length (editions dir max_age s) /\
    List.concat chunks <> [] /\
    frame = sort_index (fun a b => version_id a <=? version_id b) (List.concat chunks).
Proof.
  intros H. destruct (read_versions_unfold dir max_age s) as (doc & s1 & G & _ & U).
  rewrite U in H.
  destruct (for_each _ _ s1) as [[records|e] s2] eqn:Fl; [|discriminate].
  destruct (versions_frame records) as [fr|] eqn:V; [|discriminate].
  assert (fr = frame) by congruence. subst fr. apply versions_frame_Ok in V.
  destruct V as [N ->].
  apply editions_loop_fetch in Fl. destruct Fl as [_ Fl].
  apply fetch_loop_pure in Fl. destruct Fl as (_ & chunks & -> & F).
  assert (P : editions_pages dir max_age s
              = combine (enumerate (editions dir max_age s))
                  (fst (fetch_all (map (edition_request dir max_age)
                                     (enumerate (editions dir max_age s))) s1))).
  { unfold editions_pages. rewrite fetch_all_cons.
    change (req_url (index_request dir max_age)) with SO_FIFA_API.
    change (req_path (index_request dir max_age)) with (joinpath dir (py "index.html")).
    change (req_max_age (index_request dir max_age)) with (Some max_age).
    rewrite G. reflexivity. }
  exists chunks. rewrite P. split; [exact F|]. split; [|split; [exact N|reflexivity]].
  rewrite (Forall2_combine_length _ _ _ _
             (eq_trans (fetch_all_length _ _) (length_map _ _)) F).
  unfold enumerate. rewrite <- (enumerate_from_snd (editions dir max_age s) 0) at 2.
  symmetry. apply length_map.
Qed.

(** X1.  The table of versions is the sorted list of what the update options of
    the fetched pages give, edition after edition: every row comes from an
    option of the update page of an edition of the home page, whose link
    matches [r=(\d+)]; its identifier is the number in the link, which is not
    negative, its edition the text of the option of the home page and its
    update the text of the update option.  The table is never empty. *)
Theorem versions_come_from_links dir max_age s frame s' :
  read_versions dir max_age s = (Ok frame, s') ->
  frame <> [] /\
  (exists chunks,
     Forall2 (fun ep chunk =>
                map_result (parse_update (Html.text (snd (fst ep))))
                  (update_options (snd ep)) = Ok chunk)
             (editions_pages dir max_age s) chunks /\
     List.length chunks = List.length (editions dir max_age s) /\
     frame = sort_index (fun a b => version_id a <=? version_id b) (List.concat chunks)) /\
  forall row, In row frame ->
    exists ed page node href m,
      In (ed, page) (editions_pages dir max_age s) /\
      In node (update_options page) /\
      Html.get node (py "value") = Some href /\
      Re.search pat_version href = Some m /\
      int_of_str (Re.group m 1) = Ok (version_id row) /\
      0 <= version_id row /\
      fifa_edition row = Html.text (snd ed) /\
      update row = Html.text node.
Proof.
  intros H. destruct (read_versions_pages _ _ _ _ _ H) as (chunks & F & L & N & ->).
  split; [|split].
  - intros E. apply N. apply Permutation_nil. rewrite <- E. symmetry.
    apply sort_index_perm.
  - exists chunks. auto.
  - intros row I.
    apply (Permutation_in _ (Permutation_sym (sort_index_perm _ (List.concat chunks)))) in I.
    apply in_concat in I. destruct I as (chunk & Ic & Ir).
    destruct (Forall2_In_r _ _ _ _ F Ic) as ([ed page] & Ip & M). cbn [fst snd] in M.
    apply map_result_Ok in M.
    destruct (Forall2_In_r _ _ _ _ M Ir) as (node & In_node & P).
    apply parse_update_Ok in P. destruct P as (href & m & G & S & I & Z & Ed & U).
    exists ed, page, node, href, m. repeat split; auto.
Qed.


(** ** Links written from an identifier are read back to it *)

Lemma int_of_str_of_int n :
  0 <= n ->
  int_of_str (str_of_int n)
  = if too_many_digits (str_of_int n) then Err (Builtin "ValueError") else Ok n.
Proof.
  intros H. destruct (str_of_int_spec n H) as (A & B & C).
  rewrite (int_of_str_digits _ B (ascii_digits_forallb _ A)), C. reflexivity.
Qed.

Lemma str_of_int_decimal n :
  0 <= n -> Forall (fun c => Re.cset_mem (Re.One Re.Digit) c = true) (str_of_int n).
Proof.
  intros H. destruct (str_of_int_spec n H) as (A & _).
  eapply Forall_impl; [|exact A]. intros c Hc. apply ascii_digit_isdecimal, Hc.
Qed.

Lemma firstn_skipn_middle {A} (pre mid post : list A) :
  firstn (List.length mid) (skipn (List.length pre) (pre ++ mid ++ post)) = mid.
Proof.
  rewrite skipn_app, skipn_all, Nat.sub_diag. cbn [app skipn].
  rewrite firstn_app, firstn_all, Nat.sub_diag. cbn [firstn]. apply app_nil_r.
Qed.

Lemma search_version_link pre n post :
  0 <= n ->
  Forall (fun c => c <> 114) pre ->
  match post with [] => True | c :: _ => Unicode.isdecimal c = false end ->
  search_group1 pat_version (pre ++ py "r=" ++ str_of_int n ++ post)
  = Ok (str_of_int n).
Proof.
  intros Hn Hpre Hpost.
  destruct (str_of_int_spec n Hn) as (A & B & C).
  set (ds := str_of_int n) in *.
  set (h := pre ++ py "r=" ++ ds ++ post).
  assert (S : forall pos,
             Re.search_from pat_version pos (py "r=" ++ ds ++ post)
             = Some {| Re.opened := [(1%nat, (pos + 2)%nat)];
                       Re.closed := [(1%nat, ((pos + 2)%nat,
                                             (pos + 2 + List.length ds)%nat))] |}).
  { intros pos. change (py "r=" ++ ds ++ post) with (114 :: 61 :: ds ++ post).
    change pat_version with
      [Re.Lit (Re.One (Re.Chr 114)); Re.Lit (Re.One (Re.Chr 61)); Re.Open 1;
       Re.plus (Re.One Re.Digit); Re.Close 1].
    cbn [Re.search_from Re.exec Re.cset_mem Re.atom_mem Z.eqb Pos.eqb].
    unfold Re.plus. cbn [Re.exec].
    rewrite (ReFacts.rep_greedy_run (Re.One Re.Digit) _ ds post 1 (S (S pos))
               {| Re.opened := [(1%nat, (pos + 2)%nat)];
                  Re.closed := [(1%nat, ((pos + 2)%nat,
                                        (pos + 2 + List.length ds)%nat))] |}).
    - reflexivity.
    - apply str_of_int_decimal, Hn.
    - destruct ds; [congruence|cbn; lia].
    - cbn [Re.exec]. unfold Re.close_group, Re.open_group, Re.lookup.
      cbn [Re.opened Re.closed find fst Nat.eqb option_map snd Re.no_captures].
      repeat f_equal; lia.
    - destruct post; [exact I|exact Hpost]. }
  assert (P : forall pos,
             Re.search_from pat_version pos h
             = Re.search_from pat_version (pos + List.length pre)%nat
                 (py "r=" ++ ds ++ post)).
  { unfold h. clear - Hpre. induction Hpre as [|c pre Hc _ IH]; intros pos.
    - cbn. rewrite Nat.add_0_r. reflexivity.
    - cbn [app Re.search_from].
      change pat_version with
        [Re.Lit (Re.One (Re.Chr 114)); Re.Lit (Re.One (Re.Chr 61)); Re.Open 1;
         Re.plus (Re.One Re.Digit); Re.Close 1].
      cbn [Re.exec Re.cset_mem Re.atom_mem].
      destruct (Z.eqb_spec c 114); [contradiction|].
      change [Re.Lit (Re.One (Re.Chr 114)); Re.Lit (Re.One (Re.Chr 61)); Re.Open 1;
              Re.plus (Re.One Re.Digit); Re.Close 1] with pat_version.
      rewrite IH. cbn [List.length]. f_equal. lia. }
  unfold search_group1, Re.search. rewrite P, S. cbn [option_map].
  unfold Re.group, Re.lookup.
  cbn [Re.spans Re.closed Re.subject find fst Nat.eqb option_map snd].
  f_equal. unfold h.
  replace (0 + List.length pre + 2 + List.length ds - (0 + List.length pre + 2))%nat
    with (List.length ds) by lia.
  replace (0 + List.length pre + 2)%nat with (List.length (pre ++ py "r=")).
  2:{ rewrite length_app. cbn. lia. }
  rewrite (app_assoc pre (py "r=")). apply firstn_skipn_middle.
Qed.

(** X3.  An update option whose link carries [r=] and the decimal form of a
    version identifier, with no [r] before it and no digit after it, gives
    the record of that identifier; unless the decimal form has more digits
    than [int] converts, when the parse raises a [ValueError]. *)
Theorem update_link_round_trip edition node pre n post :
  0 <= n ->
  Forall (fun c => c <> 114) pre ->
  match post with [] => True | c :: _ => Unicode.isdecimal c = false end ->
  Html.get node (py "value") = Some (pre ++ py "r=" ++ str_of_int n ++ post) ->
  parse_update edition node
  = if too_many_digits (str_of_int n) then Err (Builtin "ValueError")
    else Ok {| version_id := n; fifa_edition := edition; update := Html.text node |}.
Proof.
  intros Hn Hpre Hpost G. unfold parse_update, search_group1_opt. rewrite G.
  rewrite search_version_link by assumption. cbn [bind].
  rewrite int_of_str_of_int by assumption.
  destruct (too_many_digits (str_of_int n)); reflexivity.
Qed.

Lemma search_from_skip c0 p' pre : forall rest pos,
  Forall (fun c => c <> c0) pre ->
  Re.search_from (Re.Lit (Re.One (Re.Chr c0)) :: p') pos (pre ++ rest)
  = Re.search_from (Re.Lit (Re.One (Re.Chr c0)) :: p') (pos + List.length pre)%nat rest.
Proof.
  induction pre as [|c pre IH]; intros rest pos F.
  - cbn. rewrite Nat.add_0_r. reflexivity.
  - inversion F as [|? ? Hc F']; subst. cbn [app Re.search_from].
    cbn [Re.exec Re.cset_mem Re.atom_mem].
    destruct (Z.eqb_spec c c0); [contradiction|].
    rewrite IH by assumption. cbn [List.length]. f_equal. lia.
Qed.

Lemma search_from_here p pos rest cs :
  Re.exec p pos rest Re.no_captures = Some cs ->
  Re.search_from p pos rest = Some cs.
Proof. intros E. destruct rest; cbn [Re.search_from]; rewrite E; reflexivity. Qed.

(** The pattern of the links to teams and players, [\/kind\/(\d+)\/[\w-]+\/],
    at a link written from an identifier and a name. *)
Lemma exec_id_link kind n slug post pos :
  0 <= n ->
  slug <> [] ->
  Forall (fun c => Re.cset_mem (Re.AnyOf [Re.Word; Re.Chr 45]) c = true) slug ->
  Re.exec (Re.lits kind ++ [Re.Open 1; Re.plus (Re.One Re.Digit); Re.Close 1]
           ++ Re.lits "/" ++ [Re.plus (Re.AnyOf [Re.Word; Re.Chr 45])] ++ Re.lits "/")
    pos (py kind ++ str_of_int n ++ py "/" ++ slug ++ py "/" ++ post) Re.no_captures
  = Some {| Re.opened := [(1%nat, (pos + List.length (py kind))%nat)];
            Re.closed := [(1%nat, ((pos + List.length (py kind))%nat,
                                  (pos + List.length (py kind)
                                   + List.length (str_of_int n))%nat))] |}.
Proof.
  intros Hn Hs Fs. destruct (str_of_int_spec n Hn) as (A & B & C).
  unfold Re.lits at 1. rewrite ReFacts.exec_literals.
  cbn [app Re.exec]. unfold Re.plus at 1. cbn [Re.exec].
  apply ReFacts.rep_greedy_run.
  - apply str_of_int_decimal, Hn.
  - destruct (str_of_int n); [congruence|cbn; lia].
  - change (py "/") with [47]. change (Re.lits "/") with [Re.Lit (Re.One (Re.Chr 47))].
    cbn [app Re.exec Re.cset_mem Re.atom_mem Z.eqb Pos.eqb].
    unfold Re.plus. cbn [Re.exec].
    rewrite (ReFacts.rep_greedy_run _ _ slug (47 :: post) 1 _
               (Re.close_group 1 (pos + List.length (py kind) + List.length (str_of_int n))
                  (Re.open_group 1 (pos + List.length (py kind)) Re.no_captures))).
    + unfold Re.close_group, Re.open_group, Re.lookup.
      cbn [Re.opened Re.closed find fst Nat.eqb option_map snd Re.no_captures].
      reflexivity.
    + exact Fs.
    + destruct slug; [congruence|cbn; lia].
    + cbn [Re.exec Re.cset_mem Re.atom_mem Z.eqb Pos.eqb]. reflexivity.
    + vm_compute. reflexivity.
  - change (py "/") with [47]. cbn [app]. vm_compute. reflexivity.
Qed.

Lemma search_id_link kind k pre n slug post :
  py kind = 47 :: k ->
  Forall (fun c => c <> 47) pre ->
  0 <= n ->
  slug <> [] ->
  Forall (fun c => Re.cset_mem (Re.AnyOf [Re.Word; Re.Chr 45]) c = true) slug ->
  search_group1
    (Re.lits kind ++ [Re.Open 1; Re.plus (Re.One Re.Digit); Re.Close 1]
     ++ Re.lits "/" ++ [Re.plus (Re.AnyOf [Re.Word; Re.Chr 45])] ++ Re.lits "/")
    (pre ++ py kind ++ str_of_int n ++ py "/" ++ slug ++ py "/" ++ post)
  = Ok (str_of_int n).
Proof.
  intros K Fp Hn Hs Fs.
  pose proof (exec_id_link kind n slug post (0 + List.length pre) Hn Hs Fs) as E.
  apply search_from_here in E.
  unfold search_group1, Re.search.
  assert (P : Re.lits kind
              = Re.Lit (Re.One (Re.Chr 47)) :: map (fun c => Re.Lit (Re.One (Re.Chr c))) k).
  { unfold Re.lits. rewrite K. reflexivity. }
  rewrite P in E |- *. cbn [app] in E |- *.
  rewrite search_from_skip by assumption. rewrite E. cbn [option_map].
  unfold Re.group, Re.lookup.
  cbn [Re.spans Re.closed Re.subject find fst Nat.eqb option_map snd].
  f_equal.
  replace (0 + List.length pre + List.length (py kind) + List.length (str_of_int n)
           - (0 + List.length pre + List.length (py kind)))%nat
    with (List.length (str_of_int n)) by lia.
  replace (0 + List.length pre + List.length (py kind))%nat
    with (List.length (pre ++ py kind)) by (rewrite length_app; lia).
  rewrite (app_assoc pre (py kind)). apply firstn_skipn_middle.
Qed.

(** X4.  A row of the table of teams whose link is [/team/<id>/<name>/] gives the
    team of that identifier; a squad link [/player/<id>/<name>/] gives the
    player of that identifier; unless the decimal form of the identifier has
    more digits than [int] converts, when either parse raises a
    [ValueError]. *)
Theorem id_link_round_trip (env : Env) lkey version df_team node link pre n slug post rest :
  0 <= n ->
  Forall (fun c => c <> 47) pre ->
  slug <> [] ->
  Forall (fun c => Unicode.isalnum c || (c =? 95) || (c =? 45) = true) slug ->
  (Html.xpath node (py ".//td[2]//a") = link :: rest ->
   Html.get link (py "href")
   = Some (pre ++ py "/team/" ++ str_of_int n ++ py "/" ++ slug ++ py "/" ++ post) ->
   parse_team_row lkey version node
   = if too_many_digits (str_of_int n) then Err (Builtin "ValueError")
     else Ok {| team_id := n; team := Html.text link; team_league := lkey;
                team_fifa_edition := fifa_edition version;
                team_update := update version |})
  /\
  (Html.get node (py "href")
   = Some (pre ++ py "/player/" ++ str_of_int n ++ py "/" ++ slug ++ py "/" ++ post) ->
   parse_player_link version df_team node
   = if too_many_digits (str_of_int n) then Err (Builtin "ValueError")
     else Ok {| player_id := n; player := Html.get node (py "data-tippy-content");
                player_team := team df_team; player_league := team_league df_team;
                player_fifa_edition := fifa_edition version;
                player_update := update version |}).
Proof.
  intros Hn Fp Hs Fs.
  assert (Fs' : Forall (fun c => Re.cset_mem (Re.AnyOf [Re.Word; Re.Chr 45]) c = true) slug).
  { eapply Forall_impl; [|exact Fs]. intros c Hc.
    cbn [Re.cset_mem existsb Re.atom_mem]. rewrite orb_false_r. exact Hc. }
  split.
  - intros X G. unfold parse_team_row. rewrite X. cbn [first bind].
    rewrite G. cbn [search_group1_opt]. unfold pat_team.
    rewrite (search_id_link "/team/" (py "team/") pre n slug post eq_refl Fp Hn Hs Fs').
    cbn [bind]. rewrite int_of_str_of_int by assumption.
    destruct (too_many_digits (str_of_int n)); reflexivity.
  - intros G. unfold parse_player_link.
    rewrite G. cbn [search_group1_opt]. unfold pat_player.
    rewrite (search_id_link "/player/" (py "player/") pre n slug post eq_refl Fp Hn Hs Fs').
    cbn [bind]. rewrite int_of_str_of_int by assumption.
    destruct (too_many_digits (str_of_int n)); reflexivity.
Qed.

(** ** Amounts without a fraction *)

Module FloatExact.
Import Float.

Lemma quotient_scale p q e c :
  0 < q -> 0 < c -> quotient (p * c) (q * c) e = quotient p q e.
Proof.
  intros Hq Hc. unfold quotient. rewrite !FloatFacts.scaled_spec. cbn [fst snd].
  pose proof (FloatFacts.pow2_pos e). pose proof (FloatFacts.pow2_pos (- e)).
  replace (p * c * 2 ^ Z.max 0 (- e)) with (p * 2 ^ Z.max 0 (- e) * c) by ring.
  replace (q * c * 2 ^ Z.max 0 e) with (q * 2 ^ Z.max 0 e * c) by ring.
  apply Z.div_mul_cancel_r; nia.
Qed.

Lemma exponent_scale p q a :
  0 < p -> 0 < q -> 0 <= a -> exponent (p * 2 ^ a) (q * 2 ^ a) = exponent p q.
Proof.
  intros Hp Hq Ha. unfold exponent.
  assert (0 < 2 ^ a) by (apply Z.pow_pos_nonneg; lia).
  rewrite !Z.log2_mul_pow2 by lia.
  replace (a + Z.log2 p - (a + Z.log2 q) - 52) with (Z.log2 p - Z.log2 q - 52) by lia.
  rewrite quotient_scale by lia. reflexivity.
Qed.

(** A fraction and the same fraction with both parts multiplied by a power
    of two round to the same number. *)
Lemma round_scale p q a :
  0 <= p -> 0 < q -> 0 <= a -> round (p * 2 ^ a) (q * 2 ^ a) = round p q.
Proof.
  intros Hp Hq Ha. unfold round.
  assert (Pa : 0 < 2 ^ a) by (apply Z.pow_pos_nonneg; lia).
  destruct (Z.eqb_spec p 0) as [->|P0].
  { reflexivity. }
  destruct (Z.eqb_spec (p * 2 ^ a) 0) as [E|_]; [nia|].
  rewrite exponent_scale by lia.
  set (e := exponent p q).
  rewrite !FloatFacts.scaled_spec.
  pose proof (FloatFacts.pow2_pos e) as X. pose proof (FloatFacts.pow2_pos (- e)) as Y.
  replace (p * 2 ^ a * 2 ^ Z.max 0 (- e)) with (p * 2 ^ Z.max 0 (- e) * 2 ^ a) by ring.
  replace (q * 2 ^ a * 2 ^ Z.max 0 e) with (q * 2 ^ Z.max 0 e * 2 ^ a) by ring.
  set (num := p * 2 ^ Z.max 0 (- e)). set (den := q * 2 ^ Z.max 0 e).
  assert (D : 0 < den) by (unfold den; nia).
  rewrite Z.div_mul_cancel_r by lia.
  rewrite Z.mul_mod_distr_r by lia.
  assert (L1 : (2 * (num mod den * 2 ^ a) <? den * 2 ^ a) = (2 * (num mod den) <? den)).
  { destruct (Z.ltb_spec (2 * (num mod den)) den);
      destruct (Z.ltb_spec (2 * (num mod den * 2 ^ a)) (den * 2 ^ a)); try reflexivity; nia. }
  assert (L2 : (den * 2 ^ a <? 2 * (num mod den * 2 ^ a)) = (den <? 2 * (num mod den))).
  { destruct (Z.ltb_spec den (2 * (num mod den)));
      destruct (Z.ltb_spec (den * 2 ^ a) (2 * (num mod den * 2 ^ a))); try reflexivity; nia. }
  rewrite L1, L2. reflexivity.
Qed.

(** An integer that binary64 holds, as [round] gives it. *)
Lemma round_int n :
  representable n -> 0 < n ->
  exists m e,
    round n 1 = Finite m e /\
    (0 <= e /\ n = m * 2 ^ e \/ e < 0 /\ m = n * 2 ^ (- e)).
Proof.
  intros (m & e & Hm & He & En & Hn) Npos.
  unfold round. destruct (Z.eqb_spec n 0) as [->|N0]; [lia|].
  assert (P2 : 0 < 2 ^ e) by (apply Z.pow_pos_nonneg; lia).
  assert (Mpos : 0 < m) by nia.
  pose proof (FloatFacts.exponent_quotient_lt n 1 Npos ltac:(lia)) as Q.
  rewrite FloatFacts.exponent_exact in * by lia.
  assert (Ln : Z.log2 n = e + Z.log2 m) by (subst n; apply Z.log2_mul_pow2; lia).
  assert (Lm : Z.log2 m < 53) by (apply Z.log2_lt_pow2; lia).
  pose proof (Z.log2_nonneg m) as Lm0.
  assert (Le : Z.log2 n < 1024) by (apply Z.log2_lt_pow2; lia).
  set (e0 := Z.log2 n - 52) in *. unfold quotient in Q.
  destruct (Z_le_gt_dec 0 e0) as [G|G].
  - rewrite FloatFacts.scaled_nonneg in * by lia. cbn [fst snd] in Q.
    assert (P0 : 0 < 2 ^ e0) by (apply Z.pow_pos_nonneg; lia).
    assert (D : n = (m * 2 ^ (e - e0)) * (1 * 2 ^ e0)).
    { rewrite En, Z.mul_1_l, <- Z.mul_assoc, <- Z.pow_add_r by lia. do 2 f_equal. lia. }
    assert (R : n mod (1 * 2 ^ e0) = 0) by (rewrite D at 1; apply Z.mod_mul; lia).
    rewrite R.
    destruct (Z.ltb_spec (2 * 0) (1 * 2 ^ e0)); [|lia].
    destruct (Z.eqb_spec (n / (1 * 2 ^ e0)) (2 ^ 53)); [lia|].
    destruct (Z.ltb_spec 971 e0); [lia|].
    assert (Mq : n = n / (1 * 2 ^ e0) * 2 ^ e0).
    { rewrite D at 2. rewrite Z.div_mul by lia. rewrite D at 1. ring. }
    eexists _, _. split; [reflexivity|]. left. split; [lia|exact Mq].
  - rewrite FloatFacts.scaled_neg in * by lia. cbn [fst snd] in Q. rewrite Z.div_1_r in Q.
    rewrite Z.mod_1_r, Z.div_1_r.
    change (2 * 0 <? 1) with true. cbv iota.
    destruct (Z.eqb_spec (n * 2 ^ (- e0)) (2 ^ 53)); [lia|].
    destruct (Z.ltb_spec 971 e0); [lia|].
    eexists _, _. split; [reflexivity|]. right. split; [lia|reflexivity].
Qed.

(** The product of an integer and a multiplier is correctly rounded from
    the exact product. *)
Lemma mul_round_int n k :
  representable n -> 0 <= n -> 0 < k -> mul (round n 1) k = round (n * k) 1.
Proof.
  intros R Hn Hk. destruct (Z.eq_dec n 0) as [->|N0].
  { reflexivity. }
  destruct (round_int n R ltac:(lia)) as (m & e & -> & [[He En]|[He Em]]).
  - unfold mul. destruct (Z.eq_dec e 0) as [->|E0].
    + change (- 0) with 0. rewrite FloatFacts.scaled_nonneg by lia.
      change (1 * 2 ^ 0) with 1. rewrite En. change (2 ^ 0) with 1.
      rewrite Z.mul_1_r. reflexivity.
    + rewrite FloatFacts.scaled_neg by lia. rewrite Z.opp_involutive.
      rewrite En. f_equal. ring.
  - unfold mul. rewrite FloatFacts.scaled_nonneg by lia. subst m.
    replace (n * 2 ^ (- e) * k) with (n * k * 2 ^ (- e)) by ring.
    apply round_scale; nia.
Qed.

End FloatExact.

Lemma magnitude_cases s : magnitude s = 1000000 \/ magnitude s = 1000 \/ magnitude s = 1.
Proof.
  unfold magnitude. destruct (contains_char 77 s); [auto|].
  destruct (contains_char 75 s); auto.
Qed.

Lemma float_of_str_digits d :
  d <> [] -> forallb Unicode.isdecimal d = true ->
  float_of_str d = Ok (Float.round (digits_value d) 1).
Proof.
  intros N F. unfold float_of_str.
  assert (S : split_point d = (d, None)).
  { clear N. induction d as [|c d IH]; [reflexivity|].
    cbn [forallb] in F. apply andb_prop in F. destruct F as [Fc Fd].
    cbn [split_point]. destruct (Z.eqb_spec c 46) as [->|_].
    - vm_compute in Fc. discriminate.
    - rewrite (IH Fd). reflexivity. }
  rewrite S, app_nil_r. destruct d as [|c d]; [congruence|].
  rewrite F. reflexivity.
Qed.

(** X5.  For an amount written without a decimal point, [remove_currency]
    returns exactly the number its digits denote times the multiplier of
    its letter, as long as that product is below [2^53]. *)
Theorem remove_currency_whole_amount s d :
  filter (fun c => Unicode.isdecimal c || (c =? 46)) s = d ->
  d <> [] ->
  forallb Unicode.isdecimal d = true ->
  digits_value d * magnitude s < 2 ^ 53 ->
  remove_currency (VStr s) = Ok (str_of_int (digits_value d * magnitude s)).
Proof.
  intros Fd N D B. rewrite remove_currency_normalize. unfold normalize_amount.
  rewrite Fd, (float_of_str_digits d N D). cbn [bind].
  pose proof (digits_value_nonneg d) as P.
  assert (M : 0 < magnitude s) by (destruct (magnitude_cases s) as [->|[->| ->]]; lia).
  rewrite FloatExact.mul_round_int; [| |exact P|exact M].
  - rewrite FloatFacts.round_exact; [reflexivity|].
    exists (digits_value d * magnitude s), 0. repeat split; try lia; nia.
  - exists (digits_value d), 0. repeat split; try lia; nia.
Qed.

(** ** How [remove_currency] fails *)

Lemma point_not_decimal : Unicode.isdecimal 46 = false.
Proof. vm_compute. reflexivity. Qed.

Lemma amount_char_cases c :
  amount_char c = true -> c <> 46 -> Unicode.isdecimal c = true.
Proof.
  unfold amount_char. intros H N. apply orb_prop in H. destruct H as [H|H]; [exact H|].
  apply Z.eqb_eq in H. contradiction.
Qed.

Lemma split_point_amount d :
  Forall (fun c => amount_char c = true) d ->
  forallb Unicode.isdecimal (fst (split_point d)) = true /\
  match snd (split_point d) with
  | None => count_occ Z.eq_dec d 46 = 0%nat /\ fst (split_point d) = d
  | Some fp =>
      count_occ Z.eq_dec d 46 = S (count_occ Z.eq_dec fp 46) /\
      existsb Unicode.isdecimal d
      = existsb Unicode.isdecimal (fst (split_point d)) || existsb Unicode.isdecimal fp /\
      Forall (fun c => amount_char c = true) fp
  end.
Proof.
  induction 1 as [|c d Hc Hd IH]; [cbn; auto|].
  cbn [split_point]. destruct (Z.eqb_spec c 46) as [->|N].
  - cbn [fst snd forallb existsb]. split; [reflexivity|].
    rewrite count_occ_cons_eq by reflexivity. rewrite point_not_decimal. auto.
  - destruct (split_point d) as [ip tl]. cbn [fst snd] in *.
    destruct IH as [F T]. pose proof (amount_char_cases c Hc N) as Dc.
    cbn [forallb]. rewrite Dc, F. split; [reflexivity|].
    rewrite count_occ_cons_neq by congruence.
    destruct tl as [fp|].
    + destruct T as (T1 & T2 & T3). split; [exact T1|]. split; [|exact T3].
      cbn [existsb]. rewrite Dc. reflexivity.
    + destruct T as [T1 T2]. split; [exact T1|]. now rewrite T2.
Qed.

Lemma no_point_all_decimal d :
  Forall (fun c => amount_char c = true) d ->
  (forallb Unicode.isdecimal d = true <-> count_occ Z.eq_dec d 46 = 0%nat).
Proof.
  induction 1 as [|c d Hc _ IH]; [cbn; tauto|].
  cbn [forallb]. destruct (Z.eq_dec c 46) as [->|N].
  - rewrite count_occ_cons_eq by reflexivity. rewrite point_not_decimal.
    cbn [andb]. split; [discriminate|lia].
  - rewrite count_occ_cons_neq by congruence.
    rewrite (amount_char_cases c Hc N). cbn [andb]. exact IH.
Qed.

Lemma existsb_false_forallb {A} (f : A -> bool) c l :
  existsb f (c :: l) = false -> forallb f (c :: l) = false.
Proof. cbn. destruct (f c); [discriminate|reflexivity]. Qed.

Lemma float_of_str_error d :
  Forall (fun c => amount_char c = true) d ->
  (float_of_str d = Err (Builtin "ValueError") <->
   existsb Unicode.isdecimal d = false \/ (2 <= count_occ Z.eq_dec d 46%Z)%nat).
Proof.
  intros F. pose proof (split_point_amount d F) as [Fi T].
  unfold float_of_str. destruct (split_point d) as [ip tl]. cbn [fst snd] in *.
  destruct tl as [fp|].
  - destruct T as (C & E & Ff). pose proof (no_point_all_decimal fp Ff) as NP.
    rewrite C, E.
    destruct (ip ++ fp) as [|c ds] eqn:A.
    + apply app_eq_nil in A. destruct A as [-> ->]. cbn. split; auto.
    + rewrite <- A. rewrite forallb_app, Fi. cbn [andb].
      destruct (forallb Unicode.isdecimal fp) eqn:Ffp.
      * split; [discriminate|]. intros [X|X].
        -- rewrite <- existsb_app, A in X. apply existsb_false_forallb in X.
           rewrite <- A, forallb_app, Fi, Ffp in X. discriminate.
        -- destruct NP as [NP _]. specialize (NP eq_refl). lia.
      * split; [|reflexivity]. intros _. right.
        destruct (count_occ Z.eq_dec fp 46) eqn:K; [|lia].
        destruct NP as [_ NP]. specialize (NP eq_refl). discriminate.
  - destruct T as [C ->]. rewrite app_nil_r.
    destruct d as [|c d].
    + cbn. split; auto.
    + rewrite Fi. split; [discriminate|].
      intros [E|E]; [|lia].
      apply existsb_false_forallb in E. congruence.
Qed.

Lemma filter_amount_chars s :
  Forall (fun c => amount_char c = true) (filter amount_char s)
  /\ existsb Unicode.isdecimal (filter amount_char s) = existsb Unicode.isdecimal s
  /\ count_occ Z.eq_dec (filter amount_char s) 46 = count_occ Z.eq_dec s 46.
Proof.
  induction s as [|c s (F & E & C)]; [cbn; auto|].
  cbn [filter]. destruct (amount_char c) eqn:A.
  - split; [constructor; assumption|]. cbn [existsb]. rewrite E. split; [reflexivity|].
    destruct (Z.eq_dec c 46) as [->|N].
    + rewrite !count_occ_cons_eq by reflexivity. now rewrite C.
    + rewrite !count_occ_cons_neq by congruence. exact C.
  - split; [exact F|]. unfold amount_char in A. apply orb_false_elim in A.
    destruct A as [A1 A2]. cbn [existsb]. rewrite A1. cbn [orb]. split; [exact E|].
    apply Z.eqb_neq in A2. rewrite count_occ_cons_neq by congruence. exact C.
Qed.

Lemma float_of_str_raises d e : float_of_str d = Err e -> e = Builtin "ValueError".
Proof.
  unfold float_of_str. destruct (split_point d) as [ip tl].
  destruct (ip ++ _); [now intros [= <-]|].
  destruct (forallb _ _); [discriminate|now intros [= <-]].
Qed.

(** X6.  [remove_currency] fails on a string in two ways only: with the
    [ValueError] of [float], exactly when the string holds no decimal digit
    or more than one point, and with the [OverflowError] of [int]. *)
Theorem remove_currency_errors s :
  (forall e, remove_currency (VStr s) = Err e ->
             e = Builtin "ValueError" \/ e = Builtin "OverflowError")
  /\
  (remove_currency (VStr s) = Err (Builtin "ValueError") <->
   existsb Unicode.isdecimal s = false \/ (2 <= count_occ Z.eq_dec s 46%Z)%nat).
Proof.
  pose proof (filter_amount_chars s) as (F & E & C).
  pose proof (float_of_str_error _ F) as X. rewrite E, C in X.
  rewrite remove_currency_normalize. unfold normalize_amount.
  change (fun c => Unicode.isdecimal c || (c =? 46)) with amount_char.
  destruct (float_of_str (filter amount_char s)) as [x|e0] eqn:Fl; cbn [bind].
  - assert (O : forall e, (n <- Float.to_int (Float.mul x (magnitude s)) ;;
                           Ok (str_of_int n))%result = Err e ->
                          e = Builtin "OverflowError").
    { intros e. destruct (Float.mul x (magnitude s)); cbn [Float.to_int bind];
        [discriminate|now intros [= <-]]. }
    split; [intros e H; right; apply O, H|].
    split; intros H; [apply O in H|apply X in H]; discriminate.
  - pose proof (float_of_str_raises _ _ Fl) as ->. split; [intros e [= <-]; auto|].
    split; [intros _; apply X; reflexivity|reflexivity].
Qed.

(** ** The biographical line in general *)

Lemma decimal_value_range c : 0 <= Unicode.decimal_value c <= 9.
Proof.
  unfold Unicode.decimal_value. destruct (find _ _); [|lia].
  pose proof (Z.mod_pos_bound (c - fst p) 10). lia.
Qed.

Lemma index_of_range w l : forall i k,
  Datetime.index_of w l i = Some k -> i <= k < i + Z.of_nat (List.length l).
Proof.
  induction l as [|m l IH]; intros i k H; cbn [Datetime.index_of] in H; [discriminate|].
  cbn [List.length]. destruct (pystr_eqb w (py m)).
  - injection H as <-. lia.
  - apply IH in H. lia.
Qed.

Ltac split_conjunctions :=
  repeat match goal with
         | H : _ && _ = true |- _ => apply andb_prop in H; destruct H
         | H : (_ <=? _) = true |- _ => apply Z.leb_le in H
         | H : (_ =? _) = true |- _ => apply Z.eqb_eq in H
         end.

Lemma parse_day_range s d r : Datetime.parse_day s = Some (d, r) -> 1 <= d <= 31.
Proof.
  assert (K : forall x y, Some (x, y) = Some (d, r) -> 1 <= x <= 31 -> 1 <= d <= 31)
    by (intros x y E; replace d with x by congruence; auto).
  unfold Datetime.parse_day, Datetime.in_range.
  destruct s as [|c1 [|c2 s]]; [discriminate| |].
  - destruct ((49 <=? c1) && (c1 <=? 57)) eqn:E; [|discriminate].
    intros X. apply (K _ _ X). split_conjunctions. lia.
  - pose proof (decimal_value_range c2).
    destruct ((c1 =? 51) && ((48 <=? c2) && (c2 <=? 49))) eqn:E1;
      [intros X; apply (K _ _ X); split_conjunctions; lia|].
    destruct ((49 <=? c1) && (c1 <=? 50) && Unicode.isdecimal c2) eqn:E2;
      [intros X; apply (K _ _ X); split_conjunctions; lia|].
    destruct ((c1 =? 48) && ((49 <=? c2) && (c2 <=? 57))) eqn:E3;
      [intros X; apply (K _ _ X); split_conjunctions; lia|].
    destruct ((49 <=? c1) && (c1 <=? 57)) eqn:E4;
      [intros X; apply (K _ _ X); split_conjunctions; lia|discriminate].
Qed.

Lemma strptime_result s :
  match Datetime.strptime_b_d_Y s with
  | Ok d => 1 <= Datetime.month d <= 12 /\ 1 <= Datetime.day d <= 31
  | Err e => e = Builtin "ValueError"
  end.
Proof.
  unfold Datetime.strptime_b_d_Y.
  destruct (Datetime.index_of _ _ 1) as [mo|] eqn:M; [|reflexivity].
  apply index_of_range in M. cbn [Datetime.b_month List.length] in M.
  destruct (Datetime.skip_spaces (skipn 3 s)) as [s1|]; [|reflexivity].
  destruct (Datetime.parse_day s1) as [[d s2]|] eqn:D; [|reflexivity].
  apply parse_day_range in D.
  destruct s2 as [|c s3]; [reflexivity|].
  destruct (Z.eqb_spec c 44) as [->|N].
  2:{ destruct c as [|q|q]; try reflexivity.
      do 6 (destruct q as [q|q|]; try reflexivity). congruence. }
  destruct (Datetime.skip_spaces s3) as [[|y1 [|y2 [|y3 [|y4 [|y5 ys]]]]]|]; try reflexivity.
  destruct (forallb _ _); [|reflexivity].
  destruct (_ && _); [|reflexivity].
  cbn [Datetime.month Datetime.day]. lia.
Qed.

(** What a biographical line that is read adds to the record. *)
Lemma parse_basic_info_Ok p basic_info_p scores scores' :
  parse_basic_info p basic_info_p scores = Ok scores' ->
  exists age mo d height weight,
    0 <= age /\ 1 <= mo <= 12 /\ 1 <= d <= 31 /\ 0 <= height /\ 0 <= weight /\
    scores' = dict_set (py "weight") (VInt weight)
                (dict_set (py "height") (VInt height)
                (dict_set (py "birthdate")
                   (VStr (Datetime.two_digits mo ++ [45] ++ Datetime.two_digits d))
                (dict_set (py "age") (VInt age) scores))).
Proof.
  unfold parse_basic_info.
  destruct (first_nonblank basic_info_p) as [line|]; [|discriminate].
  destruct (Re.match_ pat_basic_info line) as [m|]; [|discriminate].
  destruct (int_of_str (Re.group m 1)) as [age|] eqn:A; [|discriminate]. cbn [bind].
  pose proof (strptime_result (Re.group m 2)) as S.
  destruct (Datetime.strptime_b_d_Y (Re.group m 2)) as [born|]; [|discriminate].
  cbn [bind].
  destruct (int_of_str (Re.group m 3)) as [height|] eqn:H; [|discriminate]. cbn [bind].
  destruct (int_of_str (Re.group m 4)) as [weight|] eqn:W; [|discriminate]. cbn [bind].
  intros E. exists age, (Datetime.month born), (Datetime.day born), height, weight.
  apply int_of_str_Ok in A, H, W. destruct S as [S1 S2].
  repeat split; try lia. unfold Datetime.strftime_m_d in E. congruence.
Qed.

(** X7.  Whatever the profile holds, the biographical line either raises a
    [ValueError] or adds an age, a height and a weight that are integers not
    below zero, and a birthdate of the form month-day with a month from 1 to
    12 and a day from 1 to 31. *)
Theorem basic_info_result p basic_info_p scores :
  match parse_basic_info p basic_info_p scores with
  | Err e => exn_class e = "ValueError"%string
  | Ok scores' =>
      exists age mo d height weight,
        0 <= age /\ 1 <= mo <= 12 /\ 1 <= d <= 31 /\ 0 <= height /\ 0 <= weight /\
        scores' = dict_set (py "weight") (VInt weight)
                    (dict_set (py "height") (VInt height)
                    (dict_set (py "birthdate")
                       (VStr (Datetime.two_digits mo ++ [45] ++ Datetime.two_digits d))
                    (dict_set (py "age") (VInt age) scores)))
  end.
Proof.
  unfold parse_basic_info.
  destruct (first_nonblank basic_info_p) as [line|]; [|reflexivity].
  destruct (Re.match_ pat_basic_info line) as [m|] eqn:M; [|reflexivity].
  destruct (int_of_str (Re.group m 1)) as [age|e] eqn:A; cbn [bind];
    [|now rewrite (int_of_str_Err _ _ A)].
  pose proof (strptime_result (Re.group m 2)) as S.
  destruct (Datetime.strptime_b_d_Y (Re.group m 2)) as [born|e]; cbn [bind];
    [|subst e; reflexivity].
  destruct (int_of_str (Re.group m 3)) as [height|e] eqn:H; cbn [bind];
    [|now rewrite (int_of_str_Err _ _ H)].
  destruct (int_of_str (Re.group m 4)) as [weight|e] eqn:W; cbn [bind];
    [|now rewrite (int_of_str_Err _ _ W)].
  exists age, (Datetime.month born), (Datetime.day born), height, weight.
  destruct S as [S1 S2].
  pose proof (proj1 (int_of_str_Ok _ _ A)). pose proof (proj1 (int_of_str_Ok _ _ H)).
  pose proof (proj1 (int_of_str_Ok _ _ W)). repeat split; try lia.
Qed.

(** ** The columns of a player record *)

Lemma keys_dict_set k v d : map fst (dict_set k v d) = add_key k (map fst d).
Proof.
  unfold add_key. induction d as [|[k' v'] d IH]; [reflexivity|].
  cbn [dict_set map fst existsb]. destruct (pystr_eqb k' k) eqn:E; cbn [orb map fst].
  - apply pystr_eqb_eq in E. now subst k'.
  - rewrite IH. destruct (existsb _ (map fst d)); reflexivity.
Qed.

Lemma keys_extract_scores tree labels : forall scores scores',
  extract_scores tree labels scores = Ok scores' ->
  map fst scores' = fold_left (fun ks s => add_key (py s) ks) labels (map fst scores).
Proof.
  induction labels as [|s labels IH]; intros scores scores' H; cbn [extract_scores] in H.
  - now injection H as <-.
  - destruct (extract_score tree (py s)) as [value|]; [|discriminate]. cbn [bind] in H.
    rewrite (IH _ _ H), keys_dict_set. reflexivity.
Qed.

Lemma keys_extract_points capa codes : forall scores scores',
  extract_points capa codes scores = Ok scores' ->
  map fst scores' = fold_left (fun ks kc => add_key (py (fst kc)) ks) codes (map fst scores).
Proof.
  induction codes as [|[k code] codes IH]; intros scores scores' H; cbn [extract_points] in H.
  - now injection H as <-.
  - destruct (search_group1 _ capa) as [v|]; [|discriminate]. cbn [bind] in H.
    rewrite (IH _ _ H), keys_dict_set. reflexivity.
Qed.

Lemma normalize_currency_Ok k scores scores' :
  normalize_currency k scores = Ok scores' ->
  exists n, 0 <= n /\ scores' = dict_set k (VStr (str_of_int n)) scores.
Proof.
  unfold normalize_currency. destruct (dict_item k scores) as [v|]; [|discriminate].
  cbn [bind]. destruct v as [|s|z]; try discriminate.
  destruct (remove_currency (VStr s)) as [r|] eqn:R; [|discriminate]. cbn [bind].
  intros [= <-]. destruct (remove_currency_output _ _ R) as (n & -> & Hn & _).
  exists n. auto.
Qed.

(** The stages of a record that has been completed. *)
Lemma player_scores_stages version p tree scores :
  player_scores version p tree = Ok scores ->
  exists player simple_name age mo d height weight pos avatar name_line capa s2 s3
         wage value,
    0 <= age /\ 1 <= mo <= 12 /\ 1 <= d <= 31 /\ 0 <= height /\ 0 <= weight /\
    0 <= wage /\ 0 <= value /\
    extract_points capa point_scores
      (profile_head version player simple_name age mo d height weight pos avatar
         (strip (before_hyphen name_line))) = Ok s2 /\
    extract_scores tree score_labels s2 = Ok s3 /\
    scores = dict_set (py "Value") (VStr (str_of_int value))
               (dict_set (py "Wage") (VStr (str_of_int wage)) s3).
Proof.
  unfold player_scores. intros H.
  destruct (first (Html.xpath tree _)) as [node|]; [|discriminate]. cbn [bind] in H.
  destruct (first (Html.xpath_text tree _)) as [simple_name|]; [|discriminate].
  cbn [bind] in H.
  match type of H with
  | context [parse_basic_info p ?i ?sc] =>
      destruct (parse_basic_info p i sc) as [s1|] eqn:R; [|discriminate]
  end.
  cbn [bind] in H. apply parse_basic_info_Ok in R.
  destruct R as (age & mo & d & height & weight & A0 & M0 & D0 & H0 & W0 & ->).
  destruct (first (Html.xpath_text tree _)) as [pos|]; [|discriminate]. cbn [bind] in H.
  destruct (first (Html.xpath_text tree _)) as [avatar|]; [|discriminate]. cbn [bind] in H.
  destruct (first (Html.xpath_text tree _)) as [name_line|]; [|discriminate].
  cbn [bind] in H.
  destruct (first (Html.xpath_text tree _)) as [capa|]; [|discriminate]. cbn [bind] in H.
  destruct (extract_points capa point_scores _) as [s2|] eqn:P; [|discriminate].
  cbn [bind] in H.
  destruct (extract_scores tree score_labels s2) as [s3|] eqn:S; [|discriminate].
  cbn [bind] in H.
  destruct (normalize_currency (py "Wage") s3) as [s4|] eqn:W; [|discriminate].
  cbn [bind] in H.
  destruct (normalize_currency (py "Value") s4) as [s5|] eqn:V; [|discriminate].
  cbn [bind] in H. injection H as <-.
  apply normalize_currency_Ok in W, V.
  destruct W as (wage & Wg0 & ->). destruct V as (value & V0 & ->).
  eexists _, simple_name, age, mo, d, height, weight, pos, avatar, name_line, capa, s2, s3,
    wage, value.
  repeat split; try assumption; try lia. exact P.
Qed.

(** X8.  Every record of a profile page has the same 55 keys in the same order,
    whatever the page holds, and its wage and its value are the decimal
    forms of integers not below zero. *)
Theorem player_record_columns version p tree scores :
  player_scores version p tree = Ok scores ->
  map fst scores = player_columns /\
  exists wage value,
    0 <= wage /\ 0 <= value /\
    dict_get (py "Wage") scores = Some (VStr (str_of_int wage)) /\
    dict_get (py "Value") scores = Some (VStr (str_of_int value)).
Proof.
  intros H. apply player_scores_stages in H.
  destruct H as (player & simple_name & age & mo & d & height & weight & pos & avatar
                 & name_line & capa & s2 & s3 & wage & value
                 & _ & _ & _ & _ & _ & W0 & V0 & P & S & ->).
  split.
  - rewrite !keys_dict_set, (keys_extract_scores _ _ _ _ S), (keys_extract_points _ _ _ _ P).
    unfold profile_head. rewrite !keys_dict_set. vm_compute. reflexivity.
  - exists wage, value. repeat split; try assumption.
    + rewrite dict_get_set_other by (vm_compute; reflexivity). apply dict_get_set_same.
    + apply dict_get_set_same.
Qed.

(** ** Selection by label *)

Lemma loc_Ok {A K} (eqb : K -> K -> bool) (key : A -> K) keys frame rows :
  loc eqb key keys frame = Ok rows ->
  rows = flat_map (fun k => filter (fun r => eqb (key r) k) frame) keys /\
  Forall (fun k => exists r, In r frame /\ eqb (key r) k = true) keys.
Proof.
  unfold loc.
  destruct (map_result _ keys) as [chunks|] eqn:M; [|discriminate]. cbn [bind].
  intros [= <-]. apply map_result_Ok in M.
  induction M as [|k c ks cs Hk _ [IH1 IH2]]; [split; [reflexivity|constructor]|].
  cbn [List.concat flat_map]. rewrite IH1.
  destruct (filter _ frame) as [|r rs] eqn:F; [discriminate|]. injection Hk as <-.
  split; [reflexivity|]. constructor; [|exact IH2].
  exists r. apply (proj1 (filter_In (fun r => eqb (key r) k) r frame)). rewrite F. now left.
Qed.

Lemma loc_Err {A K} (eqb : K -> K -> bool) (key : A -> K) keys frame :
  (exists k, In k keys /\ filter (fun r => eqb (key r) k) frame = []) ->
  loc eqb key keys frame = Err (Builtin "KeyError").
Proof.
  intros (k & I & F). unfold loc.
  induction keys as [|k0 keys IH]; [contradiction|]. cbn [map_result].
  destruct (filter (fun r => eqb (key r) k0) frame) as [|r rs] eqn:F0; [reflexivity|].
  cbn [bind]. destruct I as [->|I]; [congruence|].
  specialize (IH I).
  destruct (map_result _ keys) as [chunks|e]; cbn [bind] in *; [discriminate|].
  injection IH as ->. reflexivity.
Qed.

Lemma loc_raises {A K} (eqb : K -> K -> bool) (key : A -> K) keys frame e :
  loc eqb key keys frame = Err e -> e = Builtin "KeyError".
Proof.
  unfold loc. induction keys as [|k keys IH]; [discriminate|]. cbn [map_result].
  destruct (filter _ frame); [now intros [= <-]|]. cbn [bind].
  destruct (map_result _ keys) as [chunks|e0]; cbn [bind] in *; [discriminate|].
  intros [= <-]. apply IH. reflexivity.
Qed.

Lemma filter_unique_key {A} (key : A -> Z) frame k :
  NoDup (map key frame) -> In k (map key frame) ->
  exists r, filter (fun r => key r =? k) frame = [r] /\ key r = k.
Proof.
  induction frame as [|x frame IH]; intros N I; [contradiction|].
  cbn [map] in N, I. inversion N as [|? ? Nx N']; subst. cbn [filter].
  destruct (Z.eqb_spec (key x) k) as [E|E].
  - exists x. split; [|exact E]. f_equal.
    destruct (filter (fun r => key r =? k) frame) as [|y ys] eqn:F; [reflexivity|].
    exfalso. apply Nx.
    assert (Y : In y (filter (fun r => key r =? k) frame)) by (rewrite F; now left).
    apply filter_In in Y. destruct Y as [Y1 Y2]. apply Z.eqb_eq in Y2.
    rewrite E, <- Y2. apply in_map, Y1.
  - destruct I as [I|I]; [contradiction|]. apply IH; assumption.
Qed.

Lemma flat_map_unique_key {A} (key : A -> Z) frame keys :
  NoDup (map key frame) ->
  Forall (fun k => In k (map key frame)) keys ->
  map key (flat_map (fun k => filter (fun r => key r =? k) frame) keys) = keys.
Proof.
  intros N. induction 1 as [|k keys Hk _ IH]; [reflexivity|].
  cbn [flat_map]. rewrite map_app, IH.
  destruct (filter_unique_key key frame k N Hk) as (r & -> & <-). reflexivity.
Qed.

(** ** The versions of a reader made from identifiers *)

(** X9.  A reader made from a list of version identifiers keeps the rows of the
    table of versions that carry one of them, at least one row for each; when
    the table lists no identifier twice, the reader's versions carry exactly
    the identifiers of the list, in its order.  An identifier the table does
    not list makes a [KeyError], after the pages have been read.  A single
    identifier is the list of that identifier. *)
Theorem init_versions_by_id (env : Env) dir leagues l s :
  (forall self s',
     __init__ env dir leagues (VersionsList l) s = (Ok self, s') ->
     exists frame,
       read_versions dir (MAXAGE env) s = (Ok frame, s') /\
       data_dir self = dir /\ _selected_leagues self = leagues /\
       (forall v, In v (versions self) <-> In v frame /\ In (version_id v) l) /\
       (forall n, In n l -> exists v, In v (versions self) /\ version_id v = n) /\
       (NoDup (map version_id frame) -> map version_id (versions self) = l))
  /\
  (forall frame s' n,
     read_versions dir (MAXAGE env) s = (Ok frame, s') ->
     In n l -> ~ In n (map version_id frame) ->
     __init__ env dir leagues (VersionsList l) s = (Err (Builtin "KeyError"), s'))
  /\
  (forall n, __init__ env dir leagues (VersionsInt n) s
             = __init__ env dir leagues (VersionsList [n]) s).
Proof.
  split; [|split].
  - intros self s' H. unfold __init__, bindIO, lift, ret in H.
    destruct (read_versions dir (MAXAGE env) s) as [[frame|] s1]; [|discriminate].
    destruct (loc Z.eqb version_id l frame) as [rows|] eqn:L; [|discriminate].
    injection H as <- <-. exists frame. cbn [data_dir _selected_leagues versions].
    apply loc_Ok in L. destruct L as [-> F].
    repeat split; auto.
    + apply in_flat_map in H. destruct H as (k & Hk & Hv).
      apply filter_In in Hv. tauto.
    + apply in_flat_map in H. destruct H as (k & Hk & Hv).
      apply filter_In in Hv. destruct Hv as [_ Hv]. apply Z.eqb_eq in Hv. now subst k.
    + intros [Hv Hl]. apply in_flat_map. exists (version_id v). split; [exact Hl|].
      apply filter_In. split; [exact Hv|apply Z.eqb_refl].
    + intros n Hn. rewrite Forall_forall in F. destruct (F n Hn) as (v & Hv & E).
      exists v. split; [|now apply Z.eqb_eq].
      apply in_flat_map. exists n. split; [exact Hn|]. apply filter_In. auto.
    + intros N. apply flat_map_unique_key; [exact N|].
      eapply Forall_impl; [|exact F]. intros k (v & Hv & E). apply Z.eqb_eq in E.
      subst k. apply in_map, Hv.
  - intros frame s' n R Hn Hf. unfold __init__, bindIO, lift. rewrite R.
    rewrite loc_Err; [reflexivity|]. exists n. split; [exact Hn|].
    destruct (filter _ frame) as [|v vs] eqn:F; [reflexivity|].
    exfalso. apply Hf.
    assert (Y : In v (filter (fun r => version_id r =? n) frame)) by (rewrite F; now left).
    apply filter_In in Y. destruct Y as [Y1 Y2]. apply Z.eqb_eq in Y2.
    rewrite <- Y2. apply in_map, Y1.
  - reflexivity.
Qed.

(** ** The selected leagues *)

Lemma read_leagues_Ok (env : Env) self s rows s' :
  read_leagues env self s = (Ok rows, s') ->
  exists doc data frame,
    get (SO_FIFA_API ++ py "/api/league") (joinpath (data_dir self) (py "leagues.json"))
        None s = (Ok doc, s') /\
    json doc = Some data /\
    _translate_league env (flat_map (map league_of_child) data) = Ok frame /\
    rows = flat_map (fun k => filter (fun r => pystr_eqb (league r) k)
                                (sort_index (fun a b => pystr_leb (league a) (league b))
                                   frame))
             (_selected_leagues self) /\
    Forall (fun k => exists r, In r frame /\ league r = k) (_selected_leagues self).
Proof.
  unfold read_leagues, bindIO, lift. intros H.
  destruct (get _ _ None s) as [[doc|] s1] eqn:G; [|discriminate].
  unfold json_load in H. destruct (json doc) as [data|] eqn:J; [|discriminate].
  destruct (_translate_league env _) as [frame|] eqn:T; [|discriminate].
  destruct (loc _ _ _ _) as [rows'|] eqn:L; [|discriminate].
  injection H as <- <-. apply loc_Ok in L. destruct L as [-> F].
  exists doc, data, frame. repeat split; auto.
  eapply Forall_impl; [|exact F]. intros k (r & I & E).
  exists r. split; [|now apply pystr_eqb_eq].
  eapply Permutation_in; [|exact I]. apply Permutation_sym, sort_index_perm.
Qed.

Lemma read_leagues_rows (env : Env) self s rows s' :
  read_leagues env self s = (Ok rows, s') ->
  forall r, In r rows -> In (league r) (_selected_leagues self).
Proof.
  intros H r I. destruct (read_leagues_Ok _ _ _ _ _ H) as (_ & _ & frame & _ & _ & _ & -> & _).
  apply in_flat_map in I. destruct I as (k & Hk & I).
  apply filter_In in I. destruct I as [_ E]. apply pystr_eqb_eq in E. now rewrite E.
Qed.

(** X10.  The table of [read_leagues] holds rows of the selected leagues only and
    at least one row for each of them; it is made from one call of the
    fetcher, for the directory of leagues, with no limit on the age of the
    cached copy. *)
Theorem read_leagues_selection (env : Env) self s rows s' :
  read_leagues env self s = (Ok rows, s') ->
  (forall r, In r rows -> In (league r) (_selected_leagues self)) /\
  (forall k, In k (_selected_leagues self) -> exists r, In r rows /\ league r = k) /\
  requests s' = requests s ++ [leagues_request self].
Proof.
  intros H. destruct (read_leagues_Ok _ _ _ _ _ H) as (doc & data & frame & G & J & T & -> & F).
  split; [|split].
  - intros r I. apply in_flat_map in I. destruct I as (k & Hk & I).
    apply filter_In in I. destruct I as [_ E]. apply pystr_eqb_eq in E. now rewrite E.
  - intros k Hk. rewrite Forall_forall in F. destruct (F k Hk) as (r & I & E).
    exists r. split; [|exact E]. apply in_flat_map. exists k. split; [exact Hk|].
    apply filter_In. split.
    + eapply Permutation_in; [|exact I]. apply sort_index_perm.
    + now apply pystr_eqb_eq.
  - destruct (get_spec (SO_FIFA_API ++ py "/api/league")
                (joinpath (data_dir self) (py "leagues.json")) None s)
      as (d & s1 & G' & R & _).
    rewrite G in G'. injection G' as _ <-. exact R.
Qed.

(** ** Rows within the selection *)

Lemma for_each_Forall {A B} (P : B -> Prop) (body : A -> IO (list B)) l s ys s' :
  for_each body l s = (Ok ys, s') ->
  (forall x s0 c s1, In x l -> body x s0 = (Ok c, s1) -> Forall P c) ->
  Forall P ys.
Proof.
  intros H K. apply for_each_inv in H. destruct H as (chunks & -> & F).
  apply Forall_concat. apply (Forall2_Forall_r _ _ _ _ F).
  intros x c I (s0 & s1 & B0). eapply K; eauto.
Qed.

Lemma map_io_Forall {A B} (P : B -> Prop) (f : A -> IO B) l : forall s ys s',
  map_io f l s = (Ok ys, s') ->
  (forall x s0 y s1, In x l -> f x s0 = (Ok y, s1) -> P y) ->
  Forall P ys.
Proof.
  induction l as [|x l IH]; intros s ys s' H K; cbn [map_io] in H.
  - injection H as <- _. constructor.
  - unfold bindIO, ret in H. destruct (f x s) as [[y|] s1] eqn:Fx; [|discriminate].
    destruct (map_io f l s1) as [[zs|] s2] eqn:Fl; [|discriminate].
    injection H as <- _. constructor.
    + eapply K; [now left|exact Fx].
    + eapply IH; [exact Fl|]. intros. eapply K; [right|]; eauto.
Qed.

Lemma map_result_Forall {A B} (P : B -> Prop) (f : A -> result B) l ys :
  map_result f l = Ok ys ->
  (forall x y, In x l -> f x = Ok y -> P y) ->
  Forall P ys.
Proof.
  intros H K. apply map_result_Ok in H.
  apply (Forall2_Forall_r _ _ _ _ H). exact K.
Qed.

Lemma parse_team_row_fields lkey version node t :
  parse_team_row lkey version node = Ok t ->
  team_league t = lkey /\ team_fifa_edition t = fifa_edition version /\
  team_update t = update version /\ 0 <= team_id t.
Proof.
  unfold parse_team_row. destruct (first _) as [link|]; [|discriminate]. cbn [bind].
  destruct (Html.get link (py "href")) as [h|]; [|discriminate]. cbn [search_group1_opt].
  unfold search_group1. destruct (Re.search pat_team h) as [m|] eqn:M; [|discriminate].
  cbn [bind].
  destruct (int_of_str (Re.group m 1)) as [n|] eqn:E; [|discriminate].
  cbn [bind]. intros [= <-]. cbn. pose proof (proj1 (int_of_str_Ok _ _ E)). auto.
Qed.

Lemma read_teams_rows (env : Env) self s frame s' :
  read_teams env self s = (Ok frame, s') ->
  frame <> [] /\
  Forall (fun t => of_selection self (team_league t) (team_fifa_edition t) (team_update t)
                   /\ 0 <= team_id t) frame.
Proof.
  unfold read_teams, bindIO, lift. intros H.
  destruct (read_leagues env self s) as [[leagues|] s1] eqn:L; [|discriminate].
  destruct (collect_teams self leagues s1) as [[teams|] s2] eqn:C; [|discriminate].
  destruct (teams_frame env teams) as [fr|] eqn:T; [|discriminate].
  injection H as <- <-. pose proof (teams_frame_Ok _ _ _ T) as ->.
  split; [destruct teams; [discriminate|discriminate]|].
  apply Forall_map.
  pose proof (read_leagues_rows env _ _ _ _ L) as L1.
  unfold collect_teams in C.
  eapply for_each_Forall; [exact C|].
  intros [lg v] s0 c s3 I B0. apply in_prod_iff in I. destruct I as [Il Iv].
  unfold bindIO, lift in B0. destruct (get _ _ None s0) as [[doc|] s4]; [|discriminate].
  destruct (map_result _ _) as [rows|] eqn:M; [|discriminate]. injection B0 as <- _.
  eapply map_result_Forall; [exact M|]. intros node t _ Pt.
  apply parse_team_row_fields in Pt. destruct Pt as (E1 & E2 & E3 & E4).
  cbn [replace_in_team_row team_league team_fifa_edition team_update team_id].
  rewrite E1, E2, E3. split; [|exact E4]. split; [apply L1, Il|]. exists v. auto.
Qed.

Lemma parse_player_link_id version df_team node r :
  parse_player_link version df_team node = Ok r -> 0 <= player_id r.
Proof.
  unfold parse_player_link.
  destruct (Html.get node (py "href")) as [h|]; [|discriminate]. cbn [search_group1_opt].
  unfold search_group1. destruct (Re.search pat_player h) as [m|] eqn:M; [|discriminate].
  cbn [bind].
  destruct (int_of_str (Re.group m 1)) as [n|] eqn:E; [|discriminate].
  cbn [bind]. intros [= <-]. exact (proj1 (int_of_str_Ok _ _ E)).
Qed.

Lemma select_teams_subset (env : Env) t df it :
  select_teams env t df = Ok it -> incl it df.
Proof.
  unfold select_teams. destruct t as [t|]; [|intros [= <-]; apply incl_refl].
  destruct (filter _ df) as [|x xs] eqn:F; [discriminate|]. intros [= <-].
  rewrite <- F. intros y Hy. apply filter_In in Hy. tauto.
Qed.

Lemma read_players_rows (env : Env) self t s frame s' :
  read_players env self t s = (Ok frame, s') ->
  frame <> [] /\
  Forall (fun r => of_selection self (player_league r) (player_fifa_edition r)
                     (player_update r)
                   /\ 0 <= player_id r) frame.
Proof.
  unfold read_players, bindIO, lift. intros H.
  destruct (read_teams env self s) as [[df|] s1] eqn:T; [|discriminate].
  destruct (select_teams env t df) as [it|] eqn:S; [|discriminate].
  destruct (collect_players self it s1) as [[players|] s2] eqn:C; [|discriminate].
  destruct (players_frame players) as [fr|] eqn:P; [|discriminate].
  injection H as <- <-. pose proof (players_frame_Ok _ _ P) as ->.
  split; [destruct players; discriminate|].
  apply read_teams_rows in T. destruct T as [_ T]. rewrite Forall_forall in T.
  apply select_teams_subset in S.
  unfold collect_players in C. eapply for_each_Forall; [exact C|].
  intros [v dft] s0 c s3 I B0. apply in_prod_iff in I. destruct I as [Iv It].
  unfold bindIO, lift in B0. destruct (get _ _ None s0) as [[doc|] s4]; [|discriminate].
  injection B0 as B0 _. unfold parse_squad in B0.
  destruct (first _) as [table|]; [|discriminate]. cbn [bind] in B0.
  eapply map_result_Forall; [exact B0|]. intros node r _ Pr.
  pose proof (parse_player_link_id _ _ _ _ Pr) as Hid.
  apply parse_player_link_team in Pr. destruct Pr as (_ & E1 & E2 & E3).
  rewrite E1, E2, E3. split; [|exact Hid]. split.
  - destruct (T dft (S dft It)) as [[Hl _] _]. exact Hl.
  - exists v. auto.
Qed.

Lemma parse_rating_row_fields lkey version node s r s' :
  parse_rating_row lkey version node s = (Ok r, s') ->
  rating_league r = lkey /\ rating_fifa_edition r = fifa_edition version /\
  rating_update r = update version.
Proof.
  unfold parse_rating_row, bindIO, lift, ret.
  destruct (first _) as [link|]; [|discriminate].
  destruct (map_io _ ratings s) as [[cells|] s1]; [|discriminate].
  intros [= <- _]. auto.
Qed.

Lemma read_team_ratings_rows (env : Env) self s frame s' :
  read_team_ratings env self s = (Ok frame, s') ->
  frame <> [] /\
  Forall (fun r => of_selection self (rating_league r) (rating_fifa_edition r)
                     (rating_update r)) frame.
Proof.
  unfold read_team_ratings, bindIO, lift. intros H.
  destruct (read_leagues env self s) as [[leagues|] s1] eqn:L; [|discriminate].
  destruct (collect_team_ratings self leagues s1) as [[teams|] s2] eqn:C; [|discriminate].
  destruct (team_ratings_frame env teams) as [fr|] eqn:T; [|discriminate].
  injection H as <- <-. pose proof (team_ratings_frame_Ok _ _ _ T) as ->.
  assert (P : Permutation (map (replace_in_rating_row env) teams)
                (sort_index rating_index_leb (map (replace_in_rating_row env) teams)))
    by apply sort_index_perm.
  split.
  - intros E. rewrite E in P. apply Permutation_sym, Permutation_nil in P.
    destruct teams; discriminate.
  - eapply Permutation_Forall; [exact P|]. apply Forall_map.
    pose proof (read_leagues_rows env _ _ _ _ L) as L1.
    unfold collect_team_ratings in C. eapply for_each_Forall; [exact C|].
    intros [lg v] s0 c s3 I B0. apply in_prod_iff in I. destruct I as [Il Iv].
    unfold bindIO in B0. destruct (get _ _ None s0) as [[doc|] s4]; [|discriminate].
    eapply map_io_Forall; [exact B0|]. intros node r s5 s6 _ Pr.
    apply parse_rating_row_fields in Pr. destruct Pr as (E1 & E2 & E3).
    cbn [replace_in_rating_row rating_league rating_fifa_edition rating_update].
    rewrite E1, E2, E3. split; [apply L1, Il|]. exists v. auto.
Qed.

(** X11.  The tables of [read_teams], [read_players] and [read_team_ratings] are
    never empty, and each of their rows is within the selection of the
    reader: its league is one of the selected leagues, its edition and
    update are those of one of the selected versions.  The identifiers of
    teams and players are not negative. *)
Theorem tables_within_selection (env : Env) self s :
  (forall frame s',
     read_teams env self s = (Ok frame, s') ->
     frame <> [] /\
     Forall (fun t => of_selection self (team_league t) (team_fifa_edition t)
                        (team_update t)
                      /\ 0 <= team_id t) frame)
  /\
  (forall t frame s',
     read_players env self t s = (Ok frame, s') ->
     frame <> [] /\
     Forall (fun r => of_selection self (player_league r) (player_fifa_edition r)
                        (player_update r)
                      /\ 0 <= player_id r) frame)
  /\
  (forall frame s',
     read_team_ratings env self s = (Ok frame, s') ->
     frame <> [] /\
     Forall (fun r => of_selection self (rating_league r) (rating_fifa_edition r)
                        (rating_update r)) frame).
Proof.
  split; [|split].
  - intros frame s'. apply read_teams_rows.
  - intros t frame s'. apply read_players_rows.
  - intros frame s'. apply read_team_ratings_rows.
Qed.

(** ** The players of [read_player_ratings] *)

Lemma unique_In l : forall x, In x (unique l) <-> In x l.
Proof.
  induction l as [|y l IH]; intros x; [tauto|]. cbn [unique In].
  rewrite filter_In, IH. destruct (Z.eqb_spec x y) as [->|N]; cbn [negb].
  - split; auto.
  - split; [intros [E|[I _]]; auto|intros [E|I]; [auto|right; auto]].
Qed.

Lemma unique_NoDup l : NoDup (unique l).
Proof.
  induction l as [|y l IH]; [constructor|]. cbn [unique]. constructor.
  - intros I. apply filter_In in I. destruct I as [_ I].
    rewrite Z.eqb_refl in I. discriminate.
  - apply NoDup_filter, IH.
Qed.

Lemma collect_ratings_spec (self : SoFIFA) ids s :
  exists k,
    (k <= List.length (list_prod (versions self) ids))%nat /\
    requests (snd (collect_ratings self ids s))
    = requests s ++ map (profile_request self) (firstn k (list_prod (versions self) ids)) /\
    (forall records, fst (collect_ratings self ids s) = Ok records ->
       k = List.length (list_prod (versions self) ids) /\
       List.length records = (List.length (versions self) * List.length ids)%nat).
Proof.
  unfold collect_ratings.
  set (body := fun '(version, p0) =>
                 (doc <- get (player_url p0 (version_id version))
                           (joinpath (data_dir self) (player_file p0 (version_id version)))
                           None ;;
                  scores <- lift (player_scores version p0 (html doc)) ;;
                  ret [scores])%io).
  destruct (for_each_requests body (profile_request self)
              (list_prod (versions self) ids)) with (s := s) as (k & Hk & Hr & Hok).
  { intros [v p0] s0. unfold body, bindIO, lift, ret.
    destruct (get_spec (player_url p0 (version_id v))
                (joinpath (data_dir self) (player_file p0 (version_id v))) None s0)
      as (d & s1 & -> & R & _).
    destruct (player_scores v p0 (html d)); exact R. }
  exists k. split; [exact Hk|]. split; [exact Hr|].
  intros records E. split; [apply Hok; rewrite E; reflexivity|].
  rewrite <- length_prod.
  destruct (for_each body (list_prod (versions self) ids) s) as [[ys|] s1] eqn:F;
    [|discriminate].
  cbn [fst] in E. injection E as ->.
  apply for_each_inv in F. destruct F as (chunks & -> & F2).
  clear - F2. induction F2 as [|[v p0] c l cs (s0 & s1 & B0) _ IH]; [reflexivity|].
  cbn [List.concat List.length]. rewrite length_app, IH.
  unfold body, bindIO, lift, ret in B0.
  destruct (get _ _ None s0) as [[doc|] s2]; [|discriminate].
  destruct (player_scores v p0 (html doc)); [|discriminate].
  injection B0 as <- _. reflexivity.
Qed.

Lemma ratings_frame_Ok (env : Env) records frame :
  ratings_frame env records = Ok frame ->
  records <> [] /\
  List.length frame = List.length records /\
  Sorted (fun a b => pystr_leb (index_player a) (index_player b) = true) frame.
Proof.
  unfold ratings_frame. cbv zeta.
  remember (map (map (fun kv => (standardize_colname env (fst kv), snd kv))) records)
    as renamed eqn:R.
  destruct renamed as [|r rs]; [discriminate|].
  destruct (existsb _ _); [discriminate|].
  destruct (forallb _ _); [|discriminate]. intros E.
  assert (X : frame = sort_index (fun a b => pystr_leb (index_player a) (index_player b))
                        (r :: rs)) by congruence.
  clear E. subst frame.
  split; [intros ->; discriminate|]. split.
  - transitivity (List.length (r :: rs)).
    + symmetry. apply Permutation_length, sort_index_perm.
    + rewrite R. apply length_map.
  - apply sort_index_sorted. intros a b. apply pystr_leb_total.
Qed.

Lemma read_player_ratings_Ok (env : Env) self t p s frame s' :
  read_player_ratings env self t p s = (Ok frame, s') ->
  exists ids s1,
    select_players env self t p s = (Ok ids, s1) /\
    List.length frame = (List.length (versions self) * List.length ids)%nat /\
    frame <> [] /\
    Sorted (fun a b => pystr_leb (index_player a) (index_player b) = true) frame /\
    requests s' = requests s1 ++ map (profile_request self) (list_prod (versions self) ids).
Proof.
  unfold read_player_ratings, bindIO, lift. intros H.
  destruct (select_players env self t p s) as [[ids|] s1]; [|discriminate].
  destruct (collect_ratings_spec self ids s1) as (k & Hk & Hr & Hl).
  destruct (collect_ratings self ids s1) as [[records|] s2]; [|discriminate].
  cbn [fst snd] in *. destruct (Hl records eq_refl) as [-> L].
  destruct (ratings_frame env records) as [fr|] eqn:F; [|discriminate].
  injection H as <- <-. apply ratings_frame_Ok in F. destruct F as (N & Lf & Sf).
  exists ids, s1. split; [reflexivity|]. split; [congruence|].
  split; [|split; [exact Sf|]].
  - intros ->. cbn in Lf. destruct records; [congruence|discriminate].
  - rewrite Hr, firstn_all. reflexivity.
Qed.

(** X12.  The table of [read_player_ratings] has one row for each pair of a
    selected version and a player, in the order of the names of the players;
    it is never empty, and the profile page of each pair has been requested,
    in the order of the pairs. *)
Theorem player_ratings_table (env : Env) self t p s frame s' :
  read_player_ratings env self t (Some p) s = (Ok frame, s') ->
  List.length frame = (List.length (versions self) * List.length (player_ids p))%nat /\
  frame <> [] /\
  Sorted (fun a b => pystr_leb (index_player a) (index_player b) = true) frame /\
  requests s' = requests s ++ map (profile_request self)
                                (list_prod (versions self) (player_ids p)).
Proof.
  intros H. apply read_player_ratings_Ok in H.
  destruct H as (ids & s1 & S & L & N & So & R).
  assert (E : ids = player_ids p /\ s1 = s).
  { destruct p; cbn [select_players] in S; unfold ret in S; injection S as <- <-; auto. }
  destruct E as [-> ->]. auto.
Qed.

(** X13.  Without a player argument the players are those of [read_players],
    each identifier once, however many roster pages list it; the profile
    pages are then requested once for each pair of a selected version and a
    player, and the table has one row for each pair. *)
Theorem all_players_once (env : Env) self t s frame s' :
  read_player_ratings env self t None s = (Ok frame, s') ->
  exists df s1 ids,
    read_players env self t s = (Ok df, s1) /\
    NoDup ids /\
    (forall x, In x ids <-> In x (map player_id df)) /\
    requests s' = requests s1 ++ map (profile_request self) (list_prod (versions self) ids) /\
    List.length frame = (List.length (versions self) * List.length ids)%nat.
Proof.
  intros H. apply read_player_ratings_Ok in H.
  destruct H as (ids & s1 & S & L & N & So & R).
  cbn [select_players] in S. unfold bindIO, ret in S.
  destruct (read_players env self t s) as [[df|] s2]; [|discriminate].
  injection S as <- <-.
  exists df, s2, (unique (map player_id df)).
  split; [reflexivity|]. split; [apply unique_NoDup|].
  split; [apply unique_In|]. auto.
Qed.

(** ** One cache file for two addresses *)

Lemma path_eqb_eq a b : path_eqb a b = true <-> a = b.
Proof.
  unfold path_eqb. rewrite andb_true_iff, !pystr_eqb_eq.
  destruct a as [d1 n1], b as [d2 n2]; cbn [dir name].
  split; [intros [-> ->]; reflexivity|intros [= -> ->]; auto].
Qed.

Lemma cache_lookup_cons p q e c :
  cache_lookup q ((p, e) :: c) = if path_eqb p q then Some e else cache_lookup q c.
Proof. unfold cache_lookup. cbn [find fst]. destruct (path_eqb p q); reflexivity. Qed.

Lemma get_hit url p s e :
  cache_lookup p (cache s) = Some e ->
  get url p None s
  = (Ok (content e),
     {| web := web s; cache := cache s;
        requests := requests s
                    ++ [{| req_url := url; req_path := p; req_max_age := None |}];
        downloads := downloads s; warnings := warnings s |}).
Proof. intros H. unfold get. rewrite H. reflexivity. Qed.

Lemma get_stores url p s d s' :
  get url p None s = (Ok d, s') ->
  (exists e, cache_lookup p (cache s') = Some e /\ content e = d) /\ extends s s'.
Proof.
  unfold get. destruct (cache_lookup p (cache s)) as [e|] eqn:L; cbn [fresh]; intros E;
    pose proof (f_equal snd E) as Es; pose proof (f_equal fst E) as Ed;
    cbn [fst snd] in Es, Ed; subst s'; cbn [cache].
  - split; [exists e; split; [exact L|congruence]|]. intros q e0 H. exact H.
  - split.
    + exists {| content := d; age := 0 |}.
      rewrite cache_lookup_cons, (proj2 (path_eqb_eq p p) eq_refl).
      split; [congruence|reflexivity].
    + intros q e0 H. cbn [cache]. rewrite cache_lookup_cons.
      destruct (path_eqb p q) eqn:X; [|exact H].
      apply path_eqb_eq in X. subst q. congruence.
Qed.

Lemma extends_trans s1 s2 s3 : extends s1 s2 -> extends s2 s3 -> extends s1 s3.
Proof. unfold extends. auto. Qed.

(** After the loop of [read_teams] every listing page is in the cache. *)
Lemma collect_teams_stores (env : Env) self leagues s teams s' :
  collect_teams self leagues s = (Ok teams, s') ->
  extends s s' /\
  Forall (fun lv => exists e, cache_lookup (teams_path self lv) (cache s') = Some e)
         (list_prod leagues (versions self)).
Proof.
  unfold collect_teams. generalize (list_prod leagues (versions self)) as l.
  intros l. revert s teams. induction l as [|[lg v] l IH]; intros s teams H.
  - cbn [for_each] in H. unfold ret in H. injection H as _ <-.
    split; [intros q e X; exact X|constructor].
  - cbn [for_each] in H. unfold bindIO at 1 in H.
    destruct (bindIO (get _ _ None) _ s) as [[c|] sa] eqn:B0; [|discriminate].
    unfold bindIO at 1 in H.
    destruct (for_each _ l sa) as [[zs|] sb] eqn:Fl; [|discriminate].
    unfold ret in H. injection H as _ <-.
    destruct (IH _ _ Fl) as [E2 F2].
    unfold bindIO, lift in B0.
    destruct (get _ _ None s) as [[doc|] s0] eqn:G; [|discriminate].
    injection B0 as _ <-. apply get_stores in G. destruct G as [(e & Le & _) E1].
    split; [eapply extends_trans; eassumption|].
    constructor; [|exact F2]. exists e. apply E2. exact Le.
Qed.

(** A loop of [read_team_ratings] over pages that are all in the cache
    leaves the cache as it is and downloads nothing. *)
Lemma collect_team_ratings_quiet self leagues s :
  Forall (fun lv => exists e, cache_lookup (teams_path self lv) (cache s) = Some e)
         (list_prod leagues (versions self)) ->
  cache (snd (collect_team_ratings self leagues s)) = cache s /\
  downloads (snd (collect_team_ratings self leagues s)) = downloads s.
Proof.
  unfold collect_team_ratings. generalize (list_prod leagues (versions self)) as l.
  set (body := fun '(lg, version) =>
                 (doc <- get (team_ratings_url (league_id lg) (version_id version))
                           (joinpath (data_dir self)
                              (teams_file (league_id lg) (version_id version))) None ;;
                  map_io (parse_rating_row (league lg) version)
                    (Html.xpath (html doc) (py "//table/tbody/tr")))%io).
  intros l. revert s. induction l as [|[lg v] l IH]; intros s F.
  - cbn. auto.
  - inversion F as [|? ? (e & Le) F']; subst.
    unfold teams_path in Le. cbn [fst snd] in Le.
    destruct (for_each body ((lg, v) :: l) s) as [r s'] eqn:R. cbn [snd].
    cbn [for_each] in R. unfold bindIO at 1 in R.
    assert (B : exists s0, cache s0 = cache s /\ downloads s0 = downloads s /\
                  body (lg, v) s
                  = map_io (parse_rating_row (league lg) v)
                      (Html.xpath (html (content e)) (py "//table/tbody/tr")) s0).
    { eexists. split; [|split]; [| |unfold body, bindIO; rewrite (get_hit _ _ _ _ Le);
                                     reflexivity]; reflexivity. }
    destruct B as (s0 & C0 & D0 & B). rewrite B in R.
    pose proof (quiet_map_io (parse_rating_row (league lg) v)
                  (Html.xpath (html (content e)) (py "//table/tbody/tr"))
                  (quiet_parse_rating_row (league lg) v) s0) as (_ & C & _ & D).
    destruct (map_io _ _ s0) as [[rows|] s1]; cbn [snd] in C, D.
    + assert (F1 : Forall (fun lv => exists e, cache_lookup (teams_path self lv) (cache s1)
                                               = Some e) l).
      { eapply Forall_impl; [|exact F']. intros lv (e1 & L1). exists e1. congruence. }
      destruct (IH s1 F1) as [C1 D1]. unfold bindIO in R.
      destruct (for_each body l s1) as [[zs|] s2]; cbn [snd] in C1, D1; unfold ret in R;
        assert (s' = s2) by congruence; subst s'; split; congruence.
    + assert (s' = s1) by congruence. subst s'. split; congruence.
Qed.

Lemma team_ratings_url_differs lg r : team_ratings_url lg r <> teams_url lg r.
Proof.
  unfold team_ratings_url. intros E. apply (f_equal (@List.length Z)) in E.
  rewrite length_app in E.
  assert (0 < List.length (flat_map (fun kd => py "&showCol[]=" ++ py (fst kd)) ratings))%nat
    by (vm_compute; lia).
  lia.
Qed.

Lemma read_leagues_get (env : Env) self s doc s' :
  get (SO_FIFA_API ++ py "/api/league") (joinpath (data_dir self) (py "leagues.json"))
      None s = (Ok doc, s') ->
  read_leagues env self s = (leagues_of_document env self doc, s').
Proof.
  intros G. unfold read_leagues, leagues_of_document. unfold bindIO at 1. rewrite G.
  unfold bindIO, lift. destruct (json_load doc); [|reflexivity]. cbn [bind].
  destruct (_translate_league env _); reflexivity.
Qed.

(** X14.  With the fetcher keyed by the cache file, as it is modelled: after
    [read_teams] has returned a table, [read_team_ratings] downloads
    nothing.  Each address it asks for, the one that names the rating
    columns, differs from the address [read_teams] asked for, but the cache
    file is the same, so that it is given the page [read_teams] stored. *)
Theorem listing_pages_shared (env : Env) self s frame s1 :
  read_teams env self s = (Ok frame, s1) ->
  downloads (snd (read_team_ratings env self s1)) = downloads s1 /\
  cache (snd (read_team_ratings env self s1)) = cache s1 /\
  forall lg r, team_ratings_url lg r <> teams_url lg r.
Proof.
  intros H. unfold read_teams in H. unfold bindIO at 1 in H.
  destruct (get_ok (SO_FIFA_API ++ py "/api/league")
              (joinpath (data_dir self) (py "leagues.json")) None s) as (doc & s0 & G).
  rewrite (read_leagues_get _ _ _ _ _ G) in H.
  destruct (leagues_of_document env self doc) as [leagues|] eqn:L; [|discriminate].
  unfold bindIO, lift in H.
  destruct (collect_teams self leagues s0) as [[teams|] sb] eqn:C; [|discriminate].
  destruct (teams_frame env teams); [|discriminate].
  assert (sb = s1) by congruence. subst sb. clear H.
  destruct (collect_teams_stores env _ _ _ _ _ C) as [E F].
  apply get_stores in G. destruct G as [(e & Le & Ce) _]. apply E in Le.
  pose proof (get_hit (SO_FIFA_API ++ py "/api/league") _ _ _ Le) as G1.
  rewrite Ce in G1.
  set (s2 := {| web := web s1; cache := cache s1; requests := _;
                downloads := downloads s1; warnings := warnings s1 |}) in G1.
  destruct (collect_team_ratings_quiet self leagues s2 F) as [Q1 Q2].
  split; [|split; [|apply team_ratings_url_differs]].
  - unfold read_team_ratings. unfold bindIO at 1.
    rewrite (read_leagues_get _ _ _ _ _ G1), L. unfold bindIO, lift.
    destruct (collect_team_ratings self leagues s2) as [[rows|] s3]; exact Q2.
  - unfold read_team_ratings. unfold bindIO at 1.
    rewrite (read_leagues_get _ _ _ _ _ G1), L. unfold bindIO, lift.
    destruct (collect_team_ratings self leagues s2) as [[rows|] s3]; exact Q1.
Qed.

(** ** The values of a player record *)

Lemma extract_points_set capa k codes : forall scores scores',
  extract_points capa codes scores = Ok scores' ->
  (exists kc, In kc codes /\ py (fst kc) = k) \/
  (exists v, dict_get k scores = Some (VStr v) /\
             v <> [] /\ forallb Unicode.isdecimal v = true) ->
  exists v, dict_get k scores' = Some (VStr v) /\
            v <> [] /\ forallb Unicode.isdecimal v = true.
Proof.
  induction codes as [|[key code] codes IH]; intros scores scores' H C;
    cbn [extract_points] in H.
  - injection H as <-. destruct C as [(kc & [] & _)|C]. exact C.
  - unfold search_group1 in H.
    destruct (Re.search (pat_point code) capa) as [m|] eqn:M; [|discriminate].
    cbn [bind] in H. apply (IH _ _ H).
    unfold pat_point in M. rewrite !app_assoc in M.
    apply (search_digit_group _ []) in M; [|intros []].
    destruct (pystr_eqb (py key) k) eqn:K.
    + right. apply pystr_eqb_eq in K. subst k. exists (Re.group m 1).
      split; [apply dict_get_set_same|exact M].
    + destruct C as [(kc & [<-|I] & Hk)|(v & G & Pv)].
      * cbn [fst] in Hk. rewrite Hk in K.
        rewrite (proj2 (pystr_eqb_eq k k) eq_refl) in K. discriminate.
      * left. eauto.
      * right. exists v. rewrite dict_get_set_other by exact K. auto.
Qed.

Lemma extract_points_other capa k codes : forall scores scores',
  extract_points capa codes scores = Ok scores' ->
  forallb (fun kc => negb (pystr_eqb (py (fst kc)) k)) codes = true ->
  dict_get k scores' = dict_get k scores.
Proof.
  induction codes as [|[key code] codes IH]; intros scores scores' H N;
    cbn [extract_points] in H.
  - now injection H as <-.
  - cbn [forallb fst] in N. apply andb_prop in N. destruct N as [N1 N2].
    destruct (search_group1 _ capa) as [v|]; [|discriminate]. cbn [bind] in H.
    rewrite (IH _ _ H N2). apply dict_get_set_other.
    now destruct (pystr_eqb (py key) k).
Qed.

Lemma extract_scores_other tree k labels : forall scores scores',
  extract_scores tree labels scores = Ok scores' ->
  forallb (fun s => negb (pystr_eqb (py s) k)) labels = true ->
  dict_get k scores' = dict_get k scores.
Proof.
  induction labels as [|s labels IH]; intros scores scores' H N;
    cbn [extract_scores] in H.
  - now injection H as <-.
  - cbn [forallb] in N. apply andb_prop in N. destruct N as [N1 N2].
    destruct (extract_score tree (py s)) as [v|]; [|discriminate]. cbn [bind] in H.
    rewrite (IH _ _ H N2). apply dict_get_set_other.
    now destruct (pystr_eqb (py s) k).
Qed.

Lemma lstrip_incl s x : In x (lstrip s) -> In x s.
Proof.
  induction s as [|c s IH]; [auto|]. cbn [lstrip].
  destruct (Unicode.isspace c); [intros I; right; auto|auto].
Qed.

Lemma strip_incl s x : In x (strip s) -> In x s.
Proof.
  unfold strip, rstrip. intros I. apply in_rev, lstrip_incl, in_rev in I.
  - apply lstrip_incl, I.
Qed.

Lemma before_hyphen_no_hyphen s : ~ In 45 (before_hyphen s).
Proof.
  induction s as [|c s IH]; [auto|]. cbn [before_hyphen].
  destruct (Z.eqb_spec c 45); [auto|]. intros [E|I]; [congruence|auto].
Qed.

(** X16.  In every record of a profile page the age, the height and the weight
    are integers not below zero, while the six point scores are kept as
    strings, each a non-empty run of decimal digits; the edition and the
    update are those of the version; and the name holds no hyphen, since it
    is cut at the first one of the title. *)
Theorem player_record_values version p tree scores :
  player_scores version p tree = Ok scores ->
  (exists age height weight,
     0 <= age /\ 0 <= height /\ 0 <= weight /\
     dict_get (py "age") scores = Some (VInt age) /\
     dict_get (py "height") scores = Some (VInt height) /\
     dict_get (py "weight") scores = Some (VInt weight)) /\
  (exists name, dict_get (py "name") scores = Some (VStr name) /\ ~ In 45 name) /\
  dict_get (py "fifa_edition") scores = Some (of_option (fifa_edition version)) /\
  dict_get (py "update") scores = Some (of_option (update version)) /\
  Forall (fun kc => exists v, dict_get (py (fst kc)) scores = Some (VStr v) /\
                              v <> [] /\ forallb Unicode.isdecimal v = true)
         point_scores.
Proof.
  intros H. apply player_scores_stages in H.
  destruct H as (player & simple_name & age & mo & d & height & weight & pos & avatar
                 & name_line & capa & s2 & s3 & wage & value
                 & A0 & _ & _ & H0 & We0 & _ & _ & P & S & ->).
  (* the amounts and the score labels leave the other keys as they are *)
  assert (T : forall k,
            pystr_eqb (py "Value") k = false -> pystr_eqb (py "Wage") k = false ->
            forallb (fun s => negb (pystr_eqb (py s) k)) score_labels = true ->
            dict_get k (dict_set (py "Value") (VStr (str_of_int value))
                          (dict_set (py "Wage") (VStr (str_of_int wage)) s3))
            = dict_get k s2).
  { intros k K1 K2 K3. rewrite !dict_get_set_other by assumption.
    apply (extract_scores_other _ _ _ _ _ S K3). }
  (* and so do the point scores *)
  assert (U : forall k,
            pystr_eqb (py "Value") k = false -> pystr_eqb (py "Wage") k = false ->
            forallb (fun s => negb (pystr_eqb (py s) k)) score_labels = true ->
            forallb (fun kc => negb (pystr_eqb (py (fst kc)) k)) point_scores = true ->
            dict_get k (dict_set (py "Value") (VStr (str_of_int value))
                          (dict_set (py "Wage") (VStr (str_of_int wage)) s3))
            = dict_get k
                (profile_head version player simple_name age mo d height weight pos avatar
                   (strip (before_hyphen name_line)))).
  { intros k K1 K2 K3 K4. rewrite (T k K1 K2 K3).
    apply (extract_points_other _ _ _ _ _ P K4). }
  split; [|split; [|split; [|split]]].
  - exists age, height, weight. repeat split; try assumption;
      rewrite U by (vm_compute; reflexivity); unfold profile_head;
      rewrite !dict_get_set_other by (vm_compute; reflexivity); apply dict_get_set_same.
  - exists (strip (before_hyphen name_line)). split.
    + rewrite U by (vm_compute; reflexivity). apply dict_get_set_same.
    + intros I. apply strip_incl in I. exact (before_hyphen_no_hyphen _ I).
  - rewrite U by (vm_compute; reflexivity). unfold profile_head.
    rewrite !dict_get_set_other by (vm_compute; reflexivity). reflexivity.
  - rewrite U by (vm_compute; reflexivity). unfold profile_head.
    rewrite !dict_get_set_other by (vm_compute; reflexivity). reflexivity.
  - apply Forall_forall. intros kc I.
    destruct (extract_points_set capa (py (fst kc)) _ _ _ P) as (v & G & Pv).
    { left. eauto. }
    exists v. split; [|exact Pv]. rewrite T; [exact G| | |].
    all: repeat (destruct I as [<-|I]; [vm_compute; reflexivity|]); destruct I.
Qed.

(** ** The pages a table asks for *)

(** When a loop that makes one call in each turn has gone through, it has
    made the calls of all its turns. *)
Lemma for_each_requests_Ok {A B} (body : A -> IO (list B)) (rq : A -> Request) l s ys s' :
  (forall x s, requests (snd (body x s)) = requests s ++ [rq x]) ->
  for_each body l s = (Ok ys, s') ->
  requests s' = requests s ++ map rq l.
Proof.
  intros Hb H. destruct (for_each_requests body rq l Hb s) as (k & _ & Hr & Hok).
  rewrite H in Hr, Hok. cbn [fst snd] in Hr, Hok.
  rewrite Hr, (Hok eq_refl), firstn_all. reflexivity.
Qed.

(** X17.  The pages behind the tables, in the order in which they are asked
    for: after the directory of leagues, [read_teams] and
    [read_team_ratings] ask for the listing page of every pair of a league
    and a selected version; after the teams, [read_players] asks for the
    roster page of every pair of a selected version and a team that passes
    the filter.  The two calls for a listing page differ in the address and
    agree in the cache file. *)
Theorem pages_asked_for (env : Env) self s :
  (forall frame s',
     read_teams env self s = (Ok frame, s') ->
     exists leagues s0,
       read_leagues env self s = (Ok leagues, s0) /\
       requests s' = requests s0
                     ++ map (teams_request self) (list_prod leagues (versions self)))
  /\
  (forall frame s',
     read_team_ratings env self s = (Ok frame, s') ->
     exists leagues s0,
       read_leagues env self s = (Ok leagues, s0) /\
       requests s' = requests s0
                     ++ map (team_ratings_request self) (list_prod leagues (versions self)))
  /\
  (forall t frame s',
     read_players env self t s = (Ok frame, s') ->
     exists teams s1 iterator,
       read_teams env self s = (Ok teams, s1) /\
       select_teams env t teams = Ok iterator /\
       requests s' = requests s1
                     ++ map (roster_request self) (list_prod (versions self) iterator))
  /\
  (forall lv,
     req_path (teams_request self lv) = req_path (team_ratings_request self lv) /\
     req_url (teams_request self lv) <> req_url (team_ratings_request self lv)).
Proof.
  split; [|split; [|split]].
  - intros frame s' H. unfold read_teams, bindIO, lift in H.
    destruct (read_leagues env self s) as [[leagues|] s0]; [|discriminate].
    destruct (collect_teams self leagues s0) as [[teams|] s1] eqn:C; [|discriminate].
    destruct (teams_frame env teams); [|discriminate].
    assert (s1 = s') by congruence. subst s1.
    exists leagues, s0. split; [reflexivity|].
    unfold collect_teams in C. eapply for_each_requests_Ok; [|exact C].
    intros [lg v] sx. unfold bindIO, lift.
    destruct (get_spec (teams_url (league_id lg) (version_id v))
                (joinpath (data_dir self) (teams_file (league_id lg) (version_id v)))
                None sx) as (d & sy & -> & R & _).
    destruct (map_result _ _); exact R.
  - intros frame s' H. unfold read_team_ratings, bindIO, lift in H.
    destruct (read_leagues env self s) as [[leagues|] s0]; [|discriminate].
    destruct (collect_team_ratings self leagues s0) as [[teams|] s1] eqn:C; [|discriminate].
    destruct (team_ratings_frame env teams); [|discriminate].
    assert (s1 = s') by congruence. subst s1.
    exists leagues, s0. split; [reflexivity|].
    unfold collect_team_ratings in C. eapply for_each_requests_Ok; [|exact C].
    intros [lg v] sx. unfold bindIO.
    destruct (get_spec (team_ratings_url (league_id lg) (version_id v))
                (joinpath (data_dir self) (teams_file (league_id lg) (version_id v)))
                None sx) as (d & sy & -> & R & _).
    destruct (quiet_map_io (parse_rating_row (league lg) v)
                (Html.xpath (html d) (py "//table/tbody/tr"))
                (quiet_parse_rating_row (league lg) v) sy) as (_ & _ & Q & _).
    rewrite Q. exact R.
  - intros t frame s' H. unfold read_players, bindIO, lift in H.
    destruct (read_teams env self s) as [[teams|] s1]; [|discriminate].
    destruct (select_teams env t teams) as [iterator|] eqn:St; [|discriminate].
    destruct (collect_players self iterator s1) as [[players|] s2] eqn:C; [|discriminate].
    destruct (players_frame players); [|discriminate].
    assert (s2 = s') by congruence. subst s2.
    exists teams, s1, iterator. split; [reflexivity|]. split; [exact St|].
    unfold collect_players in C. eapply for_each_requests_Ok; [|exact C].
    intros [v dft] sx. unfold bindIO, lift.
    destruct (get_spec (players_url (team_id dft) (version_id v))
                (joinpath (data_dir self) (players_file (team_id dft) (version_id v)))
                None sx) as (d & sy & -> & R & _).
    destruct (parse_squad v dft (html d)); exact R.
  - intros lv. split; [reflexivity|]. cbn [req_url teams_request team_ratings_request].
    intros E. symmetry in E. exact (team_ratings_url_differs _ _ E).
Qed.

(** ** The further properties at concrete pages *)

(** The versions of the example site come from the update options of its
    two update pages. *)
Lemma versions_come_from_links_witness :
  exists frame s',
    read_versions Example.dir (Some 1) (Example.session Example.good_site) = (Ok frame, s')
    /\ frame <> []
    /\ (exists chunks,
          List.length chunks = 2%nat /\
          frame = sort_index (fun a b => version_id a <=? version_id b)
                    (List.concat chunks))
    /\ forall row, In row frame -> 0 <= version_id row.
Proof.
  eassert (R : read_versions Example.dir (Some 1) (Example.session Example.good_site)
               = (Ok _, _)) by (vm_compute; reflexivity).
  do 2 eexists. split; [exact R|].
  destruct (versions_come_from_links _ _ _ _ _ R) as (N & (chunks & _ & L & E) & P).
  split; [exact N|]. split.
  - exists chunks. split; [exact L|exact E].
  - intros row I.
    destruct (P row I) as (ed & page & node & href & m & _ & _ & _ & _ & _ & Z & _).
    exact Z.
Defined.


(** The link [/?r=240050&set=true] is read back to version 240050. *)
Lemma update_link_round_trip_witness :
  parse_update (Some (py "FC 24"))
    (Example.leaf "Sep 6, 2024" [("value", "/?r=240050&set=true")%string])
  = Ok {| version_id := 240050; fifa_edition := Some (py "FC 24");
          update := Some (py "Sep 6, 2024") |}.
Proof.
  refine (eq_trans
            (update_link_round_trip (Some (py "FC 24"))
               (Example.leaf "Sep 6, 2024" [("value", "/?r=240050&set=true")%string])
               (py "/?") 240050 (py "&set=true") _ _ _ _) _).
  - lia.
  - change (py "/?") with [47; 63]. repeat (constructor; [lia|]). constructor.
  - vm_compute. reflexivity.
  - vm_compute. reflexivity.
  - vm_compute. reflexivity.
Defined.

(** The links [/team/5/chelsea/] and [/player/231747/bukayo-saka/] are read
    back to team 5 and player 231747. *)
Lemma id_link_round_trip_witness :
  team_id
    match parse_team_row (py "[England] Premier League") Example.version_24
            (Example.team_row_node "/team/5/chelsea/" "Chelsea") with
    | Ok r => r
    | Err _ => {| team_id := -1; team := None; team_league := [];
                  team_fifa_edition := None; team_update := None |}
    end = 5
  /\
  player_id
    match parse_player_link Example.version_24
            {| team_id := 3; team := Some (py "Arsenal");
               team_league := py "[England] Premier League";
               team_fifa_edition := None; team_update := None |}
            (Example.player_link "/player/231747/bukayo-saka/" "Bukayo Saka") with
    | Ok r => r
    | Err _ => {| player_id := -1; player := None; player_team := None;
                  player_league := []; player_fifa_edition := None;
                  player_update := None |}
    end = 231747.
Proof.
  split.
  - destruct (id_link_round_trip Example.env (py "[England] Premier League")
                Example.version_24
                {| team_id := 3; team := None; team_league := [];
                   team_fifa_edition := None; team_update := None |}
                (Example.team_row_node "/team/5/chelsea/" "Chelsea")
                (Example.leaf "Chelsea" [("href", "/team/5/chelsea/")%string])
                [] 5 (py "chelsea") [] []) as [T _].
    + lia.
    + constructor.
    + discriminate.
    + repeat (constructor; [vm_compute; reflexivity|]). constructor.
    + rewrite T; [reflexivity| |]; vm_compute; reflexivity.
  - destruct (id_link_round_trip Example.env (py "[England] Premier League")
                Example.version_24
                {| team_id := 3; team := Some (py "Arsenal");
                   team_league := py "[England] Premier League";
                   team_fifa_edition := None; team_update := None |}
                (Example.player_link "/player/231747/bukayo-saka/" "Bukayo Saka")
                (Example.player_link "/player/231747/bukayo-saka/" "Bukayo Saka")
                [] 231747 (py "bukayo-saka") [] []) as [_ P].
    + lia.
    + constructor.
    + discriminate.
    + repeat (constructor; [vm_compute; reflexivity|]). constructor.
    + rewrite P; [reflexivity|]. vm_compute. reflexivity.
Defined.

(** "€500K" is exactly 500 times 1,000. *)
Lemma remove_currency_whole_amount_witness :
  remove_currency (VStr (euro :: py "500K")) = Ok (str_of_int (500 * 1000)).
Proof.
  apply (remove_currency_whole_amount (euro :: py "500K") (py "500")).
  - vm_compute. reflexivity.
  - discriminate.
  - vm_compute. reflexivity.
  - vm_compute. reflexivity.
Defined.

(** "1.2.3" holds two points: a [ValueError]. *)
Lemma remove_currency_errors_witness :
  remove_currency (VStr (py "1.2.3")) = Err (Builtin "ValueError").
Proof.
  apply (proj2 (remove_currency_errors (py "1.2.3"))).
  right. vm_compute. lia.
Defined.

(** The record of the example profile has the 55 columns. *)
Lemma player_record_columns_witness :
  exists scores,
    player_scores Example.version_24 231747
      (Example.profile Example.basic_info_line [] 0) = Ok scores
    /\ map fst scores = player_columns.
Proof.
  eassert (R : player_scores Example.version_24 231747
                 (Example.profile Example.basic_info_line [] 0) = Ok _)
    by (vm_compute; reflexivity).
  eexists. split; [exact R|].
  exact (proj1 (player_record_columns _ _ _ _ R)).
Defined.

(** A reader made from the two identifiers of the example site holds a
    version for the older one. *)
Lemma init_versions_by_id_witness :
  exists self s',
    __init__ Example.env Example.dir [py "[England] Premier League"]
      (VersionsList [230054; 240050]) (Example.session Example.good_site) = (Ok self, s')
    /\ exists v, In v (versions self) /\ version_id v = 230054.
Proof.
  eassert (R : __init__ Example.env Example.dir [py "[England] Premier League"]
                 (VersionsList [230054; 240050]) (Example.session Example.good_site)
               = (Ok _, _)) by (vm_compute; reflexivity).
  do 2 eexists. split; [exact R|].
  destruct (init_versions_by_id Example.env Example.dir [py "[England] Premier League"]
              [230054; 240050] (Example.session Example.good_site)) as (H & _).
  destruct (H _ _ R) as (frame & _ & _ & _ & _ & B & _).
  apply B. left. reflexivity.
Defined.

(** The league of the example reader is read with one call. *)
Lemma read_leagues_selection_witness :
  exists rows s',
    read_leagues Example.env Example.reader (Example.session Example.league_site)
    = (Ok rows, s')
    /\ requests s' = [leagues_request Example.reader].
Proof.
  eassert (R : read_leagues Example.env Example.reader
                 (Example.session Example.league_site) = (Ok _, _))
    by (vm_compute; reflexivity).
  do 2 eexists. split; [exact R|].
  destruct (read_leagues_selection _ _ _ _ _ R) as (_ & _ & Q). exact Q.
Defined.

(** The teams of the example site are within the selection. *)
Lemma tables_within_selection_witness :
  exists frame s',
    read_teams Example.env Example.reader (Example.session Example.league_site)
    = (Ok frame, s')
    /\ frame <> [].
Proof.
  eassert (R : read_teams Example.env Example.reader
                 (Example.session Example.league_site) = (Ok _, _))
    by (vm_compute; reflexivity).
  do 2 eexists. split; [exact R|].
  destruct (tables_within_selection Example.env Example.reader
              (Example.session Example.league_site)) as (H & _).
  exact (proj1 (H _ _ R)).
Defined.

(** The table for one player in one version has one row. *)
Lemma player_ratings_table_witness :
  exists frame s',
    read_player_ratings Example.env Example.reader None (Some (PlayerInt 231747))
      (Example.session Example.profile_site) = (Ok frame, s')
    /\ List.length frame = 1%nat.
Proof.
  eassert (R : read_player_ratings Example.env Example.reader None (Some (PlayerInt 231747))
                 (Example.session Example.profile_site) = (Ok _, _))
    by (vm_compute; reflexivity).
  do 2 eexists. split; [exact R|].
  exact (proj1 (player_ratings_table _ _ _ _ _ _ _ R)).
Defined.

(** Without a player argument, the players of Arsenal are read from the
    roster and each profile is requested once. *)
Lemma all_players_once_witness :
  exists frame s',
    read_player_ratings Example.env Example.reader (Some (TeamStr (py "Arsenal"))) None
      (Example.session (Example.league_site ++ Example.profile_site)) = (Ok frame, s')
    /\ exists ids : list Z, NoDup ids /\ List.length frame = (1 * List.length ids)%nat.
Proof.
  eassert (R : read_player_ratings Example.env Example.reader
                 (Some (TeamStr (py "Arsenal"))) None
                 (Example.session (Example.league_site ++ Example.profile_site))
               = (Ok _, _)) by (vm_compute; reflexivity).
  do 2 eexists. split; [exact R|].
  destruct (all_players_once _ _ _ _ _ _ R) as (df & s1 & ids & _ & N & _ & _ & L).
  exists ids. split; [exact N|exact L].
Defined.

(** After the teams of the example site have been read, reading the team
    ratings downloads nothing. *)
Lemma listing_pages_shared_witness :
  exists frame s1,
    read_teams Example.env Example.reader (Example.session Example.league_site)
    = (Ok frame, s1)
    /\ downloads (snd (read_team_ratings Example.env Example.reader s1)) = downloads s1.
Proof.
  eassert (R : read_teams Example.env Example.reader
                 (Example.session Example.league_site) = (Ok _, _))
    by (vm_compute; reflexivity).
  do 2 eexists. split; [exact R|].
  exact (proj1 (listing_pages_shared _ _ _ _ _ R)).
Defined.

(** In the record of the example profile the name holds no hyphen. *)
Lemma player_record_values_witness :
  exists scores,
    player_scores Example.version_24 231747
      (Example.profile Example.basic_info_line [] 0) = Ok scores
    /\ exists name, dict_get (py "name") scores = Some (VStr name) /\ ~ In 45 name.
Proof.
  eassert (R : player_scores Example.version_24 231747
                 (Example.profile Example.basic_info_line [] 0) = Ok _)
    by (vm_compute; reflexivity).
  eexists. split; [exact R|].
  exact (proj1 (proj2 (player_record_values _ _ _ _ R))).
Defined.

(** The teams of the example site are read from the directory of leagues and
    the listing page of the league. *)
Lemma pages_asked_for_witness :
  exists frame s' leagues s0,
    read_teams Example.env Example.reader (Example.session Example.league_site)
    = (Ok frame, s')
    /\ read_leagues Example.env Example.reader (Example.session Example.league_site)
       = (Ok leagues, s0)
    /\ requests s'
       = requests s0
         ++ map (teams_request Example.reader) (list_prod leagues (versions Example.reader)).
Proof.
  eassert (R : read_teams Example.env Example.reader
                 (Example.session Example.league_site) = (Ok _, _))
    by (vm_compute; reflexivity).
  destruct (pages_asked_for Example.env Example.reader
              (Example.session Example.league_site)) as (H & _).
  destruct (H _ _ R) as (leagues & s0 & L & Q).
  eexists _, _, leagues, s0. split; [exact R|]. split; [exact L|exact Q].
Defined.
